(** * TARR Annunciator: schedule validation, job registration and playback

    A shallow embedding of the scheduling core of the TARR Annunciator
    (the [win64], [deb-arm] and [legacy_py] application variants and the
    stand-alone cron checkers under [dev/]), together with the properties
    of that core which the specification states.

    Conventions.
    - Python [str] values are modelled by [string]; only characters in the
      8-bit range are represented.
    - A function that may raise is modelled in the [outcome] type; the
      stateful handlers thread a [World] explicitly.
    - Code of third-party libraries (APScheduler's [CronTrigger], the JSON
      codec) is not part of the repository: it appears as a section
      variable wherever the repository's code calls it. *)

From stdpp Require Import base strings list pretty gmap.
From Stdlib Require Import ZArith Ascii.

Local Open Scope Z_scope.

(** ** Python primitives used by the sources *)

Module Py.

(** Exceptions that the modelled code can raise. *)
Inductive exn :=
| ValueError
| KeyError
| AttributeError
| TypeError
| RecursionError
| ConflictingIdError
| JSONDecodeError
| OSError.

Inductive outcome (A : Type) :=
| Return (a : A)
| Raise (e : exn).
Arguments Return {A} a.
Arguments Raise {A} e.

Definition bind {A B} (m : outcome A) (k : A -> outcome B) : outcome B :=
  match m with
  | Return a => k a
  | Raise e => Raise e
  end.

(** [str.isspace] on the characters below 256, which [str.split()] and
    [str.strip()] use: tab, line feed, vertical tab, form feed, carriage
    return, the four separators 0x1c-0x1f, the blank, next line (0x85)
    and the no-break space (0xa0). *)
Definition isspace (c : ascii) : bool :=
  match c with
  | "009" | "010" | "011" | "012" | "013"
  | "028" | "029" | "030" | "031" | " "
  | "133" | "160" => true
  | _ => false
  end%char.

Definition ascii_eqb (a b : ascii) : bool := bool_decide (a = b).

(** [c in s] for a one-character needle. *)
Fixpoint contains (c : ascii) (s : string) : bool :=
  match s with
  | EmptyString => false
  | String a s' => ascii_eqb a c || contains c s'
  end.

Definition snoc (s : string) (c : ascii) : string := s +:+ String c "".

(** Some character of [s] satisfies [P]. *)
Fixpoint any_char (P : ascii -> bool) (s : string) : bool :=
  match s with
  | EmptyString => false
  | String a s' => P a || any_char P s'
  end.

(** [s.split()]: maximal runs of non-blank characters. *)
Fixpoint split_ws_go (cur : string) (s : string) : list string :=
  match s with
  | EmptyString => match cur with EmptyString => [] | _ => [cur] end
  | String a s' =>
      if isspace a
      then match cur with
           | EmptyString => split_ws_go "" s'
           | _ => cur :: split_ws_go "" s'
           end
      else split_ws_go (snoc cur a) s'
  end.
Definition split_ws (s : string) : list string := split_ws_go "" s.

(** [s.split(sep)] for a one-character separator: always at least one
    piece, empty pieces are kept. *)
Fixpoint split_on_go (sep : ascii) (cur : string) (s : string) : list string :=
  match s with
  | EmptyString => [cur]
  | String a s' =>
      if ascii_eqb a sep
      then cur :: split_on_go sep "" s'
      else split_on_go sep (snoc cur a) s'
  end.
Definition split_on (sep : ascii) (s : string) : list string :=
  split_on_go sep "" s.

Fixpoint lstrip (s : string) : string :=
  match s with
  | EmptyString => ""
  | String a s' => if isspace a then lstrip s' else s
  end.
Definition rstrip (s : string) : string := String.rev (lstrip (String.rev s)).
Definition strip (s : string) : string := rstrip (lstrip s).

Definition digit_of (c : ascii) : option Z :=
  Z.of_nat <$> Ascii.is_nat c.

(** The digit part of an integer literal accepted by [int(s)]: decimal
    digits, single underscores allowed between two digits. [after_digit]
    records whether the previous character was a digit. *)
Fixpoint int_digits (acc : Z) (after_digit : bool) (s : string) : option Z :=
  match s with
  | EmptyString => if after_digit then Some acc else None
  | String c s' =>
      match digit_of c with
      | Some d => int_digits (10 * acc + d) true s'
      | None =>
          if ascii_eqb c "_" && after_digit
          then int_digits acc false s'
          else None
      end
  end.

(** The blanks that [int] skips around a literal: those of [isspace]
    without the four separators 0x1c-0x1f. *)
Definition int_blank (c : ascii) : bool :=
  match c with
  | "009" | "010" | "011" | "012" | "013" | " " | "133" | "160" => true
  | _ => false
  end%char.

Fixpoint int_lstrip (s : string) : string :=
  match s with
  | EmptyString => ""
  | String a s' => if int_blank a then int_lstrip s' else s
  end.
Definition int_strip (s : string) : string :=
  String.rev (int_lstrip (String.rev (int_lstrip s))).

(** [sys.get_int_max_str_digits()]: the default limit on the number of
    digits of a decimal literal (Python 3.11). *)
Definition max_str_digits : nat := 4300.

Fixpoint count_digits (s : string) : nat :=
  match s with
  | EmptyString => 0
  | String c s' =>
      match digit_of c with
      | Some _ => S (count_digits s')
      | None => count_digits s'
      end
  end.

(** [int(s)]: surrounding blanks are dropped, one optional sign, then the
    digits; anything else raises [ValueError], and so does a literal of
    more than [max_str_digits] digits. *)
Definition int (s : string) : outcome Z :=
  let body :=
    match int_strip s with
    | String "+" r => int_digits 0 false r
    | String "-" r => Z.opp <$> int_digits 0 false r
    | t => int_digits 0 false t
    end in
  match body with
  | Some z =>
      if (max_str_digits <? count_digits (int_strip s))%nat
      then Raise ValueError
      else Return z
  | None => Raise ValueError
  end.

(** [all(f(v) for v in l)]: stops at the first false element; an
    exception raised by [f] propagates. *)
Fixpoint all {A} (f : A -> outcome bool) (l : list A) : outcome bool :=
  match l with
  | [] => Return true
  | x :: l' =>
      match f x with
      | Return true => all f l'
      | Return false => Return false
      | Raise e => Raise e
      end
  end.

(** [try: body / except ValueError: return False]. *)
Definition except_ValueError (body : outcome bool) : outcome bool :=
  match body with
  | Raise ValueError => Return false
  | r => r
  end.

End Py.

Import Py.

Global Instance outcome_bind : MBind outcome := fun A B k m => bind m k.
Global Instance outcome_ret : MRet outcome := fun A a => Return a.

(** ** The stand-alone cron checker of the Raspberry Pi variant
    ([dev/deb-arm/validate_cron.py]) *)

Module ValidateCron.

(** The five field names, in the order the expression lists them. *)
Inductive field_name := minute | hour | day | month | day_of_week.

(** The second component of the pair returned by
    [validate_cron_expression]. *)
Inductive message :=
| MsgFieldCount (got : nat)
    (* "Cron expression must have exactly 5 parts (...), got {n}" *)
| MsgInvalidField (f : field_name)   (* "Invalid minute field", ... *)
| MsgValid                           (* "Valid cron expression" *)
| MsgException (e : exn).            (* "Invalid cron expression: {e}" *)

(** Python's default recursion limit; exceeding it raises
    [RecursionError]. *)
Definition recursion_limit : nat := 1000.

(** The nested function [validate_field(value, min_val, max_val, name)].
    [depth] is the number of stack frames still available. *)
Fixpoint validate_field_rec (depth : nat) (value : string) (min_val max_val : Z)
    : outcome bool :=
  match depth with
  | O => Raise RecursionError
  | S depth' =>
      if String.eqb value "*" then Return true
      else if contains "/" value then
        match split_on "/" value with
        | [base; step] =>
            except_ValueError
              (base_int ← (if String.eqb base "*" then Return min_val
                            else int base);
               step_int ← int step;
               Return ((min_val <=? base_int) && (base_int <=? max_val)
                       && (0 <? step_int)))
        | _ => Raise ValueError   (* unpacking outside the inner try *)
        end
      else if contains "-" value then
        except_ValueError
          match split_on "-" value with
          | [start; end_] =>
              start_int ← int start;
              end_int ← int end_;
              Return ((min_val <=? start_int) && (start_int <=? end_int)
                      && (end_int <=? max_val))
          | _ => Raise ValueError
          end
      else if contains "," value then
        all (fun v => validate_field_rec depth' (strip v) min_val max_val)
            (split_on "," value)
      else
        except_ValueError
          (val ← int value;
           Return ((min_val <=? val) && (val <=? max_val)))
  end.

Definition validate_field (value : string) (min_val max_val : Z)
    : outcome bool :=
  validate_field_rec recursion_limit value min_val max_val.

(** The checks on the five fields, in source order; the first failing
    field decides the message. *)
Definition check_fields (parts : list string) : outcome (bool * message) :=
  match parts with
  | [mi; ho; da; mo; dw] =>
      ok_mi ← validate_field mi 0 59;
      if negb ok_mi then Return (false, MsgInvalidField minute) else
      ok_ho ← validate_field ho 0 23;
      if negb ok_ho then Return (false, MsgInvalidField hour) else
      ok_da ← validate_field da 1 31;
      if negb ok_da then Return (false, MsgInvalidField day) else
      ok_mo ← validate_field mo 1 12;
      if negb ok_mo then Return (false, MsgInvalidField month) else
      ok_dw ← validate_field dw 0 7;
      if negb ok_dw then Return (false, MsgInvalidField day_of_week) else
      Return (true, MsgValid)
  | _ => Raise ValueError
  end.

Definition validate_cron_expression (cron_expr : string) : bool * message :=
  let parts := split_ws cron_expr in
  if negb (Nat.eqb (length parts) 5) then (false, MsgFieldCount (length parts))
  else
    match check_fields parts with
    | Return r => r
    | Raise e => (false, MsgException e)     (* except Exception as e *)
    end.

End ValidateCron.

(** ** JSON values and the Python operations applied to them *)

Module Json.

(** A decoded JSON document ([json.load]); numbers are integers, floating
    point values are not represented. An object keeps its members in
    insertion order, as a Python [dict] does. *)
#[warnings="-register-all"] Inductive json :=
| JNull
| JBool (b : bool)
| JNum (n : Z)
| JStr (s : string)
| JArr (l : list json)
| JObj (kv : list (string * json)).

(** [d[k]] on the member list of a [dict]. *)
Fixpoint dict_get {V} (k : string) (kv : list (string * V)) : option V :=
  match kv with
  | [] => None
  | (k', v) :: kv' => if String.eqb k' k then Some v else dict_get k kv'
  end.

(** [o.get(k, default)]: only a [dict] has the method. *)
Definition py_get (o : json) (k : string) (dflt : json) : outcome json :=
  match o with
  | JObj kv => Return (default dflt (dict_get k kv))
  | _ => Raise AttributeError
  end.

(** [o[k]] with a string key. *)
Definition py_getitem (o : json) (k : string) : outcome json :=
  match o with
  | JObj kv => match dict_get k kv with
               | Some v => Return v
               | None => Raise KeyError
               end
  | _ => Raise TypeError
  end.

(** Truth value of a decoded JSON value. *)
Definition truthy (v : json) : bool :=
  match v with
  | JNull => false
  | JBool b => b
  | JNum n => negb (n =? 0)
  | JStr s => negb (String.eqb s "")
  | JArr l => negb (Nat.eqb (length l) 0)
  | JObj kv => negb (Nat.eqb (length kv) 0)
  end.

Fixpoint chars (s : string) : list json :=
  match s with
  | EmptyString => []
  | String a s' => JStr (String a "") :: chars s'
  end.

(** The elements a [for] loop visits: list items, the characters of a
    string, the keys of a dict; other values are not iterable. *)
Definition py_iter (v : json) : outcome (list json) :=
  match v with
  | JArr l => Return l
  | JStr s => Return (chars s)
  | JObj kv => Return ((fun p => JStr (fst p)) <$> kv)
  | _ => Raise TypeError
  end.

Fixpoint prefix_of (p s : string) : bool :=
  match p, s with
  | EmptyString, _ => true
  | String a p', String b s' => ascii_eqb a b && prefix_of p' s'
  | _, EmptyString => false
  end.
Fixpoint substring_of (p s : string) : bool :=
  prefix_of p s ||
  match s with
  | EmptyString => false
  | String _ s' => substring_of p s'
  end.

(** [k in o] for a string [k]: a key of a dict, an element of a list, a
    substring of a string; other values raise. *)
Definition py_in (k : string) (o : json) : outcome bool :=
  match o with
  | JObj kv => Return (bool_decide (is_Some (dict_get k kv)))
  | JArr l =>
      Return (existsb (fun v => match v with
                                | JStr s => String.eqb s k
                                | _ => false
                                end) l)
  | JStr s => Return (substring_of k s)
  | _ => Raise TypeError
  end.

(** [v.split()]: only strings have the method. *)
Definition py_split (v : json) : outcome (list string) :=
  match v with
  | JStr s => Return (split_ws s)
  | _ => Raise AttributeError
  end.

Fixpoint join (sep : string) (l : list string) : string :=
  match l with
  | [] => ""
  | [x] => x
  | x :: l' => x +:+ sep +:+ join sep l'
  end.

(** Text of a value inside an f-string. Strings print as they are, [None]
    and booleans by their Python names; containers print their elements
    with [repr], whose escaping of quotes inside strings is not
    modelled. *)
Fixpoint py_repr (v : json) : string :=
  match v with
  | JNull => "None"
  | JBool true => "True"
  | JBool false => "False"
  | JNum n => pretty n
  | JStr s => "'" +:+ s +:+ "'"
  | JArr l => "[" +:+ join ", " (map py_repr l) +:+ "]"
  | JObj kv =>
      "{" +:+ join ", " (map (fun p => "'" +:+ fst p +:+ "': " +:+ py_repr (snd p)) kv)
          +:+ "}"
  end.

Definition py_str (v : json) : string :=
  match v with
  | JStr s => s
  | _ => py_repr v
  end.

End Json.

Import Json.

(** ** Data shared by the application variants *)

Module App.

(** [os.path.join(a, b)] with the POSIX separator: an absolute second
    component replaces the first. Paths are written relative to
    [BASE_DIR]. *)
Definition ends_with_slash (a : string) : bool :=
  match String.rev a with
  | String "/" _ => true
  | _ => false
  end.

Definition path_join (a b : string) : string :=
  match b with
  | String "/" _ => b
  | _ => match a with
         | EmptyString => b
         | _ => if ends_with_slash a then a +:+ b else a +:+ "/" +:+ b
         end
  end.

Fixpoint basename_go (cur : string) (s : string) : string :=
  match s with
  | EmptyString => cur
  | String a s' => if ascii_eqb a "/" then basename_go "" s'
                   else basename_go (snoc cur a) s'
  end.
(** [os.path.basename]. *)
Definition basename (s : string) : string := basename_go "" s.

Definition JSON_DIR : string := "json".
Definition MP3_DIR : string := path_join "static" "mp3".

(** The table [MP3_PATHS]. *)
Definition MP3_PATHS : list (string * string) :=
  [ ("train", path_join MP3_DIR "train");
    ("direction", path_join MP3_DIR "direction");
    ("destination", path_join MP3_DIR "destination");
    ("track", path_join MP3_DIR "track");
    ("promo", path_join MP3_DIR "promo");
    ("safety", path_join MP3_DIR "safety");
    ("chime", path_join MP3_DIR "chime.mp3") ].

(** The table [JSON_FILES]. *)
Definition JSON_FILES : list (string * string) :=
  [ ("trains", path_join JSON_DIR "trains.json");
    ("directions", path_join JSON_DIR "directions.json");
    ("destinations", path_join JSON_DIR "destinations.json");
    ("tracks", path_join JSON_DIR "tracks.json");
    ("promo", path_join JSON_DIR "promo.json");
    ("safety", path_join JSON_DIR "safety.json");
    ("cron", path_join JSON_DIR "cron.json") ].

(** [table[k]] on one of the two tables above. *)
Definition table_get (table : list (string * string)) (k : string)
    : outcome string :=
  match dict_get k table with
  | Some v => Return v
  | None => Raise KeyError
  end.

(** The three categories of the schedule document. *)
Inductive kind := station | promo | safety.

Global Instance kind_eq_dec : EqDecision kind.
Proof. solve_decision. Defined.

(** Key of the category's list in the schedule document. *)
Definition list_key (k : kind) : string :=
  match k with
  | station => "station_announcements"
  | promo => "promo_announcements"
  | safety => "safety_announcements"
  end.

(** Keys of an item that become the arguments of the scheduled call. *)
Definition arg_keys (k : kind) : list string :=
  match k with
  | station => ["train_number"; "direction"; "destination"; "track_number"]
  | promo => ["file"]
  | safety => ["language"]
  end.

(** What lies on disk under a path. A file opened for writing is emptied
    at once; [Torn d] is what is left when the dump of [d] stops part-way. *)
Inductive file :=
| Json (d : json)
| Torn (d : json)
| Audio.

(** [json.load] on an opened file. *)
Definition json_load (f : file) : outcome json :=
  match f with
  | Json d => Return d
  | _ => Raise JSONDecodeError
  end.

(** How the next write to disk goes. *)
Inductive disk :=
| Writable
| OpenFails          (* [open(path, 'w')] raises, nothing is touched *)
| DumpFails.         (* the file is opened, the dump raises part-way *)

(** Lines written to standard output. *)
Inductive line :=
| LScheduled (k : kind) (cron what : json)
    (* "Scheduled: {item['cron']} - ..." *)
| LErrorScheduling (k : kind) (i : nat) (e : exn)
    (* "Error scheduling station announcement {i}: {e}" *)
| LSchedulerUpdated                   (* "Scheduler updated." *)
| LStationAnnouncement (train_number direction destination track_number : json)
| LPlaying (name : string)            (* "Playing: {basename}" *)
| LMissing (path : string).           (* "Missing audio file: {path}" *)

(** What a background thread is started with. *)
Inductive task :=
| TPlaySequence (file_list : list string)   (* play_audio_sequence(...) *)
| TPlayAudio (file_path : string).          (* play_audio(...) *)

(** Observable steps of a handler, in program order. *)
Inductive event :=
| Print (l : line)
| AssignCurrentAnnouncement (v : option json)
    (* assignment to the global [current_announcement] *)
| StartThread (t : task)
| CallPlayAudio (file_path : string)
| Sleep.                                    (* time.sleep(0.3) *)

(** *** Schedule documents (section 3 of the specification) *)

Inductive AnnouncementTemplate : kind -> Type :=
| Station (train_number direction destination track_number : string)
    : AnnouncementTemplate station
| Promo (file : string) : AnnouncementTemplate promo
| Safety (language : string) : AnnouncementTemplate safety.

Record ScheduleEntry (k : kind) := {
  cron : string;
  enabled : bool;
  template : AnnouncementTemplate k }.
Arguments cron {k} _.
Arguments enabled {k} _.
Arguments template {k} _.

Record ScheduleDocument := {
  station_announcements : list (ScheduleEntry station);
  promo_announcements : list (ScheduleEntry promo);
  safety_announcements : list (ScheduleEntry safety) }.

Definition entries (d : ScheduleDocument) (k : kind) : list (ScheduleEntry k) :=
  match k with
  | station => station_announcements d
  | promo => promo_announcements d
  | safety => safety_announcements d
  end.

(** The JSON form of a document, as the admin page and the API send it
    and as [json/cron.json] stores it. *)
Definition template_members {k} (t : AnnouncementTemplate k)
    : list (string * json) :=
  match t with
  | Station train_number direction destination track_number =>
      [ ("train_number", JStr train_number); ("direction", JStr direction);
        ("destination", JStr destination); ("track_number", JStr track_number) ]
  | Promo file => [ ("file", JStr file) ]
  | Safety language => [ ("language", JStr language) ]
  end.

Definition entry_json {k} (e : ScheduleEntry k) : json :=
  JObj (("cron", JStr (cron e)) :: ("enabled", JBool (enabled e))
        :: template_members (template e)).

Definition document_members (d : ScheduleDocument) : list (string * json) :=
  [ ("station_announcements", JArr (entry_json <$> station_announcements d));
    ("promo_announcements", JArr (entry_json <$> promo_announcements d));
    ("safety_announcements", JArr (entry_json <$> safety_announcements d)) ].

Definition document_json (d : ScheduleDocument) : json :=
  JObj (document_members d).

(** The document with three empty lists. *)
Definition empty_document : ScheduleDocument :=
  {| station_announcements := []; promo_announcements := [];
     safety_announcements := [] |}.

End App.

Import App.

(** ** The Windows variant ([win64/app.py]) and its in-process scheduler *)

Module Win64.

Section WithLibrary.

(** APScheduler is not part of the repository. [Trigger] stands for its
    trigger objects and [CronTrigger] for the constructor called with the
    keyword arguments [minute], [hour], [day], [month], [day_of_week]; it
    either builds a trigger or raises. [fires t now] tells whether the
    library fires a job bound to [t] at the wall-clock minute [now]. *)
Variable Trigger : Type.
Variable CronTrigger :
  string -> string -> option string -> option string -> option string ->
  outcome Trigger.
Variable Time : Type.
Variable fires : Trigger -> Time -> bool.

(** An entry of the scheduler's job store, as [add_job] receives it. *)
Record Job := {
  job_id : string;
  job_name : string;
  job_func : kind;      (* play_station_announcement, play_promo, play_safety *)
  job_trigger : Trigger;
  job_args : list json }.

(** The process state and its surroundings. [jobs] is the job store of
    the scheduler, in the order in which [add_job] filled it.
    [scheduler.get_jobs()] returns the jobs of the store sorted by their
    next run time; the code takes only the length of that list, so the
    order of [jobs] stands for nothing in the code. *)
Record World := {
  files : gmap string file;               (* the disk *)
  disk_state : disk;
  jobs : list Job;                        (* the scheduler's job store *)
  current_announcement : option json;     (* the global of that name *)
  trace : list event }.

Definition with_files (fs : gmap string file) (w : World) : World :=
  {| files := fs; disk_state := disk_state w; jobs := jobs w;
     current_announcement := current_announcement w; trace := trace w |}.
Definition with_jobs (js : list Job) (w : World) : World :=
  {| files := files w; disk_state := disk_state w; jobs := js;
     current_announcement := current_announcement w; trace := trace w |}.
Definition with_current (v : option json) (w : World) : World :=
  {| files := files w; disk_state := disk_state w; jobs := jobs w;
     current_announcement := v; trace := trace w |}.
Definition with_trace (t : list event) (w : World) : World :=
  {| files := files w; disk_state := disk_state w; jobs := jobs w;
     current_announcement := current_announcement w; trace := t |}.

(** Code that reads and changes the world and may raise; what was done
    before an exception stays done. *)
Definition M (A : Type) : Type := World -> outcome A * World.

#[local] Instance M_ret : MRet M := fun A a w => (Return a, w).
#[local] Instance M_bind : MBind M := fun A B k m w =>
  match m w with
  | (Return a, w') => k a w'
  | (Raise e, w') => (Raise e, w')
  end.

Definition lift {A} (o : outcome A) : M A := fun w => (o, w).
Definition get_world : M World := fun w => (Return w, w).
Definition emit (e : event) : M unit :=
  fun w => (Return tt, with_trace (trace w ++ [e]) w).
Definition print (l : line) : M unit := emit (Print l).

(** [try: body / except Exception as e: handler(e)]. *)
Definition try_except {A} (body : M A) (handler : exn -> M A) : M A :=
  fun w =>
    match body w with
    | (Return a, w') => (Return a, w')
    | (Raise e, w') => handler e w'
    end.

(** [for i, x in enumerate(l): body], counting from [i]. *)
Fixpoint for_enumerate {A} (i : nat) (l : list A) (body : nat -> A -> M unit)
    : M unit :=
  match l with
  | [] => mret tt
  | x :: l' => body i x;; for_enumerate (S i) l' body
  end.

Fixpoint for_each {A} (l : list A) (body : A -> M unit) : M unit :=
  match l with
  | [] => mret tt
  | x :: l' => body x;; for_each l' body
  end.

(** [os.path.exists]. *)
Definition path_exists (path : string) : M bool :=
  fun w => (Return (bool_decide (is_Some (files w !! path))), w).

(** *** Audio *)

(** [play_audio_sequence]; the body of [play_audio] (the pygame calls) is
    not unfolded, a call to it is recorded. *)
Definition play_audio_sequence (file_list : list string) : M unit :=
  for_each file_list (fun file_path =>
    ex ← path_exists file_path;
    if ex : bool then
      print (LPlaying (basename file_path));;
      emit (CallPlayAudio file_path);;
      emit Sleep
    else
      print (LMissing file_path)).

(** What the loop of [play_audio_sequence] does for each file, given the
    files on disk. *)
Definition sequence_events (fs : gmap string file) (file_list : list string)
    : list event :=
  flat_map (fun file_path =>
              if bool_decide (is_Some (fs !! file_path))
              then [Print (LPlaying (basename file_path));
                    CallPlayAudio file_path; Sleep]
              else [Print (LMissing file_path)]) file_list.

(** *** Utility functions *)

Definition load_json (name : string) : M json :=
  path ← lift (table_get JSON_FILES name);
  w ← get_world;
  match files w !! path with
  | Some f =>
      data ← lift (json_load f);
      match data with
      | JObj kv =>
          match dict_get name kv with
          | Some v => mret v
          | None =>
              match kv with
              | [(_, v)] => mret v
              | _ => mret data
              end
          end
      | _ => mret data
      end
  | None => mret (JArr [])
  end.

(** [with open(path, 'w') as f: json.dump(data, f, indent=4)]. *)
Definition open_and_dump (path : string) (data : json) : M unit :=
  fun w =>
    match disk_state w with
    | Writable => (Return tt, with_files (<[path := Json data]> (files w)) w)
    | OpenFails => (Raise OSError, w)
    | DumpFails => (Raise OSError, with_files (<[path := Torn data]> (files w)) w)
    end.

Definition save_json (name : string) (data : json) : M unit :=
  path ← lift (table_get JSON_FILES name);
  open_and_dump path data.

Definition stop_safety_announcement : M unit :=
  fun w => emit (AssignCurrentAnnouncement None) (with_current None w).

Definition mp3 (v : json) : string := py_str v +:+ ".mp3".

Definition play_station_announcement
    (train_number direction destination track_number : json) : M unit :=
  print (LStationAnnouncement train_number direction destination track_number);;
  chime ← lift (table_get MP3_PATHS "chime");
  d_train ← lift (table_get MP3_PATHS "train");
  d_direction ← lift (table_get MP3_PATHS "direction");
  d_destination ← lift (table_get MP3_PATHS "destination");
  d_track ← lift (table_get MP3_PATHS "track");
  let audio_sequence :=
    [ chime;
      path_join d_train (mp3 train_number);
      path_join d_direction (mp3 direction);
      path_join d_destination (mp3 destination);
      path_join d_track (mp3 track_number) ] in
  emit (StartThread (TPlaySequence audio_sequence)).

Definition play_promo (file : json) : M unit :=
  d_promo ← lift (table_get MP3_PATHS "promo");
  f ← lift (match file with JStr s => Return s | _ => Raise TypeError end);
  emit (StartThread (TPlayAudio (path_join d_promo f))).

Definition play_safety (language : json) : M unit :=
  d_safety ← lift (table_get MP3_PATHS "safety");
  emit (StartThread
          (TPlayAudio (path_join d_safety ("safety_" +:+ py_str language +:+ ".mp3")))).

(** *** The scheduler object *)

(** [scheduler.remove_all_jobs()]. *)
Definition remove_all_jobs : M unit :=
  fun w => (Return tt, with_jobs [] w).

(** [scheduler.add_job(...)] on the running scheduler: the store refuses
    a second job under an id it already holds. The job is put at the end
    of [jobs]; see [World] for what that order means. *)
Definition add_job (j : Job) : M unit :=
  fun w =>
    if bool_decide (job_id j ∈ job_id <$> jobs w)
    then (Raise ConflictingIdError, w)
    else (Return tt, with_jobs (jobs w ++ [j]) w).

(** [x if x != '*' else None]. *)
Definition unless_star (x : string) : option string :=
  if String.eqb x "*" then None else Some x.

Definition id_prefix (k : kind) : string :=
  match k with
  | station => "station_" | promo => "promo_" | safety => "safety_"
  end.
Definition name_prefix (k : kind) : string :=
  match k with
  | station => "Station Announcement "
  | promo => "Promo Announcement "
  | safety => "Safety Announcement "
  end.

(** [f'station_{i}'] and [f"Station Announcement {i+1}"]. *)
Definition make_id (k : kind) (i : nat) : string := id_prefix k +:+ pretty i.
Definition make_name (k : kind) (i : nat) : string :=
  name_prefix k +:+ pretty (i + 1)%nat.

(** [[item[k1], item[k2], ...]], evaluated left to right. *)
Fixpoint getitems (item : json) (keys : list string) : outcome (list json) :=
  match keys with
  | [] => Return []
  | k :: keys' =>
      v ← py_getitem item k;
      vs ← getitems item keys';
      Return (v :: vs)
  end.

(** The body of one of the three loops of [update_scheduler], for the
    item at index [i] of category [k]. The loops differ in the callback,
    in the keys of the arguments and in the id and name prefixes only. *)
Definition schedule_item (k : kind) (i : nat) (item : json) : M unit :=
  en ← lift (py_get item "enabled" JNull);
  if truthy en then
    try_except
      (c ← lift (py_getitem item "cron");
       cron_parts ← lift (py_split c);
       match cron_parts with
       | [minute; hour; day; month; day_of_week] =>
           trg ← lift (CronTrigger minute hour (unless_star day)
                         (unless_star month) (unless_star day_of_week));
           args ← lift (getitems item (arg_keys k));
           add_job {| job_id := make_id k i; job_name := make_name k i;
                      job_func := k; job_trigger := trg; job_args := args |};;
           c' ← lift (py_getitem item "cron");
           what ← lift (py_getitem item (default "" (head (arg_keys k))));
           print (LScheduled k c' what)
       | _ => mret tt
       end)
      (fun e => print (LErrorScheduling k i e))
  else mret tt.

Definition schedule_kind (cron_data : json) (k : kind) : M unit :=
  l ← lift (py_get cron_data (list_key k) (JArr []));
  items ← lift (py_iter l);
  for_enumerate 0 items (schedule_item k).

Definition update_scheduler : M unit :=
  cron_file ← lift (table_get JSON_FILES "cron");
  w ← get_world;
  match files w !! cron_file with
  | None => mret tt
  | Some f =>
      cron_data ← lift (json_load f);
      remove_all_jobs;;
      schedule_kind cron_data station;;
      schedule_kind cron_data promo;;
      schedule_kind cron_data safety;;
      print LSchedulerUpdated
  end.

(** *** Routes *)

Inductive error :=
| ErrScheduleRequired                    (* 'Schedule data required' *)
| ErrUpdateFailed (e : exn)              (* 'Failed to update schedule: ...' *)
| ErrMissingFields (fields : list string)
| ErrPlayFailed (e : exn).               (* 'Failed to play announcement: ...' *)

(** What a handler returns; timestamps are left out. *)
Inductive response :=
| RText (body : string)
| RSchedule (schedule : json)
| RUpdated (active_jobs : nat)
    (* {'success': True, 'message': ..., 'active_jobs': n} *)
| RTriggered (k : kind) (announcement : list json)
| RError (err : error) (status : nat).

Inductive method := GET | POST.

(** [request.form.get(k)]. *)
Definition form_get (form : list (string * string)) (k : string) : json :=
  match dict_get k form with
  | Some v => JStr v
  | None => JNull
  end.

Definition play_announcement_route (form : list (string * string)) : M response :=
  let train_number := form_get form "train_number" in
  let direction := form_get form "direction" in
  let destination := form_get form "destination" in
  let track_number := form_get form "track_number" in
  stop_safety_announcement;;
  play_station_announcement train_number direction destination track_number;;
  mret (RText "Station announcement played.").

Definition play_promo_route (form : list (string * string)) : M response :=
  let file := form_get form "file" in
  play_promo file;;
  mret (RText "Promo announcement played.").

Definition play_safety_route (form : list (string * string)) : M response :=
  let language := form_get form "language" in
  stop_safety_announcement;;
  play_safety language;;
  mret (RText ("Safety announcement in " +:+ py_str language +:+ " played.")).

(** [[field for field in required_fields if not params.get(field)]]. *)
Fixpoint missing_fields (params : json) (required_fields : list string)
    : outcome (list string) :=
  match required_fields with
  | [] => Return []
  | field :: rest =>
      v ← py_get params field JNull;
      ms ← missing_fields params rest;
      Return (if truthy v then ms else field :: ms)
  end.

Definition validate_announcement_params (params : json)
    (required_fields : list string) : outcome (bool * list string) :=
  ms ← missing_fields params required_fields;
  Return (match ms with [] => (true, []) | _ => (false, ms) end).

(** The body of [api_station_announcement]; [data] is
    [request.get_json() or request.form.to_dict()]. The key check of the
    decorator is outside the model. *)
Definition api_station_announcement (data : json) : M response :=
  let required_fields :=
    ["train_number"; "direction"; "destination"; "track_number"] in
  '(valid, missing) ← lift (validate_announcement_params data required_fields);
  if negb valid then mret (RError (ErrMissingFields missing) 400)
  else
    try_except
      (train_number ← lift (py_getitem data "train_number");
       direction ← lift (py_getitem data "direction");
       destination ← lift (py_getitem data "destination");
       track_number ← lift (py_getitem data "track_number");
       play_station_announcement train_number direction destination track_number;;
       mret (RTriggered station
               [train_number; direction; destination; track_number]))
      (fun e => mret (RError (ErrPlayFailed e) 500)).

(** The body of [api_schedule]; [data] is [request.get_json()], with
    [JNull] for [None]. *)
Definition api_schedule (m : method) (data : json) : M response :=
  match m with
  | GET =>
      schedule ← load_json "cron";
      mret (RSchedule schedule)
  | POST =>
      absent ← lift (if negb (truthy data) then Return true
                     else (present ← py_in "schedule" data;
                           Return (negb present)));
      if absent : bool then mret (RError ErrScheduleRequired 400)
      else
        try_except
          (schedule ← lift (py_getitem data "schedule");
           save_json "cron" schedule;;
           update_scheduler;;
           w ← get_world;
           mret (RUpdated (length (jobs w))))
          (fun e => mret (RError (ErrUpdateFailed e) 500))
  end.

(** *** Firing *)

(** The scheduler calls the callback bound to a job with the arguments
    bound to it. *)
Definition run_job (j : Job) : M unit :=
  match job_func j, job_args j with
  | station, [train_number; direction; destination; track_number] =>
      play_station_announcement train_number direction destination track_number
  | promo, [file] => play_promo file
  | safety, [language] => play_safety language
  | _, _ => lift (Raise TypeError)
  end.

(** Modelled from the spec: the jobs that a tick at the wall-clock minute
    [now] fires are the registered jobs whose cron rule matches [now]
    (section 4.2); the dispatch loop itself belongs to the scheduler
    library. *)
Definition due (now : Time) (w : World) : list Job :=
  filter (fun j => fires (job_trigger j) now = true) (jobs w).

(** *** The stand-alone checker of this variant
    ([dev/win64/validate_cron.py]) *)

Definition validate_cron_expression (cron_expr : string)
    : bool * ValidateCron.message :=
  let parts := split_ws cron_expr in
  if negb (Nat.eqb (length parts) 5)
  then (false, ValidateCron.MsgFieldCount (length parts))
  else
    match parts with
    | [minute; hour; day; month; day_of_week] =>
        match CronTrigger minute hour (unless_star day) (unless_star month)
                (unless_star day_of_week) with
        | Return _ => (true, ValidateCron.MsgValid)
        | Raise e => (false, ValidateCron.MsgException e)
        end
    | _ => (false, ValidateCron.MsgException ValueError)
    end.

(** *** What a document registers *)

(** The trigger that [update_scheduler] builds from a cron text, when it
    builds one: five fields, and the constructor does not raise. *)
Definition trigger_of (c : string) : option Trigger :=
  match split_ws c with
  | [minute; hour; day; month; day_of_week] =>
      match CronTrigger minute hour (unless_star day) (unless_star month)
              (unless_star day_of_week) with
      | Return t => Some t
      | Raise _ => None
      end
  | _ => None
  end.

Definition job_of {k} (i : nat) (e : ScheduleEntry k) : option Job :=
  if enabled e then
    t ← trigger_of (cron e);
    Some {| job_id := make_id k i; job_name := make_name k i; job_func := k;
            job_trigger := t; job_args := snd <$> template_members (template e) |}
  else None.

(** The lines that the loop prints for an entry. *)
Definition lines_of {k} (i : nat) (e : ScheduleEntry k) : list event :=
  if enabled e then
    match split_ws (cron e) with
    | [minute; hour; day; month; day_of_week] =>
        match CronTrigger minute hour (unless_star day) (unless_star month)
                (unless_star day_of_week) with
        | Return _ =>
            [Print (LScheduled k (JStr (cron e))
                      (default JNull (head (snd <$> template_members (template e)))))]
        | Raise ex => [Print (LErrorScheduling k i ex)]
        end
    | _ => []
    end
  else [].

Fixpoint jobs_from {k} (i : nat) (es : list (ScheduleEntry k)) : list Job :=
  match es with
  | [] => []
  | e :: es' => option_list (job_of i e) ++ jobs_from (S i) es'
  end.

Fixpoint lines_from {k} (i : nat) (es : list (ScheduleEntry k)) : list event :=
  match es with
  | [] => []
  | e :: es' => lines_of i e ++ lines_from (S i) es'
  end.

Definition registered (d : ScheduleDocument) : list Job :=
  jobs_from 0 (entries d station) ++ jobs_from 0 (entries d promo)
  ++ jobs_from 0 (entries d safety).

Definition printed (d : ScheduleDocument) : list event :=
  lines_from 0 (entries d station) ++ lines_from 0 (entries d promo)
  ++ lines_from 0 (entries d safety) ++ [Print LSchedulerUpdated].

(** The world after more jobs were added and more lines printed. *)
Definition extend (js : list Job) (ls : list event) (w : World) : World :=
  with_trace (trace w ++ ls) (with_jobs (jobs w ++ js) w).

(** No job of [js] carries the id of an item of category [k] at index
    [i] or later. *)
Definition fresh_from (k : kind) (i : nat) (js : list Job) : Prop :=
  forall j, (i <= j)%nat -> make_id k j ∉ job_id <$> js.

(** [JSON_FILES['cron']]. *)
Definition cron_path : string := "json/cron.json".

(** The decoded file [cron_data] carries the three lists of [d]: a
    category's key is bound to the JSON form of its list, or is absent
    when the list is empty. Other members of [cron_data] are free. *)
Definition holds_document (cron_data : json) (d : ScheduleDocument) : Prop :=
  forall k, py_get cron_data (list_key k) (JArr [])
            = Return (JArr (entry_json <$> entries d k)).

(** The body of a POST to [/api/schedule]. *)
Definition schedule_request (d : ScheduleDocument) : json :=
  JObj [("schedule", document_json d)].

(** A document whose only entry is [e]. *)
Definition single_entry {k} : ScheduleEntry k -> ScheduleDocument :=
  match k with
  | station => fun e => {| station_announcements := [e];
                           promo_announcements := [];
                           safety_announcements := [] |}
  | promo => fun e => {| station_announcements := [];
                         promo_announcements := [e];
                         safety_announcements := [] |}
  | safety => fun e => {| station_announcements := [];
                          promo_announcements := [];
                          safety_announcements := [e] |}
  end.

(** The files that [play_audio] was called on, in order. *)
Fixpoint attempted (t : list event) : list string :=
  match t with
  | [] => []
  | CallPlayAudio p :: t' => p :: attempted t'
  | _ :: t' => attempted t'
  end.

(** An entry counts as active when it is enabled and its cron text
    yields a trigger. *)
Definition active {k} (e : ScheduleEntry k) : bool :=
  enabled e && bool_decide (is_Some (trigger_of (cron e))).

Definition count_active (d : ScheduleDocument) : nat :=
  (length (filter (fun e => active e = true) (entries d station))
   + length (filter (fun e => active e = true) (entries d promo))
   + length (filter (fun e => active e = true) (entries d safety)))%nat.

End WithLibrary.

Arguments files {Trigger} _.
Arguments disk_state {Trigger} _.
Arguments jobs {Trigger} _.
Arguments current_announcement {Trigger} _.
Arguments trace {Trigger} _.
Arguments job_id {Trigger} _.
Arguments job_name {Trigger} _.
Arguments job_func {Trigger} _.
Arguments job_trigger {Trigger} _.
Arguments job_args {Trigger} _.
Arguments with_files {Trigger} _ _.
Arguments with_jobs {Trigger} _ _.
Arguments with_current {Trigger} _ _.
Arguments with_trace {Trigger} _ _.
Arguments extend {Trigger} _ _ _.
Arguments fresh_from {Trigger} _ _ _.

End Win64.

(** ** The Raspberry Pi variant ([deb-arm/app.py]): crontab lines *)

Module DebArm.

Section Install.

(** [BASE_DIR] and [os.path.abspath(__file__)] depend on where the
    application is installed. *)
Variable BASE_DIR : string.
Variable script_path : string.

(** The list [cron_entries] and what was printed. *)
Record Crontab := {
  cron_entries : list string;
  stdout : list line }.

Definition log_redirect : string := " >> /var/log/tarr-announcer.log 2>&1".

(** The f-string [command] of each of the three loops. *)
Definition command (k : kind) (item : json) : outcome string :=
  let run := "cd " +:+ BASE_DIR +:+ " && python3 " +:+ script_path in
  match k with
  | station =>
      train_number ← py_getitem item "train_number";
      direction ← py_getitem item "direction";
      destination ← py_getitem item "destination";
      track_number ← py_getitem item "track_number";
      Return (run +:+ " --station --train '" +:+ py_str train_number
              +:+ "' --direction '" +:+ py_str direction
              +:+ "' --destination '" +:+ py_str destination
              +:+ "' --track '" +:+ py_str track_number +:+ "'" +:+ log_redirect)
  | promo =>
      file ← py_getitem item "file";
      Return (run +:+ " --promo --file '" +:+ py_str file +:+ "'" +:+ log_redirect)
  | safety =>
      language ← py_getitem item "language";
      Return (run +:+ " --safety --language '" +:+ py_str language +:+ "'"
              +:+ log_redirect)
  end.

(** The body of one loop of [update_crontab] for the item at index [i]:
    no check of the cron text is made. *)
Definition crontab_item (k : kind) (i : nat) (item : json) (st : Crontab)
    : outcome Crontab :=
  en ← py_get item "enabled" JNull;
  if truthy en then
    match (cron_expr ← py_getitem item "cron";
           cmd ← command k item;
           Return (cron_expr, cmd)) with
    | Return (cron_expr, cmd) =>
        let entries' := cron_entries st ++ [py_str cron_expr +:+ " " +:+ cmd] in
        match py_getitem item (default "" (head (arg_keys k))) with
        | Return what =>
            Return {| cron_entries := entries';
                      stdout := stdout st ++ [LScheduled k cron_expr what] |}
        | Raise e =>
            Return {| cron_entries := entries';
                      stdout := stdout st ++ [LErrorScheduling k i e] |}
        end
    | Raise e =>
        Return {| cron_entries := cron_entries st;
                  stdout := stdout st ++ [LErrorScheduling k i e] |}
    end
  else Return st.

Fixpoint crontab_loop (k : kind) (i : nat) (items : list json) (st : Crontab)
    : outcome Crontab :=
  match items with
  | [] => Return st
  | item :: items' =>
      st' ← crontab_item k i item st;
      crontab_loop k (S i) items' st'
  end.

Definition crontab_kind (cron_data : json) (k : kind) (st : Crontab)
    : outcome Crontab :=
  l ← py_get cron_data (list_key k) (JArr []);
  items ← py_iter l;
  crontab_loop k 0 items st.

(** The part of [update_crontab] that builds [cron_entries] from the
    decoded schedule file. Merging the lines into the user's crontab and
    installing them is done by the [crontab] command and is outside the
    model. *)
Definition update_crontab_entries (cron_data : json) : outcome Crontab :=
  let st := {| cron_entries := ["# TARR Annunciator scheduled announcements"];
               stdout := [] |} in
  st ← crontab_kind cron_data station st;
  st ← crontab_kind cron_data promo st;
  crontab_kind cron_data safety st.

(** The line that an entry of a document stands for. *)
Definition template_command {k} (t : AnnouncementTemplate k) : string :=
  let run := "cd " +:+ BASE_DIR +:+ " && python3 " +:+ script_path in
  match t with
  | Station train_number direction destination track_number =>
      run +:+ " --station --train '" +:+ train_number
          +:+ "' --direction '" +:+ direction
          +:+ "' --destination '" +:+ destination
          +:+ "' --track '" +:+ track_number +:+ "'" +:+ log_redirect
  | Promo file => run +:+ " --promo --file '" +:+ file +:+ "'" +:+ log_redirect
  | Safety language =>
      run +:+ " --safety --language '" +:+ language +:+ "'" +:+ log_redirect
  end.

Definition entry_line {k} (e : ScheduleEntry k) : string :=
  cron e +:+ " " +:+ template_command (template e).

(** One line for every enabled entry, in list order. *)
Definition lines_for {k} (es : list (ScheduleEntry k)) : list string :=
  entry_line <$> filter (fun e => enabled e = true) es.

Definition header : string := "# TARR Annunciator scheduled announcements".

End Install.

End DebArm.

(** ** The first version ([legacy_py/app.py]) *)

Module Legacy.

Section Pydub.

(** pydub is not part of the repository: [AudioSegment] stands for its
    audio values, [empty] for [AudioSegment.empty()], [add] for [+=]
    (taken not to raise),
    [from_mp3] for the loader, which raises for a file it cannot read,
    and [play] for [pydub.playback.play], which raises when no player
    can be run. *)
Variable AudioSegment : Type.
Variable empty : AudioSegment.
Variable add : AudioSegment -> AudioSegment -> AudioSegment.
Variable from_mp3 : string -> outcome AudioSegment.
Variable play : AudioSegment -> outcome unit.

Definition MP3_PATHS : list (string * string) :=
  [ ("train", "static/mp3/train/");
    ("direction", "static/mp3/direction/");
    ("destination", "static/mp3/destination/");
    ("track", "static/mp3/track/");
    ("promo", "static/mp3/promo/") ].

Inductive line :=
| LErrorLoading (mp3_file : string) (e : exn).

(** The loop that builds [combined_audio]. *)
Fixpoint combine (combined : AudioSegment) (out : list line) (mp3_files : list string)
    : AudioSegment * list line :=
  match mp3_files with
  | [] => (combined, out)
  | mp3_file :: rest =>
      match from_mp3 mp3_file with
      | Return audio => combine (add combined audio) out rest
      | Raise e => combine combined (out ++ [LErrorLoading mp3_file e]) rest
      end
  end.

(** What the function does before it returns or raises: lines
    printed and calls of [play]. *)
Inductive effect :=
| Printed (l : line)
| PlayCalled (audio : AudioSegment).

(** [play_station_announcement]: its effects in order, and how it ends.
    The loop has a [try] around the loader; the call of [play] after
    the loop has none, so what [play] raises leaves the function. *)
Definition play_station_announcement
    (train_number direction destination track_number : json)
    : list effect * outcome unit :=
  let chime_file := "static/mp3/chime.mp3" in
  match (d_train ← table_get MP3_PATHS "train";
         d_direction ← table_get MP3_PATHS "direction";
         d_destination ← table_get MP3_PATHS "destination";
         d_track ← table_get MP3_PATHS "track";
         Return [ chime_file;
                  path_join d_train (py_str train_number +:+ ".mp3");
                  path_join d_direction (py_str direction +:+ ".mp3");
                  path_join d_destination (py_str destination +:+ ".mp3");
                  path_join d_track (py_str track_number +:+ ".mp3") ]) with
  | Return mp3_files =>
      let '(combined_audio, out) := combine empty [] mp3_files in
      ((Printed <$> out) ++ [PlayCalled combined_audio], play combined_audio)
  | Raise e => ([], Raise e)
  end.

(** The clips that load, in list order. *)
Fixpoint loaded (mp3_files : list string) : list AudioSegment :=
  match mp3_files with
  | [] => []
  | f :: rest => match from_mp3 f with
                 | Return a => a :: loaded rest
                 | Raise _ => loaded rest
                 end
  end.

End Pydub.

End Legacy.

(** ** The field grammar as section 4.1 of the specification words it *)

Module Spec41.

Inductive result :=
| Valid
| FieldCountError
| FieldSyntaxError (f : ValidateCron.field_name).

(** One element of a comma list: a step [base/step] ([base] an integer of
    the domain or [*], [step] a positive integer), else a range
    [start-end] with [start <= end] inside the domain, else the wildcard
    or a literal integer of the domain. *)
Definition item_ok (min_val max_val : Z) (v : string) : bool :=
  if contains "/" v then
    match split_on "/" v with
    | [base; step] =>
        match (if String.eqb base "*" then Return min_val else int base), int step with
        | Return b, Return s => (min_val <=? b) && (b <=? max_val) && (0 <? s)
        | _, _ => false
        end
    | _ => false
    end
  else if contains "-" v then
    match split_on "-" v with
    | [start; end_] =>
        match int start, int end_ with
        | Return a, Return b => (min_val <=? a) && (a <=? b) && (b <=? max_val)
        | _, _ => false
        end
    | _ => false
    end
  else if String.eqb v "*" then true
  else
    match int v with
    | Return n => (min_val <=? n) && (n <=? max_val)
    | Raise _ => false
    end.

(** Comma list first: split, and every element must be valid. *)
Definition field_ok (min_val max_val : Z) (value : string) : bool :=
  forallb (item_ok min_val max_val) (split_on "," value).

Definition validate (expr : string) : result :=
  match split_ws expr with
  | [mi; ho; da; mo; dw] =>
      if negb (field_ok 0 59 mi) then FieldSyntaxError ValidateCron.minute
      else if negb (field_ok 0 23 ho) then FieldSyntaxError ValidateCron.hour
      else if negb (field_ok 1 31 da) then FieldSyntaxError ValidateCron.day
      else if negb (field_ok 1 12 mo) then FieldSyntaxError ValidateCron.month
      else if negb (field_ok 0 7 dw) then FieldSyntaxError ValidateCron.day_of_week
      else Valid
  | _ => FieldCountError
  end.

End Spec41.

(** ** A concrete scheduler library for running the handlers

    The handlers take the trigger constructor as a parameter. To
    evaluate them on concrete requests the parameter is filled with the
    constructor below, which accepts a field when the repository's own
    field checker ([ValidateCron.validate_field]) accepts it. Nothing
    about APScheduler is derived from it. *)

Module Reference.

Definition Trigger : Type :=
  string * string * option string * option string * option string.

Definition field_ok (v : option string) (min_val max_val : Z) : outcome bool :=
  ValidateCron.validate_field (default "*" v) min_val max_val.

Definition CronTrigger (minute hour : string) (day month day_of_week : option string)
    : outcome Trigger :=
  ok_mi ← field_ok (Some minute) 0 59;
  ok_ho ← field_ok (Some hour) 0 23;
  ok_da ← field_ok day 1 31;
  ok_mo ← field_ok month 1 12;
  ok_dw ← field_ok day_of_week 0 7;
  if ok_mi && ok_ho && ok_da && ok_mo && ok_dw
  then Return (minute, hour, day, month, day_of_week)
  else Raise ValueError.

(** Every job is due at every tick. *)
Definition fires (t : Trigger) (now : unit) : bool := true.

(** A world with an empty disk and an idle scheduler. *)
Definition initial : Win64.World Trigger :=
  {| Win64.files := ∅; Win64.disk_state := Writable; Win64.jobs := [];
     Win64.current_announcement := None; Win64.trace := [] |}.

(** The station entry of scenario A of the specification. *)
Definition entry_A (cron_text : string) (on : bool) : ScheduleEntry station :=
  {| cron := cron_text; enabled := on;
     template := Station "1" "westbound" "goodwin_station" "1" |}.

Definition promo_entry (cron_text : string) : ScheduleEntry promo :=
  {| cron := cron_text; enabled := true; template := Promo "promo_english.mp3" |}.

(** Scenario C: an entry with minute 99 next to a valid promo entry. *)
Definition scenario_C : ScheduleDocument :=
  {| station_announcements := [entry_A "99 8 * * *" true];
     promo_announcements := [promo_entry "*/15 * * * *"];
     safety_announcements := [] |}.

(** The same, with a cron text of four fields in place of minute 99. *)
Definition four_fields : ScheduleDocument :=
  {| station_announcements := [entry_A "0 8 * *" true];
     promo_announcements := [promo_entry "*/15 * * * *"];
     safety_announcements := [] |}.

(** Scenario B: the entry of scenario A, disabled. *)
Definition scenario_B : ScheduleDocument :=
  {| station_announcements := [entry_A "0 8 * * 1-5" false];
     promo_announcements := [];
     safety_announcements := [] |}.

(** A world whose schedule file holds [d]. *)
Definition holding (d : ScheduleDocument) (state : disk) : Win64.World Trigger :=
  {| Win64.files := {[ Win64.cron_path := Json (document_json d) ]};
     Win64.disk_state := state; Win64.jobs := [];
     Win64.current_announcement := None; Win64.trace := [] |}.

(** The request of [api_test.py] for a station announcement. *)
Definition station_request : json :=
  JObj [ ("train_number", JStr "1"); ("direction", JStr "westbound");
         ("destination", JStr "goodwin_station"); ("track_number", JStr "1") ].

Definition station_form : list (string * string) :=
  [ ("train_number", "1"); ("direction", "westbound");
    ("destination", "goodwin_station"); ("track_number", "1") ].

(** The five clips of that announcement. *)
Definition station_clips : list string :=
  [ "static/mp3/chime.mp3"; "static/mp3/train/1.mp3";
    "static/mp3/direction/westbound.mp3";
    "static/mp3/destination/goodwin_station.mp3"; "static/mp3/track/1.mp3" ].

(** A disk on which the third of these clips is missing. *)
Definition third_missing : Win64.World Trigger :=
  {| Win64.files := {[ "static/mp3/chime.mp3" := Audio;
                       "static/mp3/train/1.mp3" := Audio;
                       "static/mp3/destination/goodwin_station.mp3" := Audio;
                       "static/mp3/track/1.mp3" := Audio ]};
     Win64.disk_state := Writable; Win64.jobs := [];
     Win64.current_announcement := None; Win64.trace := [] |}.

End Reference.

(** ** Further parts of the Windows variant *)

Module Win64More.
Import Win64.

Section WithLibrary.

Variable Trigger : Type.
Variable CronTrigger :
  string -> string -> option string -> option string -> option string ->
  outcome Trigger.

#[local] Existing Instance M_ret.
#[local] Existing Instance M_bind.

(** [API_KEY] and [API_ENABLED]. *)
Definition API_KEY : string := "tarr-api-2025".
Definition API_ENABLED : bool := true.

(** What the decorator [api_key_required] answers in place of the
    handler. *)
Inductive refusal :=
| ApiDisabled          (* {'error': 'API is disabled'}, 503 *)
| KeyRequired          (* {'error': 'API key required. ...'}, 401 *)
| InvalidKey.          (* {'error': 'Invalid API key'}, 401 *)

Inductive guarded (A : Type) :=
| Passed (a : A)
| Refused (why : refusal) (status : nat).
Arguments Passed {A} a.
Arguments Refused {A} why status.

(** [a or b] on two values that are a string or [None]. *)
Definition or_else (a b : option string) : option string :=
  match a with
  | Some (String _ _) => a
  | _ => b
  end.

(** The wrapper that [api_key_required] puts around a handler [f].
    [header], [query] and [form] are what
    [request.headers.get('X-API-Key')], [request.args.get('api_key')] and
    [request.form.get('api_key')] return. *)
Definition api_key_required {A} (f : M Trigger A)
    (header query form : option string) : M Trigger (guarded A) :=
  if negb API_ENABLED then mret (Refused ApiDisabled 503)
  else
    let api_key := or_else (or_else header query) form in
    match api_key with
    | Some (String c s) =>
        if negb (String.eqb (String c s) API_KEY)
        then mret (Refused InvalidKey 401)
        else a ← f; mret (Passed a)
    | _ => mret (Refused KeyRequired 401)
    end.

(** The first of the three candidates that is a non-empty string. *)
Definition first_given (header query form : option string) : option string :=
  List.find (fun s => negb (String.eqb s ""))
    (omap id [header; query; form]).

(** The arguments that [cli_args] returns. *)
Record Args := {
  arg_station : bool;
  arg_train : option string;
  arg_direction : option string;
  arg_destination : option string;
  arg_track : option string;
  arg_promo : bool;
  arg_file : option string;
  arg_safety : bool;
  arg_language : option string;
  arg_test_audio : bool }.

(** Truth value of an argument that is a string or [None]. *)
Definition given (a : option string) : bool :=
  match a with
  | Some (String _ _) => true
  | _ => false
  end.

Definition arg_json (a : option string) : json :=
  match a with
  | Some s => JStr s
  | None => JNull
  end.

Inductive cli_line :=
| CliStationRequires   (* "Station announcement requires --train, ..." *)
| CliPromoRequires     (* "Promo announcement requires --file" *)
| CliSafetyRequires.   (* "Safety announcement requires --language" *)

(** [handle_cli], with the parsed arguments as input. [test_audio_system]
    (the pygame test) and [serve] (starting the scheduler and the web
    server) are taken as given; the lines the function prints itself
    are returned. *)
Definition handle_cli (test_audio_system serve : M Trigger unit) (args : Args)
    : M Trigger (list cli_line) :=
  if arg_test_audio args then test_audio_system;; mret []
  else if arg_station args then
    if given (arg_train args) && given (arg_direction args)
       && given (arg_destination args) && given (arg_track args)
    then
      play_station_announcement Trigger (arg_json (arg_train args))
        (arg_json (arg_direction args)) (arg_json (arg_destination args))
        (arg_json (arg_track args));;
      mret []
    else mret [CliStationRequires]
  else if arg_promo args then
    if given (arg_file args)
    then play_promo Trigger (arg_json (arg_file args));; mret []
    else mret [CliPromoRequires]
  else if arg_safety args then
    if given (arg_language args)
    then play_safety Trigger (arg_json (arg_language args));; mret []
    else mret [CliSafetyRequires]
  else serve;; mret [].

(** *** The API handlers for promos and safety announcements *)

(** [a == b] on decoded JSON values: [True] and [False] are equal to 1
    and 0, lists are compared element by element, dicts by their keys
    and the values under them. *)
Fixpoint py_eq (a b : json) : bool :=
  match a, b with
  | JNull, JNull => true
  | JBool x, JBool y => Bool.eqb x y
  | JBool x, JNum n => (if x then 1 else 0) =? n
  | JNum n, JBool x => n =? (if x then 1 else 0)
  | JNum m, JNum n => m =? n
  | JStr s, JStr t => String.eqb s t
  | JArr l1, JArr l2 =>
      (fix all_eq (l1 l2 : list json) : bool :=
         match l1, l2 with
         | [], [] => true
         | x :: l1', y :: l2' => py_eq x y && all_eq l1' l2'
         | _, _ => false
         end) l1 l2
  | JObj kv1, JObj kv2 =>
      Nat.eqb (length kv1) (length kv2)
      && (fix all_in (kv : list (string * json)) : bool :=
            match kv with
            | [] => true
            | (k, v) :: kv' =>
                match dict_get k kv2 with
                | Some v' => py_eq v v'
                | None => false
                end && all_in kv'
            end) kv1
  | _, _ => false
  end.

(** [[item.get('id') for item in items]]. *)
Fixpoint ids_of (items : list json) : outcome (list json) :=
  match items with
  | [] => Return []
  | item :: rest =>
      id ← py_get item "id" JNull;
      ids ← ids_of rest;
      Return (id :: ids)
  end.

(** The strings that [', '.join(l)] puts together; an element that is
    not a string makes it raise. *)
Fixpoint str_items (l : list json) : outcome (list string) :=
  match l with
  | [] => Return []
  | JStr s :: rest => names ← str_items rest; Return (s :: names)
  | _ :: _ => Raise TypeError
  end.

(** What these two handlers return: an answer of the kinds of
    [response], or the refusal of a value that is not configured. *)
Inductive announce_response :=
| Answer (r : response)
| NotAvailable (k : kind) (value : json) (available : list string).
    (* {'error': f"Invalid promo file '{value}'. Available: {...}"}, 400 *)

(** The body of [api_promo_announcement]; [data] is
    [request.get_json() or request.form.to_dict()]. *)
Definition api_promo_announcement (data : json) : M Trigger announce_response :=
  let required_fields := ["file"] in
  '(valid, missing) ← lift Trigger (validate_announcement_params data required_fields);
  if negb valid then mret (Answer (RError (ErrMissingFields missing) 400))
  else
    promos ← load_json Trigger "promo";
    items ← lift Trigger (py_iter promos);
    available_promos ← lift Trigger (ids_of items);
    file ← lift Trigger (py_getitem data "file");
    if negb (existsb (py_eq file) available_promos) then
      names ← lift Trigger (str_items available_promos);
      mret (NotAvailable promo file names)
    else
      try_except Trigger
        (play_promo Trigger file;;
         mret (Answer (RTriggered promo [file])))
        (fun e => mret (Answer (RError (ErrPlayFailed e) 500))).

(** The body of [api_safety_announcement]. *)
Definition api_safety_announcement (data : json) : M Trigger announce_response :=
  let required_fields := ["language"] in
  '(valid, missing) ← lift Trigger (validate_announcement_params data required_fields);
  if negb valid then mret (Answer (RError (ErrMissingFields missing) 400))
  else
    languages ← load_json Trigger "safety";
    items ← lift Trigger (py_iter languages);
    available_languages ← lift Trigger (ids_of items);
    language ← lift Trigger (py_getitem data "language");
    if negb (existsb (py_eq language) available_languages) then
      names ← lift Trigger (str_items available_languages);
      mret (NotAvailable safety language names)
    else
      try_except Trigger
        (play_safety Trigger language;;
         mret (Answer (RTriggered safety [language])))
        (fun e => mret (Answer (RError (ErrPlayFailed e) 500))).

(** *** What any stored JSON registers *)

(** The job that the loop body registers for [item], if it registers
    one: the item is an object, its "enabled" member is true, its
    "cron" member is a string of five fields that the constructor
    accepts, and the members named by [arg_keys] are there. *)
Definition item_job (k : kind) (i : nat) (item : json) : option (Job Trigger) :=
  match item with
  | JObj kv =>
      if truthy (default JNull (dict_get "enabled" kv)) then
        match dict_get "cron" kv with
        | Some (JStr c) =>
            match trigger_of Trigger CronTrigger c, getitems item (arg_keys k) with
            | Some t, Return args =>
                Some {| job_id := make_id k i; job_name := make_name k i;
                        job_func := k; job_trigger := t; job_args := args |}
            | _, _ => None
            end
        | _ => None
        end
      else None
  | _ => None
  end.

Fixpoint item_jobs (k : kind) (i : nat) (items : list json) : list (Job Trigger) :=
  match items with
  | [] => []
  | item :: rest => option_list (item_job k i item) ++ item_jobs k (S i) rest
  end.

(** The items of a category in a decoded file: the list under the
    category's key, nothing when the file is not an object or the
    member cannot be iterated. *)
Definition kind_items (cron_data : json) (k : kind) : list json :=
  match py_get cron_data (list_key k) (JArr []) with
  | Return l => match py_iter l with
                | Return items => items
                | Raise _ => []
                end
  | Raise _ => []
  end.

End WithLibrary.

Arguments Passed {A} a.
Arguments Refused {A} why status.

End Win64More.

(** ** The marker of the current announcement *)

Module Marker.
Import Win64 Win64More.

Section WithLibrary.

Variable Trigger : Type.
Variable CronTrigger :
  string -> string -> option string -> option string -> option string ->
  outcome Trigger.

#[local] Existing Instance M_ret.
#[local] Existing Instance M_bind.

(** The ways into the running application that play an announcement or
    change the schedule: the three forms of the web page, the API
    handlers (behind the key check), and the scheduler calling the
    callback of a job. *)
Inductive path :=
| WebStation (form : list (string * string))   (* POST /play_announcement *)
| WebPromo (form : list (string * string))     (* POST /play_promo *)
| WebSafety (form : list (string * string))    (* POST /play_safety_announcement *)
| ApiStation (data : json)                     (* POST /api/announce/station *)
| ApiPromo (data : json)                       (* POST /api/announce/promo *)
| ApiSafety (data : json)                      (* POST /api/announce/safety *)
| ApiSchedule (m : method) (data : json)       (* /api/schedule *)
| Fired (j : Job Trigger).                     (* a job of the scheduler is due *)

(** What is run on a path; the answer is left out. *)
Definition take (p : path) : M Trigger unit :=
  match p with
  | WebStation form => play_announcement_route Trigger form;; mret tt
  | WebPromo form => play_promo_route Trigger form;; mret tt
  | WebSafety form => play_safety_route Trigger form;; mret tt
  | ApiStation data => api_station_announcement Trigger data;; mret tt
  | ApiPromo data => api_promo_announcement Trigger data;; mret tt
  | ApiSafety data => api_safety_announcement Trigger data;; mret tt
  | ApiSchedule m data => api_schedule Trigger CronTrigger m data;; mret tt
  | Fired j => run_job Trigger j
  end.

(** The world after the paths [ps] were taken one after the other. An
    exception ends the request or the job it is raised in; what was done
    before it stays done. *)
Definition after (ps : list path) (w : World Trigger) : World Trigger :=
  fold_left (fun w p => (take p w).2) ps w.

(** The value of the global [current_announcement] after the steps
    [evs], when it was [m] before them. *)
Fixpoint marker_after (m : option json) (evs : list event) : option json :=
  match evs with
  | [] => m
  | AssignCurrentAnnouncement v :: evs' => marker_after v evs'
  | _ :: evs' => marker_after m evs'
  end.

Definition no_marker (m : option json) : bool :=
  match m with
  | None => true
  | Some _ => false
  end.

(** Whenever a thread that plays a clip or a sequence of clips is
    started in [evs], the marker is empty at that step. *)
Fixpoint starts_with_empty_marker (m : option json) (evs : list event) : bool :=
  match evs with
  | [] => true
  | AssignCurrentAnnouncement v :: evs' => starts_with_empty_marker v evs'
  | StartThread _ :: evs' => no_marker m && starts_with_empty_marker m evs'
  | _ :: evs' => starts_with_empty_marker m evs'
  end.

(** The threads started in [evs]. *)
Definition started (evs : list event) : list task :=
  omap (fun ev => match ev with StartThread t => Some t | _ => None end) evs.

(** [c] adds steps to the trace and does nothing else to the trace;
    every assignment to the marker among them assigns [None]; and the
    global holds what these assignments leave in it. *)
Definition only_clears {A} (c : M Trigger A) : Prop :=
  forall w, exists evs,
    trace (c w).2 = trace w ++ evs
    /\ Forall (fun ev => forall v, ev = AssignCurrentAnnouncement v -> v = None) evs
    /\ current_announcement (c w).2 = marker_after (current_announcement w) evs.

End WithLibrary.

End Marker.

(** ** Further parts of the Raspberry Pi variant *)

Module DebArmMore.

(** [s.startswith(p)]. *)
Definition startswith (s p : string) : bool := prefix_of p s.

(** The two variables of the loop of [update_crontab] that goes through
    the lines of the crontab in place. *)
Record Filter := {
  skip_next : bool;
  filtered_lines : list string }.

(** The body of that loop for [line]. *)
Definition filter_line (st : Filter) (line : string) : Filter :=
  if substring_of "# TARR Annunciator" line then
    {| skip_next := true; filtered_lines := filtered_lines st |}
  else if skip_next st && (String.eqb (strip line) "" || startswith line "#")
  then st
  else
    let skip_next' :=
      if skip_next st && negb (startswith (strip line) "#") then false
      else skip_next st in
    if negb skip_next' && negb (substring_of "tarr-announcer.log" line)
    then {| skip_next := skip_next';
            filtered_lines := filtered_lines st ++ [line] |}
    else {| skip_next := skip_next'; filtered_lines := filtered_lines st |}.

(** The loop, from [skip_next = False] and [filtered_lines = []]. *)
Definition filter_crontab (lines : list string) : list string :=
  filtered_lines
    (fold_left filter_line lines {| skip_next := false; filtered_lines := [] |}).

Definition nl : ascii := "010".
Definition cr : ascii := "013".

(** What [text=True] makes of the output of a command: "\r\n" and a
    "\r" alone are read as "\n". [after_cr] tells that the character
    before was a "\r". *)
Fixpoint translate_newlines_go (after_cr : bool) (s : string) : string :=
  match s with
  | EmptyString => ""
  | String a s' =>
      if ascii_eqb a cr then String nl (translate_newlines_go true s')
      else if after_cr && ascii_eqb a nl then translate_newlines_go false s'
      else String a (translate_newlines_go false s')
  end.
Definition translate_newlines (s : string) : string :=
  translate_newlines_go false s.

(** [result.stdout.strip().split('\n')]. *)
Definition lines_of (stdout : string) : list string :=
  split_on nl (strip stdout).

(** The dictionary that [get_cron_status] returns. *)
Record CronStatus := {
  active : bool;
  error : option exn;
  jobs : list string;
  count : nat }.

(** The list [tarr_jobs] that [get_cron_status] collects from the lines
    of the crontab. *)
Definition tarr_jobs (lines : list string) : list string :=
  strip <$> filter (fun line => substring_of "tarr-announcer.log" line
                                && negb (startswith (strip line) "#")) lines.

(** [get_cron_status]; [result] is what [subprocess.run(['crontab',
    '-l'], ...)] gives: the return code and the text of the standard
    output, or an exception. *)
Definition get_cron_status (result : outcome (Z * string)) : CronStatus :=
  match result with
  | Return (returncode, stdout) =>
      if returncode =? 0 then
        let tarr_jobs := tarr_jobs (lines_of stdout) in
        {| active := true; error := None; jobs := tarr_jobs;
           count := length tarr_jobs |}
      else {| active := false; error := None; jobs := []; count := 0 |}
  | Raise e => {| active := false; error := Some e; jobs := []; count := 0 |}
  end.

(** *** The crontab as text *)

(** What [update_crontab] writes to the temporary file: the lines kept
    from the old table, if they are not all blank, and the lines it
    built. *)
Definition crontab_text (filtered_lines cron_entries : list string) : string :=
  let existing_cron := join (String nl "") filtered_lines in
  (if String.eqb (strip existing_cron) "" then ""
   else existing_cron +:+ String nl "")
  +:+ join (String nl "") cron_entries +:+ String nl "".

(** The machine: the files of the application, how the next write of
    the schedule file goes, the crontab of the user ([None] when the
    user has none), and whether the [crontab] command can be run. *)
Record Host := {
  files : gmap string file;
  disk_state : disk;
  crontab : option string;
  crontab_runs : bool }.

Definition with_files (fs : gmap string file) (h : Host) : Host :=
  {| files := fs; disk_state := disk_state h; crontab := crontab h;
     crontab_runs := crontab_runs h |}.
Definition with_crontab (t : option string) (h : Host) : Host :=
  {| files := files h; disk_state := disk_state h; crontab := t;
     crontab_runs := crontab_runs h |}.

(** [subprocess.run(['crontab', '-l'], capture_output=True, text=True)]:
    the return code and the standard output. The command is taken to
    print the table as it was installed; without a table it fails. The
    output is read as text, with its line ends translated. When the
    command cannot be run, [subprocess.run] raises. *)
Definition crontab_l (h : Host) : outcome (Z * string) :=
  if crontab_runs h then
    match crontab h with
    | Some table => Return (0, translate_newlines table)
    | None => Return (1, "")
    end
  else Raise OSError.

Section Install.

Variable BASE_DIR : string.
Variable script_path : string.

(** Whether [crontab <file>] installs a table with this text; the
    command checks the lines and fails on one it cannot read. *)
Variable accepts : string -> bool.

(** [save_json('cron', data)]. *)
Definition save_json (name : string) (data : json) (h : Host)
    : outcome unit * Host :=
  match table_get JSON_FILES name with
  | Raise e => (Raise e, h)
  | Return path =>
      match disk_state h with
      | Writable => (Return tt, with_files (<[path := Json data]> (files h)) h)
      | OpenFails => (Raise OSError, h)
      | DumpFails => (Raise OSError, with_files (<[path := Torn data]> (files h)) h)
      end
  end.

(** The second half of [update_crontab], inside its [try]: read the old
    table, keep the lines that are not the application's, write the
    temporary file and hand it to [crontab]. A failure of either command
    is printed and changes nothing; [/tmp] is taken to be writable. *)
Definition install (cron_entries : list string) (h : Host) : Host :=
  match crontab_l h with
  | Raise _ => h
  | Return (returncode, stdout) =>
      let filtered_lines :=
        if returncode =? 0 then filter_crontab (lines_of stdout) else [] in
      let text := crontab_text filtered_lines cron_entries in
      if accepts text then with_crontab (Some text) h else h
  end.

(** [update_crontab]; what it prints is left out. *)
Definition update_crontab (h : Host) : outcome unit * Host :=
  match table_get JSON_FILES "cron" with
  | Raise e => (Raise e, h)
  | Return cron_file =>
      match files h !! cron_file with
      | None => (Return tt, h)
      | Some f =>
          match json_load f with
          | Raise e => (Raise e, h)
          | Return cron_data =>
              match DebArm.update_crontab_entries BASE_DIR script_path cron_data with
              | Raise e => (Raise e, h)
              | Return ct => (Return tt, install (DebArm.cron_entries ct) h)
              end
          end
      end
  end.

(** The POST branch of [api_schedule]; [data] is [request.get_json()],
    with [JNull] for [None]. *)
Definition api_schedule_post (data : json) (h : Host)
    : outcome Win64.response * Host :=
  let absent :=
    if negb (truthy data) then Return true
    else (present ← py_in "schedule" data; Return (negb present)) in
  match absent with
  | Raise e => (Raise e, h)
  | Return true => (Return (Win64.RError Win64.ErrScheduleRequired 400), h)
  | Return false =>
      match py_getitem data "schedule" with
      | Raise e => (Return (Win64.RError (Win64.ErrUpdateFailed e) 500), h)
      | Return schedule =>
          match save_json "cron" schedule h with
          | (Raise e, h1) => (Return (Win64.RError (Win64.ErrUpdateFailed e) 500), h1)
          | (Return _, h1) =>
              match update_crontab h1 with
              | (Raise e, h2) =>
                  (Return (Win64.RError (Win64.ErrUpdateFailed e) 500), h2)
              | (Return _, h2) =>
                  let cron_status := get_cron_status (crontab_l h2) in
                  (Return (Win64.RUpdated (count cron_status)), h2)
              end
          end
      end
  end.

(** The lines that [update_crontab] builds for a document, after the
    header: one for every enabled entry. *)
Definition built (d : ScheduleDocument) : list string :=
  DebArm.lines_for BASE_DIR script_path (entries d station)
  ++ DebArm.lines_for BASE_DIR script_path (entries d promo)
  ++ DebArm.lines_for BASE_DIR script_path (entries d safety).

End Install.

(** The lines of the old table that an update keeps. *)
Definition kept (h : Host) : list string :=
  match crontab h with
  | Some table => filter_crontab (lines_of (translate_newlines table))
  | None => []
  end.

(** [l] has no line end in it: neither a line feed nor a carriage
    return, which the reading of the table turns into a line feed. *)
Definition one_line (l : string) : bool :=
  negb (contains nl l) && negb (contains cr l).

End DebArmMore.

(** ** Further parts of the first version ([legacy_py/app.py]) *)

Module LegacyMore.
Import Legacy.

Section Pydub.

(** As in [Legacy], pydub is taken as given: [from_mp3] for the loader
    and [play] for the playback, both of which may raise. *)
Variable AudioSegment : Type.
Variable from_mp3 : string -> outcome AudioSegment.
Variable play : AudioSegment -> outcome unit.

(** The whole table [MP3_PATHS]: the five directories and the four
    safety clips. *)
Definition MP3_PATHS : list (string * string) :=
  Legacy.MP3_PATHS
  ++ [ ("english", "static/mp3/safety/safety_english2.mp3");
       ("spanish", "static/mp3/safety/safety_spanish.mp3");
       ("portuguese", "static/mp3/safety/safety_portuguese.mp3");
       ("russian", "static/mp3/safety/safety_russian.mp3") ].

Inductive line :=
| LErrorPlaying (file : string) (e : exn).
    (* "Error playing audio file {file}: {e}" *)

(** What a request does besides answering: calls of [play] and lines
    printed. *)
Inductive event :=
| Play (audio : AudioSegment)
| Print (l : line).

(** [play_audio]: any exception of the loader or of the playback is
    printed and swallowed. *)
Definition play_audio (file : string) : list event :=
  match from_mp3 file with
  | Return audio =>
      Play audio :: match play audio with
                    | Return _ => []
                    | Raise e => [Print (LErrorPlaying file e)]
                    end
  | Raise e => [Print (LErrorPlaying file e)]
  end.

Inductive response :=
| SafetyPlayed (language : string)
    (* f"Safety announcement in {language.capitalize()} played.", status 200 *)
| InvalidLanguage.
    (* 'Invalid language selected!', 400 *)

Definition status (r : response) : Z :=
  match r with
  | SafetyPlayed _ => 200
  | InvalidLanguage => 400
  end.

(** The route [/play_safety_announcement]; [language] is
    [request.form.get('language')] and [current] the global
    [current_announcement]. The result is the answer, the new value of
    the global and the events. *)
Definition play_safety_announcement (language : option string)
    (current : option json) : response * option json * list event :=
  let current := @None json in          (* stop_safety_announcement() *)
  match language with
  | Some l =>
      match dict_get l MP3_PATHS with
      | Some safety_file => (SafetyPlayed l, current, play_audio safety_file)
      | None => (InvalidLanguage, current, [])
      end
  | None => (InvalidLanguage, current, [])
  end.

(** The lines that the loop of [play_station_announcement] prints: one
    for every clip that does not load, in list order. *)
Fixpoint not_loaded (mp3_files : list string) : list Legacy.line :=
  match mp3_files with
  | [] => []
  | f :: rest => match from_mp3 f with
                 | Return _ => not_loaded rest
                 | Raise e => LErrorLoading f e :: not_loaded rest
                 end
  end.

End Pydub.

Arguments Play {AudioSegment} audio.
Arguments Print {AudioSegment} l.

End LegacyMore.

(** ** The stand-alone checker on the members of the schedule file
    ([dev/deb-arm/validate_cron.py]) *)

Module CheckCron.

(** [validate_cron_expression] on any value of the schedule file.
    [ValidateCron.validate_cron_expression] is the function on a string;
    a value of another type has no method [split], the call
    [cron_expr.split()] raises [AttributeError] inside the [try], and
    [except Exception] turns it into the message. *)
Definition validate_cron_expression (cron_expr : json)
    : bool * ValidateCron.message :=
  match cron_expr with
  | JStr s => ValidateCron.validate_cron_expression s
  | _ => (false, ValidateCron.MsgException AttributeError)
  end.

(** The value that [check_cron_file] takes from an item and passes to
    the checker: [item.get('cron', '')]. *)
Definition cron_expr_of (item : json) : outcome json :=
  py_get item "cron" (JStr "").

End CheckCron.

(** ** Further concrete scenarios *)

Module ReferenceMore.
Import Win64More.

(** The command line [--station --train 1 --direction westbound
    --destination goodwin_station --track 1]. *)
Definition station_args : Args :=
  {| arg_station := true; arg_train := Some "1";
     arg_direction := Some "westbound";
     arg_destination := Some "goodwin_station"; arg_track := Some "1";
     arg_promo := false; arg_file := None; arg_safety := false;
     arg_language := None; arg_test_audio := false |}.

(** The members of the API request for the same announcement. *)
Definition station_members : list (string * json) :=
  [ ("train_number", JStr "1"); ("direction", JStr "westbound");
    ("destination", JStr "goodwin_station"); ("track_number", JStr "1") ].

(** A registered job for the same announcement. *)
Definition station_job : Win64.Job Reference.Trigger :=
  {| Win64.job_id := Win64.make_id station 0;
     Win64.job_name := Win64.make_name station 0;
     Win64.job_func := station;
     Win64.job_trigger := ("0", "8", None, None, None);
     Win64.job_args := [JStr "1"; JStr "westbound"; JStr "goodwin_station";
                        JStr "1"] |}.

(** A world whose promo file lists one promo and whose safety file
    lists two languages. *)
Definition configured : Win64.World Reference.Trigger :=
  {| Win64.files :=
       {[ "json/promo.json" :=
            Json (JArr [ JObj [ ("id", JStr "promo_english.mp3");
                                ("name", JStr "Promo") ] ]);
          "json/safety.json" :=
            Json (JArr [ JObj [("id", JStr "english"); ("name", JStr "English")];
                         JObj [("id", JStr "spanish"); ("name", JStr "Spanish")] ]) ]};
     Win64.disk_state := Writable; Win64.jobs := [];
     Win64.current_announcement := None; Win64.trace := [] |}.

(** Announcements that come in one after the other: a station
    announcement through the API, the same from a fired job, a safety
    announcement through the API and from a fired job, and then the two
    forms of the web page. *)
Definition announcements : list (Marker.path Reference.Trigger) :=
  [ Marker.ApiStation Reference.Trigger Reference.station_request;
    Marker.Fired Reference.Trigger station_job;
    Marker.ApiSafety Reference.Trigger (JObj [("language", JStr "english")]);
    Marker.Fired Reference.Trigger
      {| Win64.job_id := Win64.make_id safety 0;
         Win64.job_name := Win64.make_name safety 0;
         Win64.job_func := safety;
         Win64.job_trigger := ("0", "9", None, None, None);
         Win64.job_args := [JStr "spanish"] |};
    Marker.WebStation Reference.Trigger Reference.station_form;
    Marker.WebSafety Reference.Trigger [("language", "english")] ].

(** A crontab with two lines of the user around a block of the
    application that is followed by a comment. *)
Definition crontab_before : list string :=
  [ "MAILTO=root";
    "# TARR Annunciator scheduled announcements";
    "# nightly jobs";
    "0 3 * * * /usr/bin/backup" ].

(** The same table as the text that [crontab -l] prints. *)
Definition table_before : string :=
  Eval vm_compute in
    join (String DebArmMore.nl "") crontab_before +:+ String DebArmMore.nl "".

(** The table that an update writes for the station entry of
    scenario A, enabled, when there was no table before. *)
Definition table_with_entry_A : string :=
  Eval vm_compute in
    DebArmMore.crontab_text []
      (DebArm.header
       :: DebArmMore.built "/opt/tarr" "/opt/tarr/app.py"
            (Win64.single_entry (Reference.entry_A "0 8 * * 1-5" true))).

(** A machine on which that table is installed, and no schedule file
    yet. *)
Definition host_with_entry_A : DebArmMore.Host :=
  {| DebArmMore.files := ∅; DebArmMore.disk_state := Writable;
     DebArmMore.crontab := Some table_with_entry_A;
     DebArmMore.crontab_runs := true |}.

(** The lines and the output of [update_crontab] for a schedule with
    one promo entry, installed under [/opt/tarr]. *)
Definition promo_block : DebArm.Crontab :=
  Eval vm_compute in
    match DebArm.update_crontab_entries "/opt/tarr" "/opt/tarr/app.py"
            (document_json (Win64.single_entry (Reference.promo_entry "*/15 * * * *")))
    with
    | Return ct => ct
    | Raise _ => {| DebArm.cron_entries := []; DebArm.stdout := [] |}
    end.

End ReferenceMore.

Module Win64Facts.
Import Win64.

Section WithLibrary.

Context {Trigger : Type}.
Variable CronTrigger :
  string -> string -> option string -> option string -> option string ->
  outcome Trigger.

#[local] Abbreviation World := (World Trigger).
#[local] Abbreviation Job := (Job Trigger).

Lemma extend_nil (w : World) : extend [] [] w = w.
Proof. destruct w; unfold extend, with_trace, with_jobs; simpl. by rewrite !app_nil_r. Qed.

Lemma extend_extend js1 ls1 js2 ls2 (w : World) :
  extend js2 ls2 (extend js1 ls1 w) = extend (js1 ++ js2) (ls1 ++ ls2) w.
Proof. destruct w; unfold extend, with_trace, with_jobs; simpl. by rewrite !app_assoc. Qed.

Lemma entry_enabled k (e : ScheduleEntry k) :
  py_get (entry_json e) "enabled" JNull = Return (JBool (enabled e)).
Proof. reflexivity. Qed.

Lemma entry_cron k (e : ScheduleEntry k) :
  py_getitem (entry_json e) "cron" = Return (JStr (cron e)).
Proof. reflexivity. Qed.

Lemma getitems_template k (e : ScheduleEntry k) :
  getitems (entry_json e) (arg_keys k) = Return (snd <$> template_members (template e)).
Proof. destruct e as [c en t]. destruct t; reflexivity. Qed.

Lemma head_arg_template k (e : ScheduleEntry k) :
  py_getitem (entry_json e) (default "" (head (arg_keys k)))
  = Return (default JNull (head (snd <$> template_members (template e)))).
Proof. destruct e as [c en t]. destruct t; reflexivity. Qed.

Lemma schedule_item_entry k i (e : ScheduleEntry k) (w : World) :
  make_id k i ∉ job_id <$> jobs w ->
  schedule_item Trigger CronTrigger k i (entry_json e) w
  = (Return tt, extend (option_list (job_of Trigger CronTrigger i e))
                       (lines_of Trigger CronTrigger i e) w).
Proof.
  intros Hfresh.
  unfold schedule_item, job_of, lines_of, trigger_of.
  unfold mbind, M_bind, lift, try_except, mret, M_ret.
  rewrite entry_enabled. cbv beta iota. unfold truthy.
  destruct (enabled e); [|by rewrite extend_nil].
  rewrite !entry_cron. cbv beta iota. unfold py_split.
  destruct (split_ws (cron e)) as [|mi [|ho [|da [|mo [|dw [|]]]]]];
    try (by rewrite extend_nil).
  destruct (CronTrigger _ _ _ _ _) as [t|ex]; cbv beta iota.
  - rewrite getitems_template, head_arg_template. cbv beta iota.
    unfold add_job. cbn [job_id].
    rewrite bool_decide_eq_false_2 by done.
    reflexivity.
  - destruct w; unfold print, emit, extend, with_trace, with_jobs; simpl.
    by rewrite app_nil_r.
Qed.

Lemma make_id_inj k k' i j : make_id k i = make_id k' j -> k = k' /\ i = j.
Proof.
  unfold make_id, id_prefix.
  destruct k, k'; cbv beta iota delta [String.append]; intros H;
    try discriminate H; split; try reflexivity;
    simplify_eq; by apply (inj pretty).
Qed.

Lemma jobs_from_ids k i (es : list (ScheduleEntry k)) (j : Job) :
  j ∈ jobs_from Trigger CronTrigger i es ->
  exists n e, (i <= n)%nat /\ es !! (n - i)%nat = Some e /\ enabled e = true
              /\ job_of Trigger CronTrigger n e = Some j /\ job_id j = make_id k n.
Proof.
  revert i. induction es as [|e es IH]; intros i; simpl.
  - by intros ?%elem_of_nil.
  - rewrite elem_of_app. intros [Hj|Hj].
    + exists i, e. rewrite Nat.sub_diag. split; [lia|]. split; [done|].
      unfold job_of in *. destruct (enabled e); [|by apply elem_of_nil in Hj].
      destruct (trigger_of _ _ _) as [t|]; simpl in Hj; [|by apply elem_of_nil in Hj].
      apply list_elem_of_singleton in Hj as ->. done.
    + destruct (IH _ Hj) as (n & e' & Hn & Hl & He).
      exists n, e'. split; [lia|]. split; [|done].
      replace (n - i)%nat with (S (n - S i)) by lia. done.
Qed.

Lemma fresh_from_app k i (js : list Job) k' i' (es : list (ScheduleEntry k')) :
  fresh_from k i js ->
  (k = k' -> forall n, (i' <= n < i' + length es)%nat -> (n < i)%nat) ->
  fresh_from k i (js ++ jobs_from Trigger CronTrigger i' es).
Proof.
  intros Hjs Hlt j Hj. rewrite fmap_app, elem_of_app. intros [Hin|Hin].
  - by apply (Hjs j).
  - apply list_elem_of_fmap in Hin as (job & Hid & Hjob).
    apply jobs_from_ids in Hjob as (n & e & Hn & Hl & _ & _ & Hidn).
    rewrite Hidn in Hid. apply make_id_inj in Hid as [-> ->].
    apply lookup_lt_Some in Hl.
    specialize (Hlt eq_refl n). lia.
Qed.

Lemma fresh_from_other k i k' i' (es : list (ScheduleEntry k')) :
  k <> k' -> fresh_from k i (jobs_from Trigger CronTrigger i' es).
Proof.
  intros Hne. apply (fresh_from_app k i [] k' i' es); [|done].
  intros j _. apply not_elem_of_nil.
Qed.

Lemma for_enumerate_entries k i (es : list (ScheduleEntry k)) (w : World) :
  fresh_from k i (jobs w) ->
  for_enumerate Trigger i (entry_json <$> es) (schedule_item Trigger CronTrigger k) w
  = (Return tt, extend (jobs_from Trigger CronTrigger i es)
                       (lines_from Trigger CronTrigger i es) w).
Proof.
  revert i w. induction es as [|e es IH]; intros i w Hfresh; simpl.
  - by rewrite extend_nil.
  - unfold mbind, M_bind. rewrite schedule_item_entry by (apply (Hfresh i); lia).
    rewrite IH.
    + by rewrite extend_extend.
    + intros j Hj. unfold extend; simpl. rewrite fmap_app, elem_of_app.
      intros [Hin|Hin]; [apply (Hfresh j); [lia|done]|].
      apply list_elem_of_fmap in Hin as (job & Hid & Hjob).
      unfold job_of in Hjob. destruct (enabled e); [|by apply elem_of_nil in Hjob].
      destruct (trigger_of _ _ _); simpl in Hjob; [|by apply elem_of_nil in Hjob].
      apply list_elem_of_singleton in Hjob as ->. simpl in Hid.
      apply make_id_inj in Hid as [_ ->]. lia.
Qed.

Lemma document_json_holds d : holds_document (document_json d) d.
Proof. intros k. destruct k; reflexivity. Qed.

Lemma schedule_kind_document cron_data d k (w : World) :
  holds_document cron_data d ->
  fresh_from k 0 (jobs w) ->
  schedule_kind Trigger CronTrigger cron_data k w
  = (Return tt, extend (jobs_from Trigger CronTrigger 0 (entries d k))
                       (lines_from Trigger CronTrigger 0 (entries d k)) w).
Proof.
  intros Hd Hfresh. unfold schedule_kind, mbind, M_bind, lift.
  rewrite Hd. cbv beta iota. unfold py_iter.
  by apply for_enumerate_entries.
Qed.

(** [update_scheduler] on a stored document: the job store is replaced
    by the jobs of the document, whatever it held before. *)
Lemma update_scheduler_document cron_data d (w : World) :
  files w !! cron_path = Some (Json cron_data) ->
  holds_document cron_data d ->
  update_scheduler Trigger CronTrigger w
  = (Return tt, with_trace (trace w ++ printed Trigger CronTrigger d)
                  (with_jobs (registered Trigger CronTrigger d) w)).
Proof.
  intros Hfile Hd. unfold update_scheduler.
  unfold mbind at 1, M_bind at 1, lift at 1.
  change (table_get JSON_FILES "cron") with (Return (A:=string) cron_path).
  cbv beta iota. unfold mbind at 1, M_bind at 1, get_world. cbv beta iota.
  rewrite Hfile. unfold mbind at 1, M_bind at 1, lift at 1, json_load.
  cbv beta iota.
  unfold mbind at 1, M_bind at 1, remove_all_jobs. cbv beta iota.
  unfold mbind at 1, M_bind at 1.
  rewrite (schedule_kind_document _ d); [|done|intros j _; simpl; apply not_elem_of_nil].
  unfold mbind at 1, M_bind at 1.
  rewrite (schedule_kind_document _ d); [|done|].
  2:{ unfold extend; simpl. by apply fresh_from_other. }
  unfold mbind at 1, M_bind at 1.
  rewrite (schedule_kind_document _ d); [|done|].
  2:{ unfold extend; simpl. apply fresh_from_app; [|done].
      by apply fresh_from_other. }
  unfold print, emit, extend, registered, printed, with_trace, with_jobs; simpl.
  by rewrite !app_assoc.
Qed.

Lemma length_jobs_from k i (es : list (ScheduleEntry k)) :
  length (jobs_from Trigger CronTrigger i es)
  = length (filter (fun e => active Trigger CronTrigger e = true) es).
Proof.
  revert i. induction es as [|e es IH]; intros i; simpl; [done|].
  rewrite length_app, IH, filter_cons. unfold job_of, active.
  destruct (enabled e); simpl; [destruct (trigger_of _ _ _); simpl|]; done.
Qed.

Lemma length_registered d :
  length (registered Trigger CronTrigger d) = count_active Trigger CronTrigger d.
Proof.
  unfold registered, count_active. rewrite !length_app, !length_jobs_from. lia.
Qed.

(** A POST of a document while the disk takes the write: the file holds
    the document, the job store holds the jobs of the document. *)
Lemma api_schedule_document d (w : World) :
  disk_state w = Writable ->
  api_schedule Trigger CronTrigger POST (schedule_request d) w
  = (Return (RUpdated (count_active Trigger CronTrigger d)),
     with_trace (trace w ++ printed Trigger CronTrigger d)
       (with_jobs (registered Trigger CronTrigger d)
          (with_files (<[cron_path := Json (document_json d)]> (files w)) w))).
Proof.
  intros Hdisk. unfold api_schedule, schedule_request.
  unfold mbind at 1, M_bind at 1, lift at 1. simpl negb. cbv beta iota.
  change (py_in "schedule" (JObj [("schedule", document_json d)]))
    with (Return (A:=bool) true).
  simpl. unfold try_except.
  unfold mbind at 1, M_bind at 1, lift at 1.
  change (py_getitem (JObj [("schedule", document_json d)]) "schedule")
    with (Return (document_json d)).
  cbv beta iota.
  unfold mbind at 1, M_bind at 1, save_json.
  unfold mbind at 1, M_bind at 1, lift at 1.
  change (table_get JSON_FILES "cron") with (Return (A:=string) cron_path).
  cbv beta iota. unfold open_and_dump. rewrite Hdisk.
  unfold mbind at 1, M_bind at 1.
  rewrite (update_scheduler_document (document_json d) d).
  - unfold mbind, M_bind, get_world, mret, M_ret. simpl.
    by rewrite length_registered.
  - simpl. apply lookup_insert_eq.
  - apply document_json_holds.
Qed.

(** A POST while the disk refuses the write. *)
Lemma api_schedule_disk_failure schedule (w : World) :
  disk_state w <> Writable ->
  api_schedule Trigger CronTrigger POST (JObj [("schedule", schedule)]) w
  = (Return (RError (ErrUpdateFailed OSError) 500),
     match disk_state w with
     | DumpFails => with_files (<[cron_path := Torn schedule]> (files w)) w
     | _ => w
     end).
Proof.
  intros Hdisk. unfold api_schedule.
  unfold mbind at 1, M_bind at 1, lift at 1. simpl negb. cbv beta iota.
  change (py_in "schedule" (JObj [("schedule", schedule)]))
    with (Return (A:=bool) true).
  simpl. unfold try_except.
  unfold mbind at 1, M_bind at 1, lift at 1.
  change (py_getitem (JObj [("schedule", schedule)]) "schedule")
    with (Return schedule).
  cbv beta iota.
  unfold mbind at 1, M_bind at 1, save_json.
  unfold mbind at 1, M_bind at 1, lift at 1.
  change (table_get JSON_FILES "cron") with (Return (A:=string) cron_path).
  cbv beta iota. unfold open_and_dump.
  destruct (disk_state w); [done|done|done].
Qed.

(** *** Which ids and which lines a document produces *)

Lemma job_of_Some k i (e : ScheduleEntry k) (j : Job) :
  job_of Trigger CronTrigger i e = Some j ->
  job_id j = make_id k i /\ enabled e = true
  /\ active Trigger CronTrigger e = true.
Proof.
  unfold job_of, active. destruct (enabled e); [|done].
  destruct (trigger_of _ _ _) as [t|]; [|done].
  simpl. intros [= <-]. done.
Qed.

Lemma active_job_of k i (e : ScheduleEntry k) :
  active Trigger CronTrigger e = true ->
  exists j, job_of Trigger CronTrigger i e = Some j /\ job_id j = make_id k i.
Proof.
  unfold job_of, active. destruct (enabled e); [|done].
  destruct (trigger_of _ _ _) as [t|]; [|done].
  simpl. eauto.
Qed.

Lemma elem_of_jobs_from k i (es : list (ScheduleEntry k)) (j : Job) :
  j ∈ jobs_from Trigger CronTrigger i es
  <-> exists m e, es !! m = Some e /\ job_of Trigger CronTrigger (i + m) e = Some j.
Proof.
  revert i. induction es as [|e es IH]; intros i; simpl.
  - split; [by intros ?%elem_of_nil|]. by intros (m & e & ? & _).
  - rewrite elem_of_app, IH. split.
    + intros [Hj|(m & e' & Hm & Hj)].
      * exists 0%nat, e. rewrite Nat.add_0_r. split; [done|].
        destruct (job_of _ _ _ _) as [j'|]; simpl in Hj;
          [by apply list_elem_of_singleton in Hj as ->|by apply elem_of_nil in Hj].
      * exists (S m), e'. split; [done|]. by rewrite Nat.add_succ_r.
    + intros ([|m] & e' & Hm & Hj); simpl in Hm.
      * left. injection Hm as ->. rewrite Nat.add_0_r in Hj. rewrite Hj.
        apply list_elem_of_singleton. done.
      * right. exists m, e'. split; [done|]. by rewrite Nat.add_succ_r in Hj.
Qed.

Lemma elem_of_lines_from k i (es : list (ScheduleEntry k)) (ev : event) :
  ev ∈ lines_from Trigger CronTrigger i es
  <-> exists m e, es !! m = Some e /\ ev ∈ lines_of Trigger CronTrigger (i + m) e.
Proof.
  revert i. induction es as [|e es IH]; intros i; simpl.
  - split; [by intros ?%elem_of_nil|]. by intros (m & e & ? & _).
  - rewrite elem_of_app, IH. split.
    + intros [Hj|(m & e' & Hm & Hj)].
      * exists 0%nat, e. by rewrite Nat.add_0_r.
      * exists (S m), e'. split; [done|]. by rewrite Nat.add_succ_r.
    + intros ([|m] & e' & Hm & Hj); simpl in Hm.
      * left. injection Hm as ->. by rewrite Nat.add_0_r in Hj.
      * right. exists m, e'. split; [done|]. by rewrite Nat.add_succ_r in Hj.
Qed.

(** An id is in the job store of a document exactly when the entry at
    that position of that category is active. *)
Lemma registered_id d k i :
  make_id k i ∈ job_id <$> registered Trigger CronTrigger d
  <-> exists e, entries d k !! i = Some e /\ active Trigger CronTrigger e = true.
Proof.
  split.
  - intros (j & Hid & Hj)%list_elem_of_fmap.
    assert (forall k', j ∈ jobs_from Trigger CronTrigger 0 (entries d k') ->
              exists e, entries d k !! i = Some e
                        /\ active Trigger CronTrigger e = true) as Hone.
    { intros k' (m & e & Hm & Hjob)%elem_of_jobs_from.
      apply job_of_Some in Hjob as (Hid' & _ & Hact).
      rewrite Hid' in Hid. apply make_id_inj in Hid as [-> ->].
      exists e. done. }
    unfold registered in Hj. rewrite !elem_of_app in Hj.
    destruct Hj as [Hj|[Hj|Hj]]; eauto.
  - intros (e & He & Hact).
    destruct (active_job_of k i e Hact) as (j & Hj & Hid).
    apply list_elem_of_fmap. exists j. split; [done|].
    assert (j ∈ jobs_from Trigger CronTrigger 0 (entries d k)) as Hin.
    { apply elem_of_jobs_from. exists i, e. done. }
    unfold registered. rewrite !elem_of_app.
    destruct k; auto.
Qed.

Lemma lines_of_error k i (e : ScheduleEntry k) k' i' ex :
  Print (LErrorScheduling k' i' ex) ∈ lines_of Trigger CronTrigger i e ->
  k' = k /\ i' = i.
Proof.
  unfold lines_of. destruct (enabled e); [|by intros ?%elem_of_nil].
  destruct (split_ws (cron e)) as [|mi [|ho [|da [|mo [|dw [|]]]]]];
    try (by intros ?%elem_of_nil).
  destruct (CronTrigger _ _ _ _ _); intros Hin%list_elem_of_singleton;
    by simplify_eq.
Qed.

(** An error line for position [i] of category [k] is printed exactly
    when the entry at that position produces it. *)
Lemma printed_error d k i ex :
  Print (LErrorScheduling k i ex) ∈ printed Trigger CronTrigger d
  <-> exists e, entries d k !! i = Some e
                /\ Print (LErrorScheduling k i ex) ∈ lines_of Trigger CronTrigger i e.
Proof.
  split.
  - intros Hin.
    assert (forall k', Print (LErrorScheduling k i ex)
                         ∈ lines_from Trigger CronTrigger 0 (entries d k') ->
              exists e, entries d k !! i = Some e
                        /\ Print (LErrorScheduling k i ex)
                             ∈ lines_of Trigger CronTrigger i e) as Hone.
    { intros k' (m & e & Hm & Hev)%elem_of_lines_from.
      destruct (lines_of_error _ _ _ _ _ _ Hev) as [-> ->].
      exists e. done. }
    unfold printed in Hin. rewrite !elem_of_app in Hin.
    destruct Hin as [Hin|[Hin|[Hin|Hin]]]; eauto.
    by apply list_elem_of_singleton in Hin.
  - intros (e & He & Hev).
    assert (Print (LErrorScheduling k i ex)
              ∈ lines_from Trigger CronTrigger 0 (entries d k)) as Hin.
    { apply elem_of_lines_from. exists i, e. done. }
    unfold printed. rewrite !elem_of_app.
    destruct k; auto.
Qed.

End WithLibrary.
End Win64Facts.

Module DebArmFacts.
Import DebArm.

Section Install.

Variable BASE_DIR : string.
Variable script_path : string.

Lemma command_entry k (e : ScheduleEntry k) :
  command BASE_DIR script_path k (entry_json e)
  = Return (template_command BASE_DIR script_path (template e)).
Proof. destruct e as [c en t]. destruct t; reflexivity. Qed.

Lemma head_arg_entry k (e : ScheduleEntry k) :
  exists what, py_getitem (entry_json e) (default "" (head (arg_keys k))) = Return what.
Proof. destruct e as [c en t]. destruct t; eexists; reflexivity. Qed.

Lemma crontab_item_entry k i (e : ScheduleEntry k) st :
  exists out,
    crontab_item BASE_DIR script_path k i (entry_json e) st
    = Return {| cron_entries :=
                  cron_entries st
                  ++ (if enabled e then [entry_line BASE_DIR script_path e] else []);
                stdout := out |}.
Proof.
  unfold crontab_item.
  destruct (head_arg_entry k e) as [what ->]. rewrite command_entry.
  change (py_get (entry_json e) "enabled" JNull) with (Return (JBool (enabled e))).
  change (py_getitem (entry_json e) "cron") with (Return (JStr (cron e))).
  unfold mbind, outcome_bind, bind. cbv beta iota. unfold truthy.
  destruct (enabled e).
  - eexists. reflexivity.
  - rewrite app_nil_r. destruct st. eexists. reflexivity.
Qed.

Lemma crontab_loop_entries k i (es : list (ScheduleEntry k)) st :
  exists out,
    crontab_loop BASE_DIR script_path k i (entry_json <$> es) st
    = Return {| cron_entries := cron_entries st ++ lines_for BASE_DIR script_path es;
                stdout := out |}.
Proof.
  revert i st. induction es as [|e es IH]; intros i st; simpl.
  - exists (stdout st). unfold lines_for. simpl. rewrite app_nil_r. by destruct st.
  - destruct (crontab_item_entry k i e st) as [out ->].
    unfold mbind, outcome_bind, bind. fold (@fmap list _ _ _ (@entry_json k) es).
    destruct (IH (S i) {| cron_entries :=
                            cron_entries st
                            ++ (if enabled e then [entry_line BASE_DIR script_path e] else []);
                          stdout := out |}) as [out' ->].
    exists out'. simpl. f_equal. f_equal. rewrite <- app_assoc. f_equal.
    unfold lines_for. rewrite filter_cons. destruct (enabled e); simpl; done.
Qed.

Lemma crontab_kind_document d k st :
  exists out,
    crontab_kind BASE_DIR script_path (document_json d) k st
    = Return {| cron_entries :=
                  cron_entries st ++ lines_for BASE_DIR script_path (entries d k);
                stdout := out |}.
Proof.
  unfold crontab_kind.
  replace (py_get (document_json d) (list_key k) (JArr []))
    with (Return (JArr (entry_json <$> entries d k))) by (by destruct k).
  simpl. apply crontab_loop_entries.
Qed.

(** The crontab lines of a document: the header, then one line for every
    enabled entry, whatever its cron text. *)
Lemma update_crontab_entries_document d :
  exists out,
    update_crontab_entries BASE_DIR script_path (document_json d)
    = Return {| cron_entries :=
                  header :: lines_for BASE_DIR script_path (entries d station)
                  ++ lines_for BASE_DIR script_path (entries d promo)
                  ++ lines_for BASE_DIR script_path (entries d safety);
                stdout := out |}.
Proof.
  unfold update_crontab_entries.
  match goal with
  | |- context [crontab_kind _ _ _ station ?st] =>
      destruct (crontab_kind_document d station st) as [o1 ->]
  end.
  unfold mbind at 1, outcome_bind at 1, bind at 1.
  match goal with
  | |- context [crontab_kind _ _ _ promo ?st] =>
      destruct (crontab_kind_document d promo st) as [o2 ->]
  end.
  unfold mbind at 1, outcome_bind at 1, bind at 1.
  match goal with
  | |- context [crontab_kind _ _ _ safety ?st] =>
      destruct (crontab_kind_document d safety st) as [o3 ->]
  end.
  exists o3. unfold header. simpl. by rewrite <- !app_assoc.
Qed.

End Install.
End DebArmFacts.

(** ** The schedule synchronizer: applying and loading a document *)

Module SynchronizerFacts.
Import Win64 Win64Facts.

Section WithLibrary.

Context {Trigger : Type}.
Variable CronTrigger :
  string -> string -> option string -> option string -> option string ->
  outcome Trigger.
Variable Time : Type.
Variable fires : Trigger -> Time -> bool.

#[local] Abbreviation World := (World Trigger).
#[local] Abbreviation apply := (api_schedule Trigger CronTrigger POST).
#[local] Abbreviation registered := (registered Trigger CronTrigger).
#[local] Abbreviation printed := (printed Trigger CronTrigger).
#[local] Abbreviation count_active := (count_active Trigger CronTrigger).
#[local] Abbreviation active := (active Trigger CronTrigger).
#[local] Abbreviation trigger_of := (trigger_of Trigger CronTrigger).
#[local] Abbreviation update_scheduler := (update_scheduler Trigger CronTrigger).

(** The stand-alone checker of the Windows variant and the test made at
    registration accept the same cron texts. *)
Lemma checker_agrees_with_registration c :
  (validate_cron_expression Trigger CronTrigger c).1
  = bool_decide (is_Some (trigger_of c)).
Proof.
  unfold validate_cron_expression, Win64.trigger_of.
  destruct (split_ws c) as [|mi [|ho [|da [|mo [|dw [|]]]]]]; try done.
  simpl. destruct (CronTrigger _ _ _ _ _); done.
Qed.

Lemma active_spec k (e : ScheduleEntry k) :
  active e = true
  <-> enabled e = true
      /\ (validate_cron_expression Trigger CronTrigger (cron e)).1 = true.
Proof.
  unfold Win64.active. rewrite checker_agrees_with_registration.
  by rewrite andb_true_iff.
Qed.

(** C3 (as amended). Applying a document is lenient per entry: the call
    succeeds and reports as active_jobs the number of entries that are
    enabled and yield a trigger, every such entry is registered, an
    enabled entry whose five-field cron text the trigger constructor
    rejects is left out and an error line is printed for it, and an
    enabled entry whose cron text does not have five fields is left out
    without any line. *)
Theorem apply_is_lenient_per_entry d (w : World) :
  disk_state w = Writable ->
  let r := apply (schedule_request d) w in
  r.1 = Return (RUpdated (count_active d))
  /\ trace r.2 = trace w ++ printed d
  /\ (forall k i (e : ScheduleEntry k),
        entries d k !! i = Some e -> active e = true ->
        make_id k i ∈ (job_id <$> jobs r.2))
  /\ (forall k i (e : ScheduleEntry k),
        entries d k !! i = Some e -> enabled e = true ->
        match split_ws (cron e) with
        | [mi; ho; da; mo; dw] =>
            forall ex,
              CronTrigger mi ho (unless_star da) (unless_star mo) (unless_star dw)
              = Raise ex ->
              (make_id k i ∉ (job_id <$> jobs r.2))
              /\ (Print (LErrorScheduling k i ex) ∈ trace r.2)
        | _ =>
            (make_id k i ∉ (job_id <$> jobs r.2))
            /\ (forall ex, Print (LErrorScheduling k i ex) ∉ printed d)
        end).
Proof.
  intros Hdisk r. subst r. rewrite (api_schedule_document _ _ _ Hdisk). simpl.
  split; [done|]. split; [done|]. split.
  - intros k i e He Hact. apply registered_id. eauto.
  - intros k i e He Hen.
    assert (forall e', entries d k !! i = Some e' -> e' = e) as Hsame
      by (intros e' He'; congruence).
    destruct (split_ws (cron e)) as [|mi [|ho [|da [|mo [|dw [|]]]]]] eqn:Hparts;
      try (split;
           [ rewrite registered_id; intros (e' & ->%Hsame & Hact);
             unfold Win64.active, Win64.trigger_of in Hact;
             rewrite Hparts, Hen in Hact; done
           | intros ex; rewrite printed_error; intros (e' & ->%Hsame & Hin);
             unfold lines_of in Hin; rewrite Hparts, Hen in Hin;
             by apply elem_of_nil in Hin ]).
    intros ex Hex. split.
    + rewrite registered_id. intros (e' & ->%Hsame & Hact).
      unfold Win64.active, Win64.trigger_of in Hact.
      rewrite Hparts, Hen, Hex in Hact. done.
    + apply elem_of_app. right. apply printed_error. exists e. split; [done|].
      unfold lines_of. rewrite Hparts, Hen, Hex. apply list_elem_of_singleton. done.
Qed.

(** C4 (as amended). On the Windows variant the test made at
    registration (five fields, and the trigger constructor does not
    raise) agrees with that variant's stand-alone checker on every cron
    text, so the entries registered are exactly the enabled entries
    whose cron text that checker accepts; the Raspberry Pi variant
    writes one crontab line for every enabled entry and checks no cron
    text. *)
Theorem registration_agrees_with_checker d (w : World) k i (e : ScheduleEntry k) :
  disk_state w = Writable ->
  entries d k !! i = Some e ->
  (forall c, (validate_cron_expression Trigger CronTrigger c).1
             = bool_decide (is_Some (trigger_of c)))
  /\ (make_id k i ∈ (job_id <$> jobs (apply (schedule_request d) w).2)
      <-> enabled e = true
          /\ (validate_cron_expression Trigger CronTrigger (cron e)).1 = true)
  /\ (forall BASE_DIR script_path, exists out,
        DebArm.update_crontab_entries BASE_DIR script_path (document_json d)
        = Return {| DebArm.cron_entries :=
                      DebArm.header
                      :: DebArm.lines_for BASE_DIR script_path (entries d station)
                      ++ DebArm.lines_for BASE_DIR script_path (entries d promo)
                      ++ DebArm.lines_for BASE_DIR script_path (entries d safety);
                    DebArm.stdout := out |}).
Proof.
  intros Hdisk He. split; [apply checker_agrees_with_registration|]. split.
  - rewrite (api_schedule_document _ _ _ Hdisk). simpl.
    rewrite registered_id, <- active_spec. split.
    + intros (e' & He' & Hact). congruence.
    + eauto.
  - intros. apply DebArmFacts.update_crontab_entries_document.
Qed.

(** C5. Rebuilding the job set is idempotent: the previous jobs are
    discarded, every new job carries the id made from its category and
    its index in the category's list, and a second run on the same
    document leaves the same jobs, hence the same count and the same
    ids. *)
Theorem update_scheduler_idempotent d (w : World) :
  files w !! cron_path = Some (Json (document_json d)) ->
  let w1 := (update_scheduler w).2 in
  let w2 := (update_scheduler w1).2 in
  jobs w1 = registered d
  /\ (forall j, j ∈ jobs w1 ->
        exists k i (e : ScheduleEntry k),
          entries d k !! i = Some e /\ job_id j = make_id k i)
  /\ jobs w2 = jobs w1
  /\ length (jobs w2) = length (jobs w1)
  /\ job_id <$> jobs w2 = job_id <$> jobs w1.
Proof.
  intros Hfile w1 w2. subst w1 w2.
  rewrite (update_scheduler_document CronTrigger _ d w Hfile (document_json_holds d)).
  cbn [snd].
  rewrite (update_scheduler_document CronTrigger _ d (with_trace _ (with_jobs _ w))
             Hfile (document_json_holds d)).
  simpl. split; [done|]. split; [|done].
  intros j Hj. unfold Win64.registered in Hj. rewrite !elem_of_app in Hj.
  assert (forall k, j ∈ jobs_from Trigger CronTrigger 0 (entries d k) ->
            exists k i (e : ScheduleEntry k),
              entries d k !! i = Some e /\ job_id j = make_id k i) as Hone.
  { intros k (m & e & Hm & Hjob)%elem_of_jobs_from.
    apply job_of_Some in Hjob as (Hid & _). exists k, m, e. done. }
  destruct Hj as [Hj|[Hj|Hj]]; eauto.
Qed.

Lemma count_active_single k (e : ScheduleEntry k) :
  enabled e = false -> count_active (single_entry e) = 0%nat.
Proof.
  intros Hen. unfold Win64.count_active.
  destruct k; simpl; rewrite filter_cons, filter_nil;
    unfold Win64.active; rewrite Hen; done.
Qed.

(** On the Windows variant a disabled entry is never live: applying a
    document registers no
    job under the id of a disabled entry, no tick finds such a job due,
    the reported count is the number of enabled entries that yield a
    trigger and so leaves the entry out, and a document whose only entry
    is disabled reports active_jobs = 0. *)
Lemma disabled_entry_is_never_live d (w : World) k i (e : ScheduleEntry k) :
  disk_state w = Writable ->
  entries d k !! i = Some e ->
  enabled e = false ->
  let r := apply (schedule_request d) w in
  (make_id k i ∉ (job_id <$> jobs r.2))
  /\ (forall now, make_id k i ∉ (job_id <$> due Trigger Time fires now r.2))
  /\ r.1 = Return (RUpdated (count_active d))
  /\ active e = false
  /\ (apply (schedule_request (single_entry e)) w).1 = Return (RUpdated 0).
Proof.
  intros Hdisk He Hen r. subst r.
  rewrite !(api_schedule_document _ _ _ Hdisk). simpl.
  assert (make_id k i ∉ (job_id <$> registered d)) as Hnot.
  { rewrite registered_id. intros (e' & He' & Hact).
    assert (e' = e) as -> by congruence.
    unfold Win64.active in Hact. rewrite Hen in Hact. done. }
  split; [done|]. split.
  - intros now (j & Hid & Hj)%list_elem_of_fmap.
    unfold due in Hj. apply list_elem_of_filter in Hj as [_ Hj]. simpl in Hj.
    apply Hnot. apply list_elem_of_fmap. eauto.
  - split; [done|]. split.
    + unfold Win64.active. by rewrite Hen.
    + by rewrite count_active_single.
Qed.

(** C7 (as amended). Applying a document overwrites the schedule file in
    place and then rebuilds the job set: when the disk takes the write,
    the file holds the new document and the job store holds its jobs;
    when the write fails the caller gets the error response and the job
    store is as before, but after a failure during the dump the file is
    left torn; no path other than the schedule file is written. *)
Theorem apply_overwrites_in_place d (w : World) :
  let r := apply (schedule_request d) w in
  (disk_state w = Writable ->
     r.1 = Return (RUpdated (count_active d))
     /\ files r.2 !! cron_path = Some (Json (document_json d))
     /\ jobs r.2 = registered d)
  /\ (disk_state w <> Writable ->
       r.1 = Return (RError (ErrUpdateFailed OSError) 500)
       /\ jobs r.2 = jobs w)
  /\ (disk_state w = DumpFails ->
       files r.2 !! cron_path = Some (Torn (document_json d)))
  /\ (disk_state w = OpenFails -> files r.2 = files w)
  /\ (forall path, path <> cron_path -> files r.2 !! path = files w !! path).
Proof.
  intros r. subst r. destruct (disk_state w) eqn:Hdisk.
  - rewrite (api_schedule_document _ _ _ Hdisk). simpl.
    split; [intros _; by rewrite lookup_insert_eq|].
    split; [done|]. split; [done|]. split; [done|].
    intros path Hne. by rewrite lookup_insert_ne.
  - unfold schedule_request.
    rewrite api_schedule_disk_failure by (by rewrite Hdisk). rewrite Hdisk.
    simpl. done.
  - unfold schedule_request.
    rewrite api_schedule_disk_failure by (by rewrite Hdisk). rewrite Hdisk.
    simpl. split; [done|]. split; [done|].
    split; [intros _; by rewrite lookup_insert_eq|]. split; [done|].
    intros path Hne. by rewrite lookup_insert_ne.
Qed.

Lemma members_with_extra_hold d extra :
  holds_document (JObj (document_members d ++ extra)) d.
Proof. intros k. destruct k; reflexivity. Qed.

Lemma load_json_cron (w : World) :
  load_json Trigger "cron" w
  = match files w !! cron_path with
    | None => (Return (JArr []), w)
    | Some (Json (JObj kv)) =>
        match dict_get "cron" kv with
        | Some v => (Return v, w)
        | None => match kv with
                  | [(_, v)] => (Return v, w)
                  | _ => (Return (JObj kv), w)
                  end
        end
    | Some (Json data) => (Return data, w)
    | Some _ => (Raise JSONDecodeError, w)
    end.
Proof.
  unfold load_json. unfold mbind at 1, M_bind at 1, lift at 1.
  change (table_get JSON_FILES "cron") with (Return (A:=string) cron_path).
  cbv beta iota. unfold mbind at 1, M_bind at 1, get_world. cbv beta iota.
  destruct (files w !! cron_path) as [[data|data|]|]; try reflexivity.
  unfold mbind, M_bind, lift, json_load. cbv beta iota.
  destruct data as [| | | | |kv]; try reflexivity.
  destruct (dict_get "cron" kv); [reflexivity|].
  destruct kv as [|[k v] [|]]; reflexivity.
Qed.

(** C8 (as amended). Loading the schedule returns an empty list when the
    file is missing; an object stored without a "cron" member and with
    a number of members other than one is returned as it is, unknown
    members included. The rebuild of the job set reads the three named
    lists only: whatever other members the stored object has, the jobs
    are those of the three lists. *)
Theorem load_json_returns_what_is_stored (w : World) :
  (files w !! cron_path = None ->
     load_json Trigger "cron" w = (Return (JArr []), w))
  /\ (forall kv,
        files w !! cron_path = Some (Json (JObj kv)) ->
        dict_get "cron" kv = None -> length kv <> 1%nat ->
        load_json Trigger "cron" w = (Return (JObj kv), w))
  /\ (forall d extra,
        files w !! cron_path = Some (Json (JObj (document_members d ++ extra))) ->
        jobs (update_scheduler w).2 = registered d).
Proof.
  split; [|split].
  - intros Hfile. by rewrite load_json_cron, Hfile.
  - intros kv Hfile Hcron Hlen. rewrite load_json_cron, Hfile, Hcron.
    destruct kv as [|[k v] [|]]; done.
  - intros d extra Hfile.
    by rewrite (update_scheduler_document CronTrigger _ d w Hfile
                  (members_with_extra_hold d extra)).
Qed.

End WithLibrary.
End SynchronizerFacts.

(** ** The sequence player *)

Module PlayerFacts.
Import Win64 Win64Facts.

Section WithLibrary.

Context {Trigger : Type}.

#[local] Abbreviation World := (World Trigger).

Lemma attempted_app (t1 t2 : list event) :
  attempted (t1 ++ t2) = attempted t1 ++ attempted t2.
Proof.
  induction t1 as [|ev t1 IH]; simpl; [done|].
  destruct ev; simpl; by rewrite ?IH.
Qed.

Lemma attempted_sequence_events (fs : gmap string file) file_list :
  attempted (sequence_events fs file_list)
  = filter (fun p => is_Some (fs !! p)) file_list.
Proof.
  induction file_list as [|p l IH]; simpl; [done|].
  rewrite attempted_app, IH, filter_cons.
  destruct (decide (is_Some (fs !! p))) as [Hp|Hp].
  - by rewrite bool_decide_eq_true_2.
  - by rewrite bool_decide_eq_false_2.
Qed.

(** The loop of [play_audio_sequence] runs to its end and leaves the
    world as it was, but for the events of the files it went through. *)
Lemma play_audio_sequence_events file_list (w : World) :
  play_audio_sequence Trigger file_list w
  = (Return tt, with_trace (trace w ++ sequence_events (files w) file_list) w).
Proof.
  unfold play_audio_sequence. revert w.
  induction file_list as [|p l IH]; intros w; simpl.
  - destruct w; unfold mret, M_ret, with_trace; simpl. by rewrite app_nil_r.
  - unfold mbind at 1, M_bind at 1. unfold mbind at 1, M_bind at 1, path_exists.
    cbv beta iota.
    destruct (bool_decide (is_Some (files w !! p))) eqn:Hp.
    + unfold mbind at 1, M_bind at 1, print, emit. cbv beta iota.
      unfold mbind at 1, M_bind at 1. cbv beta iota.
      rewrite IH. destruct w; unfold with_trace; simpl.
      by rewrite <- !app_assoc.
    + unfold print, emit. rewrite IH. destruct w; unfold with_trace; simpl.
      by rewrite <- !app_assoc.
Qed.

(** C9. A missing clip does not end the sequence: [play_audio_sequence]
    runs to its end, [play_audio] is called on exactly the files of the
    list that exist, in list order, a line is printed for every missing
    file, and of five clips of which only the third is missing the
    first, second, fourth and fifth are played in this order. *)
Theorem missing_clip_is_skipped file_list (w : World) :
  let r := play_audio_sequence Trigger file_list w in
  r.1 = Return tt
  /\ attempted (trace r.2)
     = attempted (trace w) ++ filter (fun p => is_Some (files w !! p)) file_list
  /\ (forall p, p ∈ file_list -> files w !! p = None ->
        Print (LMissing p) ∈ trace r.2)
  /\ (forall c1 c2 c3 c4 c5,
        file_list = [c1; c2; c3; c4; c5] ->
        is_Some (files w !! c1) -> is_Some (files w !! c2) ->
        files w !! c3 = None ->
        is_Some (files w !! c4) -> is_Some (files w !! c5) ->
        attempted (trace r.2) = attempted (trace w) ++ [c1; c2; c4; c5]).
Proof.
  intros r. subst r. rewrite play_audio_sequence_events. simpl.
  rewrite attempted_app, attempted_sequence_events.
  split; [done|]. split; [done|]. split.
  - intros p Hp Hnone. apply elem_of_app. right.
    unfold sequence_events. apply list_elem_of_In, in_flat_map.
    exists p. split; [by apply list_elem_of_In|].
    rewrite bool_decide_eq_false_2 by (rewrite Hnone; by intros [? ?]).
    by left.
  - intros c1 c2 c3 c4 c5 -> H1 H2 H3 H4 H5. f_equal.
    rewrite !filter_cons, filter_nil.
    rewrite !decide_True by done.
    rewrite decide_False by (rewrite H3; by intros [? ?]).
    by rewrite !decide_True by done.
Qed.

(** The clips of a station announcement, and what starting it does. *)
Lemma play_station_announcement_events
    (train_number direction destination track_number : json) (w : World) :
  play_station_announcement Trigger train_number direction destination track_number w
  = (Return tt,
     with_trace
       (trace w
        ++ [ Print (LStationAnnouncement train_number direction destination
                      track_number);
             StartThread
               (TPlaySequence
                  [ "static/mp3/chime.mp3";
                    path_join "static/mp3/train" (mp3 train_number);
                    path_join "static/mp3/direction" (mp3 direction);
                    path_join "static/mp3/destination" (mp3 destination);
                    path_join "static/mp3/track" (mp3 track_number) ]) ]) w).
Proof.
  unfold play_station_announcement, mbind, M_bind, print, emit, lift.
  destruct w; unfold with_trace; simpl. by rewrite <- app_assoc.
Qed.

(** The API handler for station announcements adds to the trace only
    what [play_station_announcement] adds, and leaves the rest of the
    world alone. *)
Lemma api_station_announcement_effect data (w : World) :
  exists evs,
    (api_station_announcement Trigger data w).2 = with_trace (trace w ++ evs) w
    /\ forall v, AssignCurrentAnnouncement v ∉ evs.
Proof.
  assert (exists evs, w = with_trace (trace w ++ evs) w
                      /\ forall v, AssignCurrentAnnouncement v ∉ evs) as Hsame.
  { exists []. split; [|intros v; apply not_elem_of_nil].
    destruct w; unfold with_trace; simpl. by rewrite app_nil_r. }
  unfold api_station_announcement.
  unfold mbind at 1, M_bind at 1, lift at 1.
  destruct (validate_announcement_params _ _) as [[valid missing]|e];
    [|exact Hsame].
  destruct valid; simpl; [|exact Hsame].
  unfold try_except, mbind, M_bind, lift, mret, M_ret.
  destruct (py_getitem data "train_number") as [a|]; [|exact Hsame].
  destruct (py_getitem data "direction") as [b|]; [|exact Hsame].
  destruct (py_getitem data "destination") as [c|]; [|exact Hsame].
  destruct (py_getitem data "track_number") as [d|]; [|exact Hsame].
  rewrite play_station_announcement_events. simpl.
  eexists. split; [reflexivity|].
  intros v Hin. rewrite !elem_of_cons in Hin.
  destruct Hin as [Hin|[Hin|Hin]]; try discriminate Hin.
  by apply elem_of_nil in Hin.
Qed.

(** The steps of the paths into a station announcement. The web route
    assigns the marker before it starts the sequence; the API handler
    and a fired station job start the sequence without an assignment,
    and leave the marker as it is. *)
Lemma steps_of_the_station_paths (w : World) :
  let clips := StartThread (TPlaySequence Reference.station_clips) in
  let say := Print (LStationAnnouncement (JStr "1") (JStr "westbound")
                      (JStr "goodwin_station") (JStr "1")) in
  play_announcement_route Trigger Reference.station_form w
  = (Return (RText "Station announcement played."),
     with_trace (trace w ++ [AssignCurrentAnnouncement None; say; clips])
       (with_current None w))
  /\ api_station_announcement Trigger Reference.station_request w
     = (Return (RTriggered station [JStr "1"; JStr "westbound";
                                    JStr "goodwin_station"; JStr "1"]),
        with_trace (trace w ++ [say; clips]) w)
  /\ (forall data, exists evs,
        (api_station_announcement Trigger data w).2 = with_trace (trace w ++ evs) w
        /\ forall v, AssignCurrentAnnouncement v ∉ evs)
  /\ (forall id name t,
        run_job Trigger
          {| job_id := id; job_name := name; job_func := station; job_trigger := t;
             job_args := [JStr "1"; JStr "westbound"; JStr "goodwin_station";
                          JStr "1"] |} w
        = (Return tt, with_trace (trace w ++ [say; clips]) w)).
Proof.
  intros clips say. subst clips say. split; [|split; [|split]].
  - destruct w. cbv -[app]. by rewrite <- !app_assoc.
  - destruct w. cbv -[app]. by rewrite <- !app_assoc.
  - intros data. apply api_station_announcement_effect.
  - intros id name t. destruct w. cbv -[app]. by rewrite <- !app_assoc.
Qed.

End WithLibrary.
End PlayerFacts.

(** ** The first version: clips that cannot be loaded *)

Module LegacyFacts.
Import Legacy.

Section Pydub.

Variable AudioSegment : Type.
Variable empty : AudioSegment.
Variable add : AudioSegment -> AudioSegment -> AudioSegment.
Variable from_mp3 : string -> outcome AudioSegment.

(** A clip that cannot be loaded is left out and the loop goes on: the
    audio played is the sum, in order, of the clips that load. *)
Lemma combine_loaded combined out mp3_files :
  (combine AudioSegment add from_mp3 combined out mp3_files).1
  = fold_left add (loaded AudioSegment from_mp3 mp3_files) combined.
Proof.
  revert combined out. induction mp3_files as [|f rest IH]; intros; simpl; [done|].
  destruct (from_mp3 f); simpl; apply IH.
Qed.

End Pydub.
End LegacyFacts.

(** ** The cron checker of the Raspberry Pi variant *)

Module CronFacts.
Import ValidateCron.

(** *** An expression without exactly five fields *)

Lemma wrong_field_count cron_expr :
  length (split_ws cron_expr) <> 5%nat ->
  validate_cron_expression cron_expr
  = (false, MsgFieldCount (length (split_ws cron_expr)))
  /\ Spec41.validate cron_expr = Spec41.FieldCountError.
Proof.
  intros Hlen. unfold validate_cron_expression, Spec41.validate.
  destruct (split_ws cron_expr) as [|mi [|ho [|da [|mo [|dw [|]]]]]]; done.
Qed.

(** *** Characters of the pieces of a string *)

Lemma contains_any_char c s : contains c s = any_char (fun a => ascii_eqb a c) s.
Proof. induction s as [|a s IH]; simpl; by rewrite ?IH. Qed.

Lemma any_char_snoc P s a : any_char P (snoc s a) = any_char P s || P a.
Proof.
  unfold snoc. induction s as [|b s IH]; simpl.
  - by rewrite orb_false_r.
  - change (String b s +:+ String a "") with (String b (s +:+ String a "")).
    simpl. by rewrite IH, orb_assoc.
Qed.

(** A piece of [s.split(sep)] has only characters of [s]. *)
Lemma split_on_go_chars P sep cur s p :
  any_char P cur = false -> any_char P s = false ->
  p ∈ split_on_go sep cur s ->
  any_char P p = false.
Proof.
  revert cur. induction s as [|a s IH]; intros cur Hcur Hs; simpl.
  - by intros ->%list_elem_of_singleton.
  - simpl in Hs. apply orb_false_iff in Hs as [Ha Hs].
    destruct (ascii_eqb a sep).
    + rewrite elem_of_cons. intros [->|Hp]; [done|]. by apply (IH "").
    + apply IH; [|done]. by rewrite any_char_snoc, Hcur, Ha.
Qed.

Lemma split_on_chars P sep s p :
  any_char P s = false -> p ∈ split_on sep s -> any_char P p = false.
Proof. by apply split_on_go_chars. Qed.

(** A piece of [s.split(sep)] does not contain [sep]. *)
Lemma split_on_go_pieces sep cur s p :
  contains sep cur = false ->
  p ∈ split_on_go sep cur s ->
  contains sep p = false.
Proof.
  rewrite !contains_any_char.
  revert cur. induction s as [|a s IH]; intros cur Hcur; simpl.
  - by intros ->%list_elem_of_singleton.
  - destruct (ascii_eqb a sep) eqn:Ha.
    + rewrite elem_of_cons. intros [->|Hp]; [done|]. by apply (IH "").
    + apply IH. by rewrite any_char_snoc, Hcur, Ha.
Qed.

Lemma split_on_pieces sep s p : p ∈ split_on sep s -> contains sep p = false.
Proof. by apply split_on_go_pieces. Qed.

Lemma append_empty_r s : s +:+ "" = s.
Proof.
  induction s as [|a s IH]; [done|].
  change (String a s +:+ "") with (String a (s +:+ "")). by rewrite IH.
Qed.

Lemma snoc_append cur a s : snoc cur a +:+ s = cur +:+ String a s.
Proof.
  unfold snoc. induction cur as [|b cur IH]; [done|].
  change (String b cur +:+ String a "") with (String b (cur +:+ String a "")).
  change (String b (cur +:+ String a "") +:+ s)
    with (String b ((cur +:+ String a "") +:+ s)).
  change (String b cur +:+ String a s) with (String b (cur +:+ String a s)).
  by rewrite IH.
Qed.

(** Splitting at a separator that does not occur gives the string. *)
Lemma split_on_go_absent sep cur s :
  contains sep s = false -> split_on_go sep cur s = [cur +:+ s].
Proof.
  revert cur. induction s as [|a s IH]; intros cur; simpl.
  - by rewrite append_empty_r.
  - intros [Ha Hs]%orb_false_iff. rewrite Ha, IH by done.
    by rewrite snoc_append.
Qed.

Lemma split_on_absent sep s : contains sep s = false -> split_on sep s = [s].
Proof. intros Hs. unfold split_on. by rewrite split_on_go_absent. Qed.

(** A field of [s.split()] has no blank in it. *)
Lemma split_ws_go_fields cur s p :
  any_char isspace cur = false ->
  p ∈ split_ws_go cur s ->
  any_char isspace p = false.
Proof.
  revert cur. induction s as [|a s IH]; intros cur Hcur; simpl.
  - destruct cur; [by intros ?%elem_of_nil|]. by intros ->%list_elem_of_singleton.
  - destruct (isspace a) eqn:Ha.
    + destruct cur; [by apply (IH "")|].
      rewrite elem_of_cons. intros [->|Hp]; [done|]. by apply (IH "").
    + apply IH. by rewrite any_char_snoc, Hcur, Ha.
Qed.

Lemma split_ws_fields s p : p ∈ split_ws s -> any_char isspace p = false.
Proof. by apply split_ws_go_fields. Qed.

Lemma any_char_rev_app P s acc :
  any_char P (String.rev_app s acc) = any_char P s || any_char P acc.
Proof.
  revert acc. induction s as [|a s IH]; intros acc; simpl; [done|].
  rewrite IH. simpl. destruct (P a), (any_char P s); done.
Qed.

Lemma any_char_rev P s : any_char P (String.rev s) = any_char P s.
Proof. unfold String.rev. by rewrite any_char_rev_app, orb_false_r. Qed.

Lemma rev_app_rev_app s a b :
  String.rev_app (String.rev_app s a) b = String.rev_app a (s +:+ b).
Proof.
  revert a b. induction s as [|c s IH]; intros a b; simpl; [done|].
  by rewrite IH.
Qed.

Lemma rev_rev s : String.rev (String.rev s) = s.
Proof. unfold String.rev. rewrite rev_app_rev_app. simpl. apply append_empty_r. Qed.

Lemma any_char_lstrip P s : any_char P s = false -> any_char P (lstrip s) = false.
Proof.
  induction s as [|a s IH]; simpl; [done|].
  intros [Ha Hs]%orb_false_iff. destruct (isspace a); [by apply IH|].
  simpl. by rewrite Ha, Hs.
Qed.

Lemma any_char_strip P s : any_char P s = false -> any_char P (strip s) = false.
Proof.
  intros Hs. unfold strip, rstrip.
  rewrite any_char_rev. apply any_char_lstrip.
  rewrite any_char_rev. by apply any_char_lstrip.
Qed.

Lemma contains_strip c s : contains c s = false -> contains c (strip s) = false.
Proof. rewrite !contains_any_char. apply any_char_strip. Qed.

Lemma lstrip_no_blank s : any_char isspace s = false -> lstrip s = s.
Proof. destruct s as [|a s]; simpl; [done|]. by intros [-> _]%orb_false_iff. Qed.

(** Stripping a string without blanks changes nothing. *)
Lemma strip_no_blank s : any_char isspace s = false -> strip s = s.
Proof.
  intros Hs. unfold strip, rstrip. rewrite (lstrip_no_blank s) by done.
  rewrite lstrip_no_blank by (by rewrite any_char_rev). apply rev_rev.
Qed.

(** *** The recursion of [validate_field] is two frames deep at most *)

Lemma validate_field_rec_unfold depth value min_val max_val :
  validate_field_rec (S depth) value min_val max_val
  = if String.eqb value "*" then Return true
    else if contains "/" value then
      match split_on "/" value with
      | [base; step] =>
          except_ValueError
            (base_int ← (if String.eqb base "*" then Return min_val else int base);
             step_int ← int step;
             Return ((min_val <=? base_int) && (base_int <=? max_val)
                     && (0 <? step_int)))
      | _ => Raise ValueError
      end
    else if contains "-" value then
      except_ValueError
        match split_on "-" value with
        | [start; end_] =>
            start_int ← int start;
            end_int ← int end_;
            Return ((min_val <=? start_int) && (start_int <=? end_int)
                    && (end_int <=? max_val))
        | _ => Raise ValueError
        end
    else if contains "," value then
      all (fun v => validate_field_rec depth (strip v) min_val max_val)
          (split_on "," value)
    else
      except_ValueError
        (val ← int value; Return ((min_val <=? val) && (val <=? max_val))).
Proof. reflexivity. Qed.

(** A value without a comma never reaches the recursive call. *)
Lemma validate_field_rec_no_comma n value min_val max_val :
  contains "," value = false ->
  validate_field_rec (S n) value min_val max_val
  = validate_field_rec 1 value min_val max_val.
Proof.
  intros Hno. rewrite !validate_field_rec_unfold, Hno. reflexivity.
Qed.

Lemma all_ext {A} (f g : A -> outcome bool) l :
  (forall x, x ∈ l -> f x = g x) -> all f l = all g l.
Proof.
  induction l as [|x l IH]; intros Hfg; simpl; [done|].
  rewrite (Hfg x) by apply list_elem_of_here.
  destruct (g x) as [[|]|]; try done.
  apply IH. intros y Hy. apply Hfg. by apply list_elem_of_further.
Qed.

Lemma validate_field_rec_depth n value min_val max_val :
  validate_field_rec (S (S n)) value min_val max_val
  = validate_field_rec 2 value min_val max_val.
Proof.
  rewrite !validate_field_rec_unfold.
  destruct (String.eqb value "*"); [done|].
  destruct (contains "/" value); [done|].
  destruct (contains "-" value); [done|].
  destruct (contains "," value); [|done].
  apply all_ext. intros p Hp.
  apply validate_field_rec_no_comma.
  by apply contains_strip, (split_on_pieces _ value).
Qed.

Lemma int_raises s e : int s = Raise e -> e = ValueError.
Proof.
  unfold int.
  destruct (match int_strip s with
            | String "+" r => int_digits 0 false r
            | String "-" r => Z.opp <$> int_digits 0 false r
            | t => int_digits 0 false t
            end); [|by intros [= <-]].
  destruct (max_str_digits <? count_digits (int_strip s))%nat; [|done].
  by intros [= <-].
Qed.

Lemma except_ValueError_total body :
  (forall e, body = Raise e -> e = ValueError) ->
  exists b, except_ValueError body = Return b.
Proof.
  intros Hbody. destruct body as [b|e]; simpl; [eauto|].
  rewrite (Hbody e eq_refl). eauto.
Qed.

Lemma all_no_recursion_error {A} (f : A -> outcome bool) l :
  (forall x, x ∈ l -> f x <> Raise RecursionError) ->
  all f l <> Raise RecursionError.
Proof.
  induction l as [|x l IH]; intros Hf; simpl; [done|].
  pose proof (Hf x (list_elem_of_here _ _)) as Hx.
  destruct (f x) as [[|]|e]; try done.
  apply IH. intros y Hy. apply Hf. by apply list_elem_of_further.
Qed.

(** A frame of [validate_field] does not run out of stack unless a
    recursive call on an element of a comma list does; the other
    branches return, or raise [ValueError] (the unpacking of a field
    with two slashes). *)
Lemma validate_field_rec_frame depth value min_val max_val :
  (contains "," value = true ->
   forall p, p ∈ split_on "," value ->
             validate_field_rec depth (strip p) min_val max_val
             <> Raise RecursionError) ->
  validate_field_rec (S depth) value min_val max_val <> Raise RecursionError.
Proof.
  intros Hrec. rewrite validate_field_rec_unfold.
  destruct (String.eqb value "*"); [done|].
  destruct (contains "/" value).
  { destruct (split_on "/" value) as [|base [|step [|]]]; try done.
    destruct (except_ValueError_total
                (base_int ← (if String.eqb base "*" then Return min_val else int base);
                 step_int ← int step;
                 Return ((min_val <=? base_int) && (base_int <=? max_val)
                         && (0 <? step_int)))) as [b Hb]; [|by rewrite Hb].
    intros e. destruct (String.eqb base "*"); simpl.
    - destruct (int step) eqn:Hs; simpl; [done|].
      intros [= <-]. by apply int_raises in Hs.
    - destruct (int base) eqn:Hb; simpl.
      + destruct (int step) eqn:Hs; simpl; [done|].
        intros [= <-]. by apply int_raises in Hs.
      + intros [= <-]. by apply int_raises in Hb. }
  destruct (contains "-" value).
  { destruct (except_ValueError_total
                match split_on "-" value with
                | [start; end_] =>
                    start_int ← int start;
                    end_int ← int end_;
                    Return ((min_val <=? start_int) && (start_int <=? end_int)
                            && (end_int <=? max_val))
                | _ => Raise ValueError
                end) as [b Hb]; [|by rewrite Hb].
    intros e. destruct (split_on "-" value) as [|start [|end_ [|]]];
      try (by intros [= <-]).
    destruct (int start) eqn:Hs; simpl.
    - destruct (int end_) eqn:He; simpl; [done|].
      intros [= <-]. by apply int_raises in He.
    - intros [= <-]. by apply int_raises in Hs. }
  destruct (contains "," value).
  { apply all_no_recursion_error. by apply Hrec. }
  destruct (except_ValueError_total
              (val ← int value; Return ((min_val <=? val) && (val <=? max_val))))
    as [b Hb]; [|by rewrite Hb].
  intros e. destruct (int value) eqn:Hv; simpl; [done|].
  intros [= <-]. by apply int_raises in Hv.
Qed.

(** [validate_field] never exhausts the stack: its result is the result
    at depth two, and that is not a [RecursionError]. *)
Lemma validate_field_terminates value min_val max_val :
  validate_field value min_val max_val
  = validate_field_rec 2 value min_val max_val
  /\ validate_field value min_val max_val <> Raise RecursionError.
Proof.
  assert (validate_field value min_val max_val
          = validate_field_rec 2 value min_val max_val) as Heq
    by apply (validate_field_rec_depth 998).
  split; [done|]. rewrite Heq.
  apply validate_field_rec_frame. intros _ p Hp.
  apply validate_field_rec_frame. intros Hcomma.
  by rewrite contains_strip in Hcomma by apply (split_on_pieces _ value), Hp.
Qed.

(** *** Where the checker and the grammar of section 4.1 agree *)

Lemma all_true {A} (f : A -> outcome bool) l :
  all f l = Return true <-> forall x, x ∈ l -> f x = Return true.
Proof.
  induction l as [|x l IH]; simpl.
  - split; [|done]. by intros _ y ?%elem_of_nil.
  - split.
    + destruct (f x) as [[|]|] eqn:Hx; try done.
      intros Hall y [->|Hy]%elem_of_cons; [done|]. by apply IH.
    + intros Hall. rewrite (Hall x) by apply list_elem_of_here.
      apply IH. intros y Hy. apply Hall. by apply list_elem_of_further.
Qed.

(** On a value without a comma the two make the same tests in the same
    order. *)
Lemma item_agrees value min_val max_val :
  contains "," value = false ->
  validate_field_rec 1 value min_val max_val = Return true
  <-> Spec41.item_ok min_val max_val value = true.
Proof.
  intros Hno. rewrite validate_field_rec_unfold, Hno. unfold Spec41.item_ok.
  destruct (String.eqb value "*") eqn:Hstar.
  { apply String.eqb_eq in Hstar as ->. done. }
  destruct (contains "/" value).
  { destruct (split_on "/" value) as [|base [|step [|]]]; try done.
    destruct (String.eqb base "*"); simpl.
    - destruct (int step) as [s|[]]; simpl; try done.
      split; [by intros [= ->]|by intros ->].
    - destruct (int base) as [b|[]]; simpl; try done.
      destruct (int step) as [s|[]]; simpl; try done.
      split; [by intros [= ->]|by intros ->]. }
  destruct (contains "-" value).
  { destruct (split_on "-" value) as [|start [|end_ [|]]]; try done.
    destruct (int start) as [a|[]]; simpl; try done.
    destruct (int end_) as [b|[]]; simpl; try done.
    split; [by intros [= ->]|by intros ->]. }
  destruct (int value) as [n|[]]; simpl; try done.
  split; [by intros [= ->]|by intros ->].
Qed.

(** A field is mixed when it has a comma together with a slash or a
    hyphen; on every other field without blanks the checker accepts
    exactly what the grammar accepts. *)
Lemma field_agrees value min_val max_val :
  any_char isspace value = false ->
  contains "," value = false
  \/ (contains "/" value = false /\ contains "-" value = false) ->
  validate_field value min_val max_val = Return true
  <-> Spec41.field_ok min_val max_val value = true.
Proof.
  intros Hblank Hmixed.
  rewrite (proj1 (validate_field_terminates value min_val max_val)).
  unfold Spec41.field_ok.
  destruct (contains "," value) eqn:Hcomma.
  - destruct Hmixed as [|[Hslash Hhyphen]]; [done|].
    rewrite validate_field_rec_unfold, Hslash, Hhyphen, Hcomma.
    destruct (String.eqb value "*") eqn:Hstar.
    { apply String.eqb_eq in Hstar as ->. done. }
    rewrite all_true, forallb_forall. split.
    + intros Hall p Hp%list_elem_of_In.
      apply item_agrees; [by apply (split_on_pieces _ value)|].
      rewrite <- (strip_no_blank p) at 1; [by apply Hall|].
      by apply (split_on_chars _ "," value).
    + intros Hall p Hp.
      rewrite strip_no_blank by (by apply (split_on_chars _ "," value)).
      apply item_agrees; [by apply (split_on_pieces _ value)|].
      by apply Hall, list_elem_of_In.
  - rewrite (validate_field_rec_no_comma 1) by done.
    rewrite split_on_absent by done. simpl. rewrite andb_true_r.
    by apply item_agrees.
Qed.

Lemma check_fields_true mi ho da mo dw :
  (exists m, check_fields [mi; ho; da; mo; dw] = Return (true, m))
  <-> validate_field mi 0 59 = Return true
      /\ validate_field ho 0 23 = Return true
      /\ validate_field da 1 31 = Return true
      /\ validate_field mo 1 12 = Return true
      /\ validate_field dw 0 7 = Return true.
Proof.
  unfold check_fields.
  destruct (validate_field mi 0 59) as [[|]|]; simpl;
    [|split; [by intros [? ?]|by intros (?&?)]..].
  destruct (validate_field ho 0 23) as [[|]|]; simpl;
    [|split; [by intros [? ?]|by intros (?&?&?)]..].
  destruct (validate_field da 1 31) as [[|]|]; simpl;
    [|split; [by intros [? ?]|by intros (?&?&?&?)]..].
  destruct (validate_field mo 1 12) as [[|]|]; simpl;
    [|split; [by intros [? ?]|by intros (?&?&?&?&?)]..].
  destruct (validate_field dw 0 7) as [[|]|]; simpl;
    [|split; [by intros [? ?]|by intros (?&?&?&?&?)]..].
  split; [done|]. intros _. by eexists.
Qed.

(** An expression none of whose fields is mixed is accepted by the
    checker exactly when it is valid in the grammar of section 4.1. *)
Lemma validate_agrees_off_mixed_fields cron_expr :
  (forall f, f ∈ split_ws cron_expr ->
     contains "," f = false
     \/ (contains "/" f = false /\ contains "-" f = false)) ->
  (validate_cron_expression cron_expr).1 = true
  <-> Spec41.validate cron_expr = Spec41.Valid.
Proof.
  intros Hmixed.
  assert (forall f min_val max_val, f ∈ split_ws cron_expr ->
            validate_field f min_val max_val = Return true
            <-> Spec41.field_ok min_val max_val f = true) as Hfield.
  { intros f min_val max_val Hf.
    apply field_agrees; [by apply (split_ws_fields cron_expr)|by apply Hmixed]. }
  unfold validate_cron_expression, Spec41.validate.
  destruct (split_ws cron_expr) as [|mi [|ho [|da [|mo [|dw [|]]]]]]; try done.
  cbn [length Nat.eqb negb].
  pose proof (check_fields_true mi ho da mo dw) as Hcheck.
  pose proof (Hfield mi 0 59 ltac:(repeat constructor)) as Hmi.
  pose proof (Hfield ho 0 23 ltac:(repeat constructor)) as Hho.
  pose proof (Hfield da 1 31 ltac:(repeat constructor)) as Hda.
  pose proof (Hfield mo 1 12 ltac:(repeat constructor)) as Hmo.
  pose proof (Hfield dw 0 7 ltac:(repeat constructor)) as Hdw.
  rewrite Hmi, Hho, Hda, Hmo, Hdw in Hcheck. clear Hmi Hho Hda Hmo Hdw Hfield.
  split.
  - intros Hok.
    destruct Hcheck as [Hcheck _].
    destruct Hcheck as (-> & -> & -> & -> & ->); [|done].
    destruct (check_fields _) as [[b m]|]; [|done].
    simpl in Hok. subst b. by eexists.
  - intros Hvalid.
    destruct Hcheck as [_ Hcheck].
    destruct Hcheck as [m ->]; [|done].
    destruct (Spec41.field_ok 0 59 mi); [|done].
    destruct (Spec41.field_ok 0 23 ho); [|done].
    destruct (Spec41.field_ok 1 31 da); [|done].
    destruct (Spec41.field_ok 1 12 mo); [|done].
    destruct (Spec41.field_ok 0 7 dw); done.
Qed.

(** C1 (what the code does). The checker tests for a step and for a
    range before it tests for a comma list, so a list with a range in it
    is split at the hyphen and rejected, although every element of the
    list is a valid field of the grammar of section 4.1. *)
Theorem list_of_ranges_is_rejected :
  validate_cron_expression "1-5,10 * * * *" = (false, MsgInvalidField minute)
  /\ validate_field "1-5,10" 0 59 = Return false
  /\ Spec41.validate "1-5,10 * * * *" = Spec41.Valid.
Proof. repeat split; vm_compute; reflexivity. Qed.

End CronFacts.

(** ** The statements above on concrete inputs *)

Module Examples.
Import Win64 Reference.

#[local] Abbreviation apply := (api_schedule Trigger CronTrigger POST).

(** Scenario C: the entry with minute 99 is left out, one job is active. *)
Lemma scenario_C_reports_one_job :
  disk_state initial = Writable
  /\ (apply (schedule_request scenario_C) initial).1 = Return (RUpdated 1).
Proof.
  split; [reflexivity|].
  exact (proj1 (SynchronizerFacts.apply_is_lenient_per_entry CronTrigger
                  scenario_C initial eq_refl)).
Defined.

(** An enabled entry whose cron text has four fields is dropped and no
    line is printed for it. *)
Lemma four_field_entry_is_dropped_silently :
  validate_cron_expression Trigger CronTrigger "0 8 * *"
  = (false, ValidateCron.MsgFieldCount 4)
  /\ ValidateCron.validate_cron_expression "0 8 * *"
     = (false, ValidateCron.MsgFieldCount 4)
  /\ (apply (schedule_request four_fields) initial).1 = Return (RUpdated 1)
  /\ trace (apply (schedule_request four_fields) initial).2
     = [ Print (LScheduled promo (JStr "*/15 * * * *") (JStr "promo_english.mp3"));
         Print LSchedulerUpdated ].
Proof. repeat split; vm_compute; reflexivity. Qed.

(** The entry with minute 99 is at index 0 of the station list: it is
    not registered, and the checker rejects its cron text. *)
Lemma minute_99_is_not_registered :
  disk_state initial = Writable
  /\ entries scenario_C station !! 0%nat = Some (entry_A "99 8 * * *" true)
  /\ (make_id station 0 ∈ (job_id <$> jobs (apply (schedule_request scenario_C) initial).2)
      <-> enabled (entry_A "99 8 * * *" true) = true
          /\ (validate_cron_expression Trigger CronTrigger
                (cron (entry_A "99 8 * * *" true))).1 = true).
Proof.
  split; [reflexivity|]. split; [reflexivity|].
  exact (proj1 (proj2 (SynchronizerFacts.registration_agrees_with_checker
                         CronTrigger scenario_C initial station 0
                         (entry_A "99 8 * * *" true) eq_refl eq_refl))).
Defined.

(** The Raspberry Pi variant writes the crontab line of an enabled entry
    whose cron text its own checker rejects. *)
Lemma crontab_line_for_rejected_cron :
  ValidateCron.validate_cron_expression "99 8 * * *"
  = (false, ValidateCron.MsgInvalidField ValidateCron.minute)
  /\ Spec41.validate "99 8 * * *" = Spec41.FieldSyntaxError ValidateCron.minute
  /\ DebArm.cron_entries
       <$> (match DebArm.update_crontab_entries "/opt/tarr" "/opt/tarr/app.py"
                    (document_json (single_entry (promo_entry "99 8 * * *"))) with
            | Return st => Some st
            | Raise _ => None
            end)
     = Some [ "# TARR Annunciator scheduled announcements";
              "99 8 * * * cd /opt/tarr && python3 /opt/tarr/app.py --promo --file 'promo_english.mp3' >> /var/log/tarr-announcer.log 2>&1" ].
Proof. repeat split; vm_compute; reflexivity. Qed.

(** Two runs of [update_scheduler] on scenario C leave the same jobs. *)
Lemma scenario_C_twice :
  files (holding scenario_C Writable) !! cron_path
  = Some (Json (document_json scenario_C))
  /\ jobs (update_scheduler Trigger CronTrigger
             (update_scheduler Trigger CronTrigger (holding scenario_C Writable)).2).2
     = jobs (update_scheduler Trigger CronTrigger (holding scenario_C Writable)).2.
Proof.
  split; [reflexivity|].
  exact (proj1 (proj2 (proj2 (SynchronizerFacts.update_scheduler_idempotent
                                CronTrigger scenario_C (holding scenario_C Writable)
                                eq_refl)))).
Defined.

(** Scenario B: the disabled entry gives no job, active_jobs is 0. *)
Lemma scenario_B_reports_no_job :
  disk_state initial = Writable
  /\ entries scenario_B station !! 0%nat = Some (entry_A "0 8 * * 1-5" false)
  /\ enabled (entry_A "0 8 * * 1-5" false) = false
  /\ (apply (schedule_request scenario_B) initial).1 = Return (RUpdated 0)
  /\ forall now : unit,
       make_id station 0
       ∉ (job_id <$> due Trigger unit fires now (apply (schedule_request scenario_B) initial).2).
Proof.
  split; [reflexivity|]. split; [reflexivity|]. split; [reflexivity|].
  pose proof (SynchronizerFacts.disabled_entry_is_never_live CronTrigger unit fires
                scenario_B initial station 0 (entry_A "0 8 * * 1-5" false)
                eq_refl eq_refl eq_refl) as H.
  split; [exact (proj1 (proj2 (proj2 H)))|exact (proj1 (proj2 H))].
Defined.

(** A write that fails during the dump leaves the schedule file torn:
    it holds neither the previous document nor the new one, while the
    caller gets the error and the jobs stay. *)
Lemma failed_dump_tears_the_file :
  let w := holding empty_document DumpFails in
  let r := apply (schedule_request scenario_C) w in
  r.1 = Return (RError (ErrUpdateFailed OSError) 500)
  /\ jobs r.2 = jobs w
  /\ files w !! cron_path = Some (Json (document_json empty_document))
  /\ files r.2 !! cron_path = Some (Torn (document_json scenario_C))
  /\ files r.2 !! cron_path <> files w !! cron_path
  /\ files r.2 !! cron_path <> Some (Json (document_json scenario_C)).
Proof.
  vm_compute. repeat split; try reflexivity; discriminate.
Qed.

(** The same through the general statement. *)
Lemma failed_dump_keeps_jobs :
  disk_state (holding empty_document DumpFails) = DumpFails
  /\ files (apply (schedule_request scenario_C) (holding empty_document DumpFails)).2
       !! cron_path
     = Some (Torn (document_json scenario_C)).
Proof.
  split; [reflexivity|].
  exact (proj1 (proj2 (proj2 (SynchronizerFacts.apply_overwrites_in_place
                                CronTrigger scenario_C
                                (holding empty_document DumpFails)))) eq_refl).
Defined.

(** Loading without a file gives a list, not a document of three lists;
    loading a document stored with one more member returns that member
    too. *)
Lemma load_json_keeps_unknown_members :
  let stored := JObj (document_members empty_document ++ [("comment", JStr "x")]) in
  let w := {| files := {[ cron_path := Json stored ]}; disk_state := Writable;
              jobs := []; current_announcement := None; trace := [] |} in
  (load_json Trigger "cron" initial).1 = Return (JArr [])
  /\ JArr [] <> document_json empty_document
  /\ (load_json Trigger "cron" w).1 = Return stored
  /\ stored <> document_json empty_document.
Proof.
  vm_compute. repeat split; try reflexivity; discriminate.
Qed.

(** The same through the general statement. *)
Lemma load_json_without_file :
  files initial !! cron_path = None
  /\ load_json Trigger "cron" initial = (Return (JArr []), initial).
Proof.
  split; [reflexivity|].
  exact (proj1 (SynchronizerFacts.load_json_returns_what_is_stored CronTrigger initial)
           eq_refl).
Defined.

(** The station sequence of the API test on a disk without the
    direction clip: clips 1, 2, 4 and 5 are played. *)
Lemma third_clip_missing :
  attempted (trace (play_audio_sequence Trigger station_clips third_missing).2)
  = [ "static/mp3/chime.mp3"; "static/mp3/train/1.mp3";
      "static/mp3/destination/goodwin_station.mp3"; "static/mp3/track/1.mp3" ].
Proof.
  refine (proj2 (proj2 (proj2 (PlayerFacts.missing_clip_is_skipped
                                  station_clips third_missing)))
            _ _ _ _ _ eq_refl _ _ _ _ _);
    vm_compute; eauto.
Defined.

End Examples.

(** ** Further facts about the Windows variant *)

Module Win64MoreFacts.
Import Win64 Win64Facts Win64More.

Section WithLibrary.

Context {Trigger : Type}.
Variable CronTrigger :
  string -> string -> option string -> option string -> option string ->
  outcome Trigger.

#[local] Abbreviation World := (World Trigger).

(** *** Saving and loading *)

Lemma load_json_at name path (w : World) :
  table_get JSON_FILES name = Return path ->
  load_json Trigger name w
  = match files w !! path with
    | None => (Return (JArr []), w)
    | Some (Json (JObj kv)) =>
        match dict_get name kv with
        | Some v => (Return v, w)
        | None => match kv with
                  | [(_, v)] => (Return v, w)
                  | _ => (Return (JObj kv), w)
                  end
        end
    | Some (Json data) => (Return data, w)
    | Some _ => (Raise JSONDecodeError, w)
    end.
Proof.
  intros Hname. unfold load_json. unfold mbind at 1, M_bind at 1, lift at 1.
  rewrite Hname. cbv beta iota.
  unfold mbind at 1, M_bind at 1, get_world. cbv beta iota.
  destruct (files w !! path) as [[data|data|]|]; try reflexivity.
  unfold mbind, M_bind, lift, json_load. cbv beta iota.
  destruct data as [| | | | |kv]; try reflexivity.
  destruct (dict_get name kv); [reflexivity|].
  destruct kv as [|[k v] [|]]; reflexivity.
Qed.

Lemma save_json_at name path data (w : World) :
  table_get JSON_FILES name = Return path ->
  save_json Trigger name data w
  = match disk_state w with
    | Writable => (Return tt, with_files (<[path := Json data]> (files w)) w)
    | OpenFails => (Raise OSError, w)
    | DumpFails => (Raise OSError, with_files (<[path := Torn data]> (files w)) w)
    end.
Proof.
  intros Hname. unfold save_json, mbind, M_bind, lift. by rewrite Hname.
Qed.

(** X1. What [load_json] gives back after [save_json] wrote [data]
    under the same name: [data] itself when it is not an object, or an
    object without a member called [name] and with a number of members
    other than one; the member called [name] when there is one; the
    only member's value when the object has one member. *)
Theorem save_then_load name path data (w : World) :
  table_get JSON_FILES name = Return path ->
  disk_state w = Writable ->
  let w1 := (save_json Trigger name data w).2 in
  let back := load_json Trigger name w1 in
  back.2 = w1
  /\ ((forall kv, data <> JObj kv) -> back.1 = Return data)
  /\ (forall kv, data = JObj kv -> dict_get name kv = None -> length kv <> 1%nat ->
        back.1 = Return data)
  /\ (forall kv v, data = JObj kv -> dict_get name kv = Some v ->
        back.1 = Return v)
  /\ (forall k v, data = JObj [(k, v)] -> back.1 = Return v).
Proof.
  intros Hname Hdisk w1 back. subst w1 back.
  rewrite (save_json_at _ _ _ _ Hname), Hdisk. cbn [snd].
  rewrite (load_json_at _ _ _ Hname). cbn [files with_files].
  rewrite lookup_insert_eq.
  split; [|split; [|split; [|split]]].
  - destruct data as [| | | | |kv]; try reflexivity.
    destruct (dict_get name kv); [reflexivity|].
    destruct kv as [|[k v] [|]]; reflexivity.
  - intros Hno. destruct data as [| | | | |kv]; try reflexivity.
    by destruct (Hno kv).
  - intros kv -> Hget Hlen. rewrite Hget.
    destruct kv as [|[k v] [|]]; done.
  - intros kv v -> Hget. by rewrite Hget.
  - intros k v ->. simpl. by destruct (String.eqb k name).
Qed.

(** *** The schedule endpoint *)

(** X2. Reading the schedule back: after a document was posted and
    written, a GET returns that document and changes nothing. *)
Theorem get_after_post d (w : World) :
  disk_state w = Writable ->
  let w1 := (api_schedule Trigger CronTrigger POST (schedule_request d) w).2 in
  api_schedule Trigger CronTrigger GET JNull w1
  = (Return (RSchedule (document_json d)), w1).
Proof.
  intros Hdisk w1. subst w1. rewrite (api_schedule_document _ _ _ Hdisk). cbn [snd].
  unfold api_schedule. unfold mbind, M_bind.
  rewrite (load_json_at "cron" cron_path) by reflexivity.
  cbn [files with_trace with_jobs with_files]. rewrite lookup_insert_eq.
  reflexivity.
Qed.

(** X3. A POST without schedule data is answered with status 400 and
    touches neither the disk nor the job store: the body is empty or
    null, or an object without a "schedule" member. *)
Theorem post_without_schedule data (w : World) :
  truthy data = false \/ (exists kv, data = JObj kv /\ dict_get "schedule" kv = None) ->
  api_schedule Trigger CronTrigger POST data w
  = (Return (RError ErrScheduleRequired 400), w).
Proof.
  intros [Hfalse|(kv & -> & Hget)]; unfold api_schedule, mbind, M_bind, lift.
  - by rewrite Hfalse.
  - destruct (truthy (JObj kv)); [|done]. simpl. by rewrite Hget.
Qed.

(** X4. A posted schedule that is not an object is written to the file
    all the same; the rebuild then removes every job and fails at the
    first lookup, so the answer is status 500 and the job store is left
    empty. *)
Theorem post_of_a_non_object kv schedule (w : World) :
  disk_state w = Writable ->
  dict_get "schedule" kv = Some schedule ->
  (forall members, schedule <> JObj members) ->
  api_schedule Trigger CronTrigger POST (JObj kv) w
  = (Return (RError (ErrUpdateFailed AttributeError) 500),
     with_jobs [] (with_files (<[cron_path := Json schedule]> (files w)) w)).
Proof.
  intros Hdisk Hget Hno. unfold api_schedule.
  unfold mbind at 1, M_bind at 1, lift at 1.
  assert (truthy (JObj kv) = true) as -> by (by destruct kv).
  simpl negb. cbv beta iota. unfold py_in. rewrite Hget. simpl.
  unfold try_except. unfold mbind at 1, M_bind at 1, lift at 1.
  rewrite Hget. cbv beta iota.
  unfold mbind at 1, M_bind at 1.
  rewrite (save_json_at "cron" cron_path) by reflexivity. rewrite Hdisk.
  cbv beta iota.
  unfold mbind at 1, M_bind at 1, update_scheduler.
  unfold mbind at 1, M_bind at 1, lift at 1.
  change (table_get JSON_FILES "cron") with (Return (A:=string) cron_path).
  cbv beta iota. unfold mbind at 1, M_bind at 1, get_world. cbv beta iota.
  cbn [files with_files]. rewrite lookup_insert_eq.
  unfold mbind at 1, M_bind at 1, lift at 1, json_load. cbv beta iota.
  unfold mbind at 1, M_bind at 1, remove_all_jobs. cbv beta iota.
  unfold mbind at 1, M_bind at 1, schedule_kind.
  unfold mbind at 1, M_bind at 1, lift at 1.
  destruct schedule as [| | | | |members]; try reflexivity.
  by destruct (Hno members).
Qed.

(** *** The rebuild of the job set on any stored JSON *)

Lemma print_extend l (w : World) :
  print Trigger l w = (Return tt, extend [] [Print l] w).
Proof.
  destruct w; unfold print, emit, extend, with_trace, with_jobs; simpl.
  by rewrite app_nil_r.
Qed.

Lemma getitems_head k item args :
  getitems item (arg_keys k) = Return args ->
  exists what, py_getitem item (default "" (head (arg_keys k))) = Return what.
Proof.
  destruct k; simpl; unfold mbind, outcome_bind, bind;
    (destruct (py_getitem item _) as [v|]; [eauto|done]).
Qed.

Ltac step := unfold mbind at 1, M_bind at 1, lift at 1; cbv beta iota.

(** The loop body on any item: it adds the job of the item, if the item
    has one, and nothing else; it raises only for an item that is not
    an object. *)
Lemma schedule_item_any k i item (w : World) :
  make_id k i ∉ job_id <$> jobs w ->
  exists o ls,
    schedule_item Trigger CronTrigger k i item w
    = (o, extend (option_list (item_job Trigger CronTrigger k i item)) ls w)
    /\ (o = Return tt \/ (forall kv, item <> JObj kv)).
Proof.
  intros Hfresh. unfold schedule_item, item_job.
  destruct item as [| | | | |kv]; cbv beta iota;
    try (exists (Raise AttributeError), [];
         split; [f_equal; symmetry; apply extend_nil|by right]).
  step. cbn [py_get]. cbv beta iota.
  destruct (truthy (default JNull (dict_get "enabled" kv))).
  2:{ exists (Return tt), [].
      split; [f_equal; symmetry; apply extend_nil|by left]. }
  unfold try_except. step. cbn [py_getitem].
  destruct (dict_get "cron" kv) as [c|] eqn:Hcron.
  2:{ exists (Return tt), [Print (LErrorScheduling k i KeyError)].
      split; [apply print_extend|by left]. }
  cbv beta iota. step. unfold py_split.
  destruct c as [| | |c| |];
    try (exists (Return tt), [Print (LErrorScheduling k i AttributeError)];
         split; [apply print_extend|by left]).
  cbv beta iota. unfold trigger_of.
  destruct (split_ws c) as [|mi [|ho [|da [|mo [|dw [|]]]]]];
    try (exists (Return tt), [];
         split; [f_equal; symmetry; apply extend_nil|by left]).
  step.
  destruct (CronTrigger mi ho (unless_star da) (unless_star mo) (unless_star dw))
    as [t|ex].
  2:{ exists (Return tt), [Print (LErrorScheduling k i ex)].
      split; [apply print_extend|by left]. }
  cbv beta iota. step.
  destruct (getitems (JObj kv) (arg_keys k)) as [args|ex] eqn:Hargs.
  2:{ exists (Return tt), [Print (LErrorScheduling k i ex)].
      split; [apply print_extend|by left]. }
  cbv beta iota. unfold mbind at 1, M_bind at 1, add_job. cbn [job_id].
  rewrite bool_decide_eq_false_2 by done.
  step. step.
  destruct (getitems_head _ _ _ Hargs) as [what Hwhat].
  cbn [py_getitem] in Hwhat. rewrite Hwhat. cbv beta iota.
  exists (Return tt), [Print (LScheduled k (JStr c) what)].
  split; [reflexivity|by left].
Qed.

Lemma item_job_Some k i item (j : Job Trigger) :
  item_job Trigger CronTrigger k i item = Some j ->
  job_id j = make_id k i /\ job_name j = make_name k i /\ job_func j = k
  /\ exists kv c t,
       item = JObj kv
       /\ truthy (default JNull (dict_get "enabled" kv)) = true
       /\ dict_get "cron" kv = Some (JStr c)
       /\ trigger_of Trigger CronTrigger c = Some t
       /\ job_trigger j = t
       /\ getitems item (arg_keys k) = Return (job_args j).
Proof.
  unfold item_job. destruct item as [| | | | |kv]; try done.
  destruct (truthy _) eqn:Hen; [|done].
  destruct (dict_get "cron" kv) as [[| | |c| |]|] eqn:Hcron; try done.
  destruct (trigger_of _ _ c) as [t|] eqn:Ht; [|done].
  destruct (getitems _ _) as [args|] eqn:Hargs; [|done].
  intros [= <-]. simpl. do 3 (split; [done|]).
  exists kv, c, t. done.
Qed.

Lemma elem_of_item_jobs k i items (j : Job Trigger) :
  j ∈ item_jobs Trigger CronTrigger k i items
  <-> exists m item, items !! m = Some item
                     /\ item_job Trigger CronTrigger k (i + m) item = Some j.
Proof.
  revert i. induction items as [|item items IH]; intros i; simpl.
  - split; [by intros ?%elem_of_nil|]. by intros (m & e & ? & _).
  - rewrite elem_of_app, IH. split.
    + intros [Hj|(m & e' & Hm & Hj)].
      * exists 0%nat, item. rewrite Nat.add_0_r. split; [done|].
        destruct (item_job _ _ _ _ _) as [j'|]; simpl in Hj;
          [by apply list_elem_of_singleton in Hj as ->|by apply elem_of_nil in Hj].
      * exists (S m), e'. split; [done|]. by rewrite Nat.add_succ_r.
    + intros ([|m] & e' & Hm & Hj); simpl in Hm.
      * left. injection Hm as ->. rewrite Nat.add_0_r in Hj. rewrite Hj.
        apply list_elem_of_singleton. done.
      * right. exists m, e'. split; [done|]. by rewrite Nat.add_succ_r in Hj.
Qed.

Lemma item_jobs_fresh k i k' i' items :
  (k = k' -> (i' + length items <= i)%nat) ->
  fresh_from k i (item_jobs Trigger CronTrigger k' i' items).
Proof.
  intros Hlt n Hn (j & Hid & Hj)%list_elem_of_fmap.
  apply elem_of_item_jobs in Hj as (m & item & Hm & Hjob).
  apply item_job_Some in Hjob as (Hid' & _).
  rewrite Hid' in Hid. apply make_id_inj in Hid as [-> ->].
  apply lookup_lt_Some in Hm. specialize (Hlt eq_refl). lia.
Qed.

Lemma item_jobs_NoDup k i items :
  NoDup (job_id <$> item_jobs Trigger CronTrigger k i items).
Proof.
  revert i. induction items as [|item items IH]; intros i; simpl; [constructor|].
  rewrite fmap_app. apply NoDup_app. split; [|split; [|apply IH]].
  - destruct (item_job _ _ _ _ _); simpl; [apply NoDup_singleton|constructor].
  - intros id Hid (j & -> & Hj)%list_elem_of_fmap.
    apply elem_of_item_jobs in Hj as (m & item' & _ & Hjob).
    apply item_job_Some in Hjob as (Hid' & _).
    destruct (item_job _ _ k i item) as [j0|] eqn:Hj0; simpl in Hid;
      [|by apply elem_of_nil in Hid].
    apply list_elem_of_singleton in Hid.
    apply item_job_Some in Hj0 as (Hid0 & _).
    rewrite Hid', Hid0 in Hid. apply make_id_inj in Hid as [_ ?]. lia.
Qed.

Lemma item_jobs_app k i items1 items2 :
  item_jobs Trigger CronTrigger k i (items1 ++ items2)
  = item_jobs Trigger CronTrigger k i items1
    ++ item_jobs Trigger CronTrigger k (i + length items1) items2.
Proof.
  revert i. induction items1 as [|item items1 IH]; intros i; simpl.
  - by rewrite Nat.add_0_r.
  - rewrite IH, <- app_assoc. by rewrite Nat.add_succ_r.
Qed.

(** The loop over any list of items: the jobs of the items it got
    through are added; it gets through all of them unless it raises. *)
Lemma for_enumerate_any k i items (w : World) :
  fresh_from k i (jobs w) ->
  exists o ls done_,
    for_enumerate Trigger i items (schedule_item Trigger CronTrigger k) w
    = (o, extend (item_jobs Trigger CronTrigger k i done_) ls w)
    /\ done_ `prefix_of` items
    /\ (o = Return tt -> done_ = items).
Proof.
  revert i w. induction items as [|item items IH]; intros i w Hfresh; simpl.
  - exists (Return tt), [], []. split; [|done].
    unfold mret, M_ret. f_equal. symmetry. apply extend_nil.
  - unfold mbind at 1, M_bind at 1.
    destruct (schedule_item_any k i item w) as (o & ls & -> & Ho);
      [apply Hfresh; lia|].
    destruct o as [[]|e].
    + destruct (IH (S i) (extend (option_list (item_job Trigger CronTrigger k i item))
                                 ls w)) as (o' & ls' & done_ & -> & Hpre & Hall).
      { intros n Hn. unfold extend; simpl. rewrite fmap_app, elem_of_app.
        intros [Hin|Hin]; [apply (Hfresh n); [lia|done]|].
        apply list_elem_of_fmap in Hin as (job & Hid & Hjob).
        destruct (item_job _ _ k i item) as [j0|] eqn:Hj0; simpl in Hjob;
          [|by apply elem_of_nil in Hjob].
        apply list_elem_of_singleton in Hjob as ->.
        apply item_job_Some in Hj0 as (Hid0 & _). rewrite Hid0 in Hid.
        apply make_id_inj in Hid as [_ ->]. lia. }
      exists o', (ls ++ ls'), (item :: done_). rewrite extend_extend. simpl.
      split; [done|]. split; [by apply prefix_cons|].
      intros Ho'. by rewrite Hall.
    + exists (Raise e), ls, [item]. simpl. rewrite app_nil_r.
      split; [done|]. split; [|done].
      apply prefix_cons, prefix_nil.
Qed.

Lemma schedule_kind_any cron_data k (w : World) :
  fresh_from k 0 (jobs w) ->
  exists o ls done_,
    schedule_kind Trigger CronTrigger cron_data k w
    = (o, extend (item_jobs Trigger CronTrigger k 0 done_) ls w)
    /\ done_ `prefix_of` kind_items cron_data k
    /\ (o = Return tt -> done_ = kind_items cron_data k).
Proof.
  intros Hfresh. unfold schedule_kind, kind_items. step.
  destruct (py_get cron_data (list_key k) (JArr [])) as [l|e].
  2:{ exists (Raise e), [], []. split; [|done].
      f_equal. symmetry. apply extend_nil. }
  cbv beta iota. step.
  destruct (py_iter l) as [items|e].
  2:{ exists (Raise e), [], []. split; [|done].
      f_equal. symmetry. apply extend_nil. }
  cbv beta iota. by apply for_enumerate_any.
Qed.

(** The jobs that a decoded file stands for, category by category. *)
Lemma update_scheduler_any cron_data (w : World) :
  files w !! cron_path = Some (Json cron_data) ->
  exists o ls p1 p2 p3,
    update_scheduler Trigger CronTrigger w
    = (o, with_trace (trace w ++ ls)
            (with_jobs (item_jobs Trigger CronTrigger station 0 p1
                        ++ item_jobs Trigger CronTrigger promo 0 p2
                        ++ item_jobs Trigger CronTrigger safety 0 p3) w))
    /\ p1 `prefix_of` kind_items cron_data station
    /\ p2 `prefix_of` kind_items cron_data promo
    /\ p3 `prefix_of` kind_items cron_data safety
    /\ (o = Return tt ->
        p1 = kind_items cron_data station /\ p2 = kind_items cron_data promo
        /\ p3 = kind_items cron_data safety).
Proof.
  intros Hfile. unfold update_scheduler. step.
  change (table_get JSON_FILES "cron") with (Return (A:=string) cron_path).
  cbv beta iota. unfold mbind at 1, M_bind at 1, get_world. cbv beta iota.
  rewrite Hfile. step. unfold json_load. cbv beta iota.
  unfold mbind at 1, M_bind at 1, remove_all_jobs. cbv beta iota.
  unfold mbind at 1, M_bind at 1.
  destruct (schedule_kind_any cron_data station (with_jobs [] w))
    as (o1 & ls1 & p1 & -> & Hp1 & Hall1); [intros n _; apply not_elem_of_nil|].
  destruct o1 as [[]|e1].
  2:{ exists (Raise e1), ls1, p1, [], []. simpl. rewrite app_nil_r.
      split; [done|]. split; [done|]. split; [apply prefix_nil|].
      split; [apply prefix_nil|done]. }
  unfold mbind at 1, M_bind at 1.
  destruct (schedule_kind_any cron_data promo
              (extend (item_jobs Trigger CronTrigger station 0 p1) ls1 (with_jobs [] w)))
    as (o2 & ls2 & p2 & -> & Hp2 & Hall2).
  { unfold extend; simpl. apply (item_jobs_fresh promo 0 station 0 p1). intros [=]. }
  destruct o2 as [[]|e2].
  2:{ exists (Raise e2), (ls1 ++ ls2), p1, p2, []. rewrite extend_extend.
      simpl. rewrite app_nil_r.
      split; [done|]. split; [done|]. split; [done|].
      split; [apply prefix_nil|done]. }
  unfold mbind at 1, M_bind at 1.
  destruct (schedule_kind_any cron_data safety
              (extend (item_jobs Trigger CronTrigger promo 0 p2) ls2
                 (extend (item_jobs Trigger CronTrigger station 0 p1) ls1
                    (with_jobs [] w))))
    as (o3 & ls3 & p3 & -> & Hp3 & Hall3).
  { unfold extend; simpl. intros n Hn. rewrite fmap_app, elem_of_app.
    intros [Hin|Hin].
    - exact (item_jobs_fresh safety 0 station 0 p1 ltac:(intros [=]) n Hn Hin).
    - exact (item_jobs_fresh safety 0 promo 0 p2 ltac:(intros [=]) n Hn Hin). }
  rewrite !extend_extend.
  destruct o3 as [[]|e3].
  - exists (Return tt), ((ls1 ++ ls2) ++ ls3 ++ [Print LSchedulerUpdated]), p1, p2, p3.
    split.
    + unfold print, emit, extend, with_trace, with_jobs; simpl.
      by rewrite <- !app_assoc.
    + do 3 (split; [done|]). intros _. auto.
  - exists (Raise e3), ((ls1 ++ ls2) ++ ls3), p1, p2, p3.
    split.
    + unfold extend, with_trace, with_jobs; simpl. by rewrite <- !app_assoc.
    + do 3 (split; [done|]). done.
Qed.

Lemma item_jobs_disjoint k k' i i' items items' id :
  k <> k' ->
  id ∈ job_id <$> item_jobs Trigger CronTrigger k i items ->
  id ∉ job_id <$> item_jobs Trigger CronTrigger k' i' items'.
Proof.
  intros Hne (j & -> & Hj)%list_elem_of_fmap (j' & Hid & Hj')%list_elem_of_fmap.
  apply elem_of_item_jobs in Hj as (m & item & _ & Hjob).
  apply elem_of_item_jobs in Hj' as (m' & item' & _ & Hjob').
  apply item_job_Some in Hjob as (Hi & _).
  apply item_job_Some in Hjob' as (Hi' & _).
  rewrite Hi, Hi' in Hid. by apply make_id_inj in Hid as [? _].
Qed.

Lemma item_jobs_origin k items p (j : Job Trigger) :
  p `prefix_of` items ->
  j ∈ item_jobs Trigger CronTrigger k 0 p ->
  exists i kv c,
    items !! i = Some (JObj kv)
    /\ truthy (default JNull (dict_get "enabled" kv)) = true
    /\ dict_get "cron" kv = Some (JStr c)
    /\ trigger_of Trigger CronTrigger c = Some (job_trigger j)
    /\ getitems (JObj kv) (arg_keys k) = Return (job_args j)
    /\ job_id j = make_id k i
    /\ job_func j = k.
Proof.
  intros Hp (m & item & Hm & Hjob)%elem_of_item_jobs.
  apply item_job_Some in Hjob
    as (Hid & _ & Hfunc & kv & c & t & -> & Hen & Hcron & Ht & <- & Hargs).
  exists m, kv, c. split; [by eapply prefix_lookup_Some|]. done.
Qed.

Lemma item_job_complete k i kv c t args :
  truthy (default JNull (dict_get "enabled" kv)) = true ->
  dict_get "cron" kv = Some (JStr c) ->
  trigger_of Trigger CronTrigger c = Some t ->
  getitems (JObj kv) (arg_keys k) = Return args ->
  item_job Trigger CronTrigger k i (JObj kv)
  = Some {| job_id := make_id k i; job_name := make_name k i; job_func := k;
            job_trigger := t; job_args := args |}.
Proof.
  intros Hen Hcron Ht Hargs. unfold item_job. by rewrite Hen, Hcron, Ht, Hargs.
Qed.

(** X5. The rebuild of the job set, whatever the schedule file holds.
    Without a file, or with a file that does not decode, nothing is
    changed and the jobs registered before stay. Otherwise the store is
    replaced: its ids are pairwise distinct, and every job in it comes
    from an item of its category's list that is an object with a true
    "enabled" member, a five-field "cron" string accepted by the
    trigger constructor and all the members that the category's
    announcement takes as arguments; the job carries these arguments
    and the id made from the category and the item's index. When the
    rebuild runs to its end, the store holds the job of every such
    item; an enabled item that lacks an argument member has no job,
    although the rebuild runs to its end. Nothing is said about the
    order in which the scheduler lists the jobs. *)
Theorem rebuild_on_any_file (w : World) :
  let r := update_scheduler Trigger CronTrigger w in
  match files w !! cron_path with
  | None => r = (Return tt, w)
  | Some (Json cron_data) =>
      files r.2 = files w
      /\ NoDup (job_id <$> jobs r.2)
      /\ (forall j, j ∈ jobs r.2 ->
            exists i kv c,
              kind_items cron_data (job_func j) !! i = Some (JObj kv)
              /\ truthy (default JNull (dict_get "enabled" kv)) = true
              /\ dict_get "cron" kv = Some (JStr c)
              /\ trigger_of Trigger CronTrigger c = Some (job_trigger j)
              /\ getitems (JObj kv) (arg_keys (job_func j)) = Return (job_args j)
              /\ job_id j = make_id (job_func j) i)
      /\ (r.1 = Return tt ->
          forall k i kv c t args,
            kind_items cron_data k !! i = Some (JObj kv) ->
            truthy (default JNull (dict_get "enabled" kv)) = true ->
            dict_get "cron" kv = Some (JStr c) ->
            trigger_of Trigger CronTrigger c = Some t ->
            getitems (JObj kv) (arg_keys k) = Return args ->
            {| job_id := make_id k i; job_name := make_name k i; job_func := k;
               job_trigger := t; job_args := args |} ∈ jobs r.2)
  | Some _ => r = (Raise JSONDecodeError, w)
  end.
Proof.
  intros r. subst r.
  destruct (files w !! cron_path) as [[cron_data|torn|]|] eqn:Hfile.
  - destruct (update_scheduler_any cron_data w Hfile)
      as (o & ls & p1 & p2 & p3 & -> & Hp1 & Hp2 & Hp3 & Hall).
    cbn [fst snd files jobs with_trace with_jobs].
    split; [done|]. split; [|split].
    + rewrite !fmap_app. apply NoDup_app. split; [apply item_jobs_NoDup|].
      split; [|apply NoDup_app; split; [apply item_jobs_NoDup|];
               split; [|apply item_jobs_NoDup]].
      * intros id Hid. rewrite elem_of_app. intros [Hin|Hin].
        -- exact (item_jobs_disjoint station promo _ _ _ _ id ltac:(done) Hid Hin).
        -- exact (item_jobs_disjoint station safety _ _ _ _ id ltac:(done) Hid Hin).
      * intros id Hid Hin.
        exact (item_jobs_disjoint promo safety _ _ _ _ id ltac:(done) Hid Hin).
    + intros j. rewrite !elem_of_app.
      intros [Hj|[Hj|Hj]];
        [destruct (item_jobs_origin station _ _ j Hp1 Hj)
           as (i & kv & c & ? & ? & ? & ? & ? & ? & Hf)
        |destruct (item_jobs_origin promo _ _ j Hp2 Hj)
           as (i & kv & c & ? & ? & ? & ? & ? & ? & Hf)
        |destruct (item_jobs_origin safety _ _ j Hp3 Hj)
           as (i & kv & c & ? & ? & ? & ? & ? & ? & Hf)];
        exists i, kv, c; rewrite Hf; done.
    + intros ->. destruct (Hall eq_refl) as (-> & -> & ->).
      intros k i kv c t args Hitem Hen Hcron Ht Hargs.
      pose proof (item_job_complete k i kv c t args Hen Hcron Ht Hargs) as Hjob.
      assert (forall k', k' = k ->
                {| job_id := make_id k i; job_name := make_name k i; job_func := k;
                   job_trigger := t; job_args := args |}
                ∈ item_jobs Trigger CronTrigger k' 0 (kind_items cron_data k'))
        as Hin.
      { intros k' ->. apply elem_of_item_jobs. by exists i, (JObj kv). }
      rewrite !elem_of_app. destruct k; auto.
  - unfold update_scheduler, mbind, M_bind, lift, get_world, json_load.
    change (table_get JSON_FILES "cron") with (Return (A:=string) cron_path).
    cbv beta iota. by rewrite Hfile.
  - unfold update_scheduler, mbind, M_bind, lift, get_world, json_load.
    change (table_get JSON_FILES "cron") with (Return (A:=string) cron_path).
    cbv beta iota. by rewrite Hfile.
  - unfold update_scheduler, mbind, M_bind, lift, get_world.
    change (table_get JSON_FILES "cron") with (Return (A:=string) cron_path).
    cbv beta iota. by rewrite Hfile.
Qed.

End WithLibrary.
End Win64MoreFacts.

(** ** Handlers, the key check and the command line *)

Module HandlersFacts.
Import Win64 Win64Facts Win64More.

Section WithLibrary.

Context {Trigger : Type}.

#[local] Abbreviation World := (World Trigger).

Lemma missing_fields_dict kv required_fields :
  missing_fields (JObj kv) required_fields
  = Return (filter (fun f => truthy (default JNull (dict_get f kv)) = false)
              required_fields).
Proof.
  induction required_fields as [|f rest IH]; simpl; [done|].
  rewrite IH. unfold mbind, outcome_bind, bind. rewrite filter_cons.
  destruct (truthy (default JNull (dict_get f kv))); done.
Qed.

Lemma api_station_announcement_complete kv a b c d (w : World) :
  dict_get "train_number" kv = Some a -> dict_get "direction" kv = Some b ->
  dict_get "destination" kv = Some c -> dict_get "track_number" kv = Some d ->
  truthy a = true -> truthy b = true -> truthy c = true -> truthy d = true ->
  api_station_announcement Trigger (JObj kv) w
  = (Return (RTriggered station [a; b; c; d]),
     with_trace
       (trace w
        ++ [ Print (LStationAnnouncement a b c d);
             StartThread
               (TPlaySequence
                  [ "static/mp3/chime.mp3";
                    path_join "static/mp3/train" (mp3 a);
                    path_join "static/mp3/direction" (mp3 b);
                    path_join "static/mp3/destination" (mp3 c);
                    path_join "static/mp3/track" (mp3 d) ]) ]) w).
Proof.
  intros Ea Eb Ec Ed Ha Hb Hc Hd.
  unfold api_station_announcement. unfold mbind at 1, M_bind at 1, lift at 1.
  unfold validate_announcement_params. rewrite missing_fields_dict.
  unfold mbind at 1, outcome_bind at 1, bind at 1.
  rewrite !filter_cons, filter_nil, Ea, Eb, Ec, Ed.
  change (truthy (default JNull (Some a)) = true) in Ha.
  change (truthy (default JNull (Some b)) = true) in Hb.
  change (truthy (default JNull (Some c)) = true) in Hc.
  change (truthy (default JNull (Some d)) = true) in Hd.
  rewrite Ha, Hb, Hc, Hd. rewrite !decide_False by done.
  cbv beta iota delta [negb try_except py_getitem].
  unfold mbind, M_bind, lift. rewrite Ea, Eb, Ec, Ed. cbv beta iota.
  by rewrite PlayerFacts.play_station_announcement_events.
Qed.


Lemma api_station_announcement_not_object data (w : World) :
  (forall kv, data <> JObj kv) ->
  api_station_announcement Trigger data w = (Raise AttributeError, w).
Proof.
  intros Hno. destruct data as [| | | | |kv]; try reflexivity.
  by destruct (Hno kv).
Qed.

(** X7. The web route for promos checks nothing: without a "file"
    field it raises, with one it starts the playback of the file joined
    to the promo directory, and a name that begins with a slash is
    played as it stands, outside that directory. *)
Theorem play_promo_route_file form (w : World) :
  play_promo_route Trigger form w
  = match dict_get "file" form with
    | None => (Raise TypeError, w)
    | Some file =>
        (Return (RText "Promo announcement played."),
         with_trace
           (trace w ++ [StartThread (TPlayAudio (path_join "static/mp3/promo" file))])
           w)
    end
  /\ forall name, path_join "static/mp3/promo" (String "/" name) = String "/" name.
Proof.
  split; [|done].
  unfold play_promo_route, play_promo, form_get, mbind, M_bind, lift, emit.
  destruct (dict_get "file" form); reflexivity.
Qed.

(** *** The key check *)

Lemma or_else_first_given header query form :
  match or_else (or_else header query) form with
  | Some (String c s) => first_given header query form = Some (String c s)
  | _ => first_given header query form = None
  end.
Proof.
  unfold first_given.
  destruct header as [[|]|], query as [[|]|], form as [[|]|]; reflexivity.
Qed.

(** X8. The key check in front of the API handlers: the handler runs
    exactly when the first non-empty one of the header, the query
    parameter and the form field is the configured key; in every other
    case the answer is status 401 and the handler is not run, so the
    world is as before. The answer "API is disabled" never occurs. *)
Theorem api_key_required_decides {A} (f : M Trigger A) header query form (w : World) :
  api_key_required Trigger f header query form w
  = match first_given header query form with
    | None => (Return (Refused KeyRequired 401), w)
    | Some key =>
        if String.eqb key API_KEY
        then match f w with
             | (Return a, w') => (Return (Passed a), w')
             | (Raise e, w') => (Raise e, w')
             end
        else (Return (Refused InvalidKey 401), w)
    end.
Proof.
  unfold api_key_required. cbn [API_ENABLED negb].
  pose proof (or_else_first_given header query form) as Hfirst.
  destruct (or_else (or_else header query) form) as [[|c s]|]; rewrite Hfirst;
    try reflexivity.
  destruct (String.eqb (String c s) API_KEY); [|reflexivity].
  cbn [negb]. unfold mbind, M_bind. by destruct (f w) as [[a|e] w'].
Qed.

(** *** The command line *)

(** *** The API handlers that check a list *)

Lemma py_eq_string f (ids : list string) :
  existsb (py_eq (JStr f)) (JStr <$> ids) = bool_decide (f ∈ ids).
Proof.
  induction ids as [|id ids IH]; [done|].
  cbn [fmap list_fmap existsb]. rewrite IH.
  change (py_eq (JStr f) (JStr id)) with (String.eqb f id).
  destruct (String.eqb f id) eqn:Hid.
  - apply String.eqb_eq in Hid as ->. simpl.
    by rewrite bool_decide_eq_true_2 by apply list_elem_of_here.
  - apply String.eqb_neq in Hid. simpl.
    apply bool_decide_ext. rewrite elem_of_cons.
    split; [by right|]. by intros [->|?].
Qed.

Lemma str_items_strings (ids : list string) : str_items (JStr <$> ids) = Return ids.
Proof.
  induction ids as [|id ids IH]; [done|].
  cbn [fmap list_fmap str_items]. by rewrite IH.
Qed.

Lemma truthy_string s : s <> "" -> truthy (JStr s) = true.
Proof. by destruct s. Qed.

(** X9. The API handler for promos plays only what the promo file
    lists: with a list of entries whose ids are strings in that file and
    a file name that is not empty, the promo is started when the name is
    one of the ids, and otherwise the answer is the refusal with the ids
    and nothing is started. *)
Theorem api_promo_announcement_checks_the_list kv file items ids (w : World) :
  files w !! "json/promo.json" = Some (Json (JArr items)) ->
  ids_of items = Return (JStr <$> ids) ->
  dict_get "file" kv = Some (JStr file) ->
  file <> "" ->
  api_promo_announcement Trigger (JObj kv) w
  = if bool_decide (file ∈ ids)
    then (Return (Answer (RTriggered promo [JStr file])),
          with_trace
            (trace w ++ [StartThread (TPlayAudio (path_join "static/mp3/promo" file))])
            w)
    else (Return (NotAvailable promo (JStr file) ids), w).
Proof.
  intros Hfile Hids Hget Hne.
  unfold api_promo_announcement. unfold mbind at 1, M_bind at 1, lift at 1.
  unfold validate_announcement_params. rewrite missing_fields_dict.
  unfold mbind at 1, outcome_bind at 1, bind at 1.
  rewrite filter_cons, filter_nil, Hget.
  change (default JNull (Some (JStr file))) with (JStr file).
  rewrite truthy_string by done. rewrite decide_False by done.
  cbv beta iota delta [negb].
  unfold mbind at 1, M_bind at 1.
  rewrite (Win64MoreFacts.load_json_at "promo" "json/promo.json") by reflexivity.
  rewrite Hfile. cbv beta iota.
  unfold mbind at 1, M_bind at 1, lift at 1. cbn [py_iter].
  unfold mbind at 1, M_bind at 1, lift at 1. rewrite Hids. cbv beta iota.
  unfold mbind at 1, M_bind at 1, lift at 1. cbn [py_getitem]. rewrite Hget.
  cbv beta iota. rewrite py_eq_string.
  destruct (bool_decide (file ∈ ids)); cbn [negb].
  - unfold try_except, play_promo, mbind, M_bind, lift, emit. reflexivity.
  - unfold mbind, M_bind, lift. by rewrite str_items_strings.
Qed.

(** X10. The API handler for safety announcements does the same with
    the languages of the safety file. *)
Theorem api_safety_announcement_checks_the_list kv language items ids (w : World) :
  files w !! "json/safety.json" = Some (Json (JArr items)) ->
  ids_of items = Return (JStr <$> ids) ->
  dict_get "language" kv = Some (JStr language) ->
  language <> "" ->
  api_safety_announcement Trigger (JObj kv) w
  = if bool_decide (language ∈ ids)
    then (Return (Answer (RTriggered safety [JStr language])),
          with_trace
            (trace w
             ++ [StartThread
                   (TPlayAudio (path_join "static/mp3/safety"
                                  ("safety_" +:+ language +:+ ".mp3")))])
            w)
    else (Return (NotAvailable safety (JStr language) ids), w).
Proof.
  intros Hfile Hids Hget Hne.
  unfold api_safety_announcement. unfold mbind at 1, M_bind at 1, lift at 1.
  unfold validate_announcement_params. rewrite missing_fields_dict.
  unfold mbind at 1, outcome_bind at 1, bind at 1.
  rewrite filter_cons, filter_nil, Hget.
  change (default JNull (Some (JStr language))) with (JStr language).
  rewrite truthy_string by done. rewrite decide_False by done.
  cbv beta iota delta [negb].
  unfold mbind at 1, M_bind at 1.
  rewrite (Win64MoreFacts.load_json_at "safety" "json/safety.json") by reflexivity.
  rewrite Hfile. cbv beta iota.
  unfold mbind at 1, M_bind at 1, lift at 1. cbn [py_iter].
  unfold mbind at 1, M_bind at 1, lift at 1. rewrite Hids. cbv beta iota.
  unfold mbind at 1, M_bind at 1, lift at 1. cbn [py_getitem]. rewrite Hget.
  cbv beta iota. rewrite py_eq_string.
  destruct (bool_decide (language ∈ ids)); cbn [negb].
  - unfold try_except, play_safety, mbind, M_bind, lift, emit. reflexivity.
  - unfold mbind, M_bind, lift. by rewrite str_items_strings.
Qed.

(** X11. One announcement, three ways in: for four values that are not
    empty, [--station] on the command line, the API handler on an object
    with these members and a station job run by the scheduler print the
    same line and start the same sequence of clips, and do nothing
    else. *)
Theorem station_entry_points_agree test_audio_system serve args kv j (w : World)
    train direction destination track :
  train <> "" -> direction <> "" -> destination <> "" -> track <> "" ->
  arg_test_audio args = false -> arg_station args = true ->
  arg_train args = Some train -> arg_direction args = Some direction ->
  arg_destination args = Some destination -> arg_track args = Some track ->
  dict_get "train_number" kv = Some (JStr train) ->
  dict_get "direction" kv = Some (JStr direction) ->
  dict_get "destination" kv = Some (JStr destination) ->
  dict_get "track_number" kv = Some (JStr track) ->
  job_func j = station ->
  job_args j = [JStr train; JStr direction; JStr destination; JStr track] ->
  let w' :=
    with_trace
      (trace w
       ++ [ Print (LStationAnnouncement (JStr train) (JStr direction)
                     (JStr destination) (JStr track));
            StartThread
              (TPlaySequence
                 [ "static/mp3/chime.mp3";
                   path_join "static/mp3/train" (train +:+ ".mp3");
                   path_join "static/mp3/direction" (direction +:+ ".mp3");
                   path_join "static/mp3/destination" (destination +:+ ".mp3");
                   path_join "static/mp3/track" (track +:+ ".mp3") ]) ]) w in
  handle_cli Trigger test_audio_system serve args w = (Return [], w')
  /\ api_station_announcement Trigger (JObj kv) w
     = (Return (RTriggered station
                  [JStr train; JStr direction; JStr destination; JStr track]),
        w')
  /\ run_job Trigger j w = (Return tt, w').
Proof.
  intros Htrain Hdirection Hdestination Htrack Htest Hstation Ha Hb Hc Hd
    Ka Kb Kc Kd Hfunc Hargs w'. subst w'.
  assert (forall s, s <> "" -> truthy (JStr s) = true) as Htruthy.
  { intros [|? ?]; done. }
  split; [|split].
  - unfold handle_cli. rewrite Htest, Hstation, Ha, Hb, Hc, Hd.
    assert (forall s, s <> "" -> given (Some s) = true) as Hgiven.
    { intros [|? ?]; done. }
    rewrite !Hgiven by done. cbn [andb arg_json].
    unfold mbind, M_bind.
    by rewrite PlayerFacts.play_station_announcement_events.
  - by rewrite (api_station_announcement_complete kv _ _ _ _ w Ka Kb Kc Kd)
      by (by apply Htruthy).
  - unfold run_job. rewrite Hfunc, Hargs.
    by rewrite PlayerFacts.play_station_announcement_events.
Qed.

End WithLibrary.
End HandlersFacts.

(** ** The marker of the current announcement *)

Module MarkerFacts.
Import Win64 Win64More Marker.

Section WithLibrary.

Variable Trigger : Type.
Variable CronTrigger :
  string -> string -> option string -> option string -> option string ->
  outcome Trigger.

#[local] Existing Instance M_ret.
#[local] Existing Instance M_bind.

#[local] Abbreviation M := (M Trigger).
#[local] Abbreviation World := (World Trigger).
#[local] Abbreviation only_clears := (only_clears Trigger).
#[local] Abbreviation assigns_none :=
  (Forall (fun ev => forall v, ev = AssignCurrentAnnouncement v -> v = None)).

(** *** Replaying steps *)

Lemma marker_after_app m evs1 evs2 :
  marker_after m (evs1 ++ evs2) = marker_after (marker_after m evs1) evs2.
Proof.
  revert m. induction evs1 as [|ev evs1 IH]; intros m; [done|].
  destruct ev; simpl; apply IH.
Qed.

Lemma starts_with_empty_marker_app m evs1 evs2 :
  starts_with_empty_marker m (evs1 ++ evs2)
  = starts_with_empty_marker m evs1
    && starts_with_empty_marker (marker_after m evs1) evs2.
Proof.
  revert m. induction evs1 as [|ev evs1 IH]; intros m; [done|].
  destruct ev; simpl; rewrite ?IH, ?andb_assoc; done.
Qed.


(** *** The parts of a handler *)

Lemma only_clears_same {A} (c : M A) :
  (forall w, trace (c w).2 = trace w
             /\ current_announcement (c w).2 = current_announcement w) ->
  only_clears c.
Proof.
  intros H w. destruct (H w) as [Ht Hc]. exists []. rewrite app_nil_r.
  split; [done|]. split; [constructor|done].
Qed.

Lemma only_clears_ret {A} (a : A) : only_clears (mret a).
Proof. by apply only_clears_same. Qed.

Lemma only_clears_lift {A} (o : outcome A) : only_clears (lift Trigger o).
Proof. by apply only_clears_same. Qed.

Lemma only_clears_get_world : only_clears (get_world Trigger).
Proof. by apply only_clears_same. Qed.

Lemma only_clears_path_exists path : only_clears (path_exists Trigger path).
Proof. by apply only_clears_same. Qed.

Lemma only_clears_remove_all_jobs : only_clears (remove_all_jobs Trigger).
Proof. by apply only_clears_same. Qed.

Lemma only_clears_add_job j : only_clears (add_job Trigger j).
Proof.
  apply only_clears_same. intros w. unfold add_job.
  by destruct (bool_decide _).
Qed.

Lemma only_clears_open_and_dump path data :
  only_clears (open_and_dump Trigger path data).
Proof.
  apply only_clears_same. intros w. unfold open_and_dump.
  by destruct (disk_state w).
Qed.

Lemma only_clears_emit ev :
  (forall v, ev <> AssignCurrentAnnouncement v) -> only_clears (emit Trigger ev).
Proof.
  intros Hev w. exists [ev]. split; [done|]. split.
  - constructor; [|constructor]. intros v ->. by destruct (Hev v).
  - destruct ev; try done. by destruct (Hev v).
Qed.

Lemma only_clears_print l : only_clears (print Trigger l).
Proof. by apply only_clears_emit. Qed.

(** The one function that assigns the marker. *)
Lemma only_clears_stop_safety_announcement :
  only_clears (stop_safety_announcement Trigger).
Proof.
  intros w. exists [AssignCurrentAnnouncement None]. split; [done|]. split; [|done].
  constructor; [|constructor]. by intros v [= <-].
Qed.

Lemma only_clears_bind {A B} (c : M A) (k : A -> M B) :
  only_clears c -> (forall a, only_clears (k a)) -> only_clears (c ≫= k).
Proof.
  intros Hc Hk w. unfold mbind, M_bind.
  destruct (Hc w) as (evs1 & Ht1 & Hn1 & Hm1).
  destruct (c w) as [[a|e] w1] eqn:Hcw; simpl in *.
  - destruct (Hk a w1) as (evs2 & Ht2 & Hn2 & Hm2).
    exists (evs1 ++ evs2). rewrite Ht2, Ht1, Hm2, Hm1, marker_after_app, app_assoc.
    split; [done|]. split; [by apply Forall_app|done].
  - by exists evs1.
Qed.

Lemma only_clears_try_except {A} (body : M A) (handler : exn -> M A) :
  only_clears body -> (forall e, only_clears (handler e)) ->
  only_clears (try_except Trigger body handler).
Proof.
  intros Hc Hk w. unfold try_except.
  destruct (Hc w) as (evs1 & Ht1 & Hn1 & Hm1).
  destruct (body w) as [[a|e] w1] eqn:Hcw; simpl in *.
  - by exists evs1.
  - destruct (Hk e w1) as (evs2 & Ht2 & Hn2 & Hm2).
    exists (evs1 ++ evs2). rewrite Ht2, Ht1, Hm2, Hm1, marker_after_app, app_assoc.
    split; [done|]. split; [by apply Forall_app|done].
Qed.

Lemma only_clears_for_enumerate {A} i (l : list A) body :
  (forall i x, only_clears (body i x)) ->
  only_clears (for_enumerate Trigger i l body).
Proof.
  intros Hbody. revert i. induction l as [|x l IH]; intros i; simpl.
  - apply only_clears_ret.
  - apply only_clears_bind; [apply Hbody|intros _; apply IH].
Qed.

Lemma only_clears_for_each {A} (l : list A) body :
  (forall x, only_clears (body x)) -> only_clears (for_each Trigger l body).
Proof.
  intros Hbody. induction l as [|x l IH]; simpl.
  - apply only_clears_ret.
  - apply only_clears_bind; [apply Hbody|intros _; apply IH].
Qed.

(** Takes a handler apart into the parts above. *)
Ltac parts :=
  repeat first
    [ apply only_clears_ret
    | apply only_clears_lift
    | apply only_clears_get_world
    | apply only_clears_path_exists
    | apply only_clears_remove_all_jobs
    | apply only_clears_add_job
    | apply only_clears_open_and_dump
    | apply only_clears_print
    | apply only_clears_stop_safety_announcement
    | apply only_clears_emit; intros ?; discriminate
    | apply only_clears_bind; [|intros ?]
    | apply only_clears_try_except; [|intros ?]
    | apply only_clears_for_enumerate; intros ? ?
    | apply only_clears_for_each; intros ?
    | match goal with
      | |- Marker.only_clears _ (match ?x with _ => _ end) => destruct x
      end ].

(** *** The functions of the application *)

Lemma only_clears_play_audio_sequence file_list :
  only_clears (play_audio_sequence Trigger file_list).
Proof. unfold play_audio_sequence. parts. Qed.

Lemma only_clears_load_json name : only_clears (load_json Trigger name).
Proof. unfold load_json. parts. Qed.

Lemma only_clears_save_json name data : only_clears (save_json Trigger name data).
Proof. unfold save_json. parts. Qed.

Lemma only_clears_play_station_announcement a b c d :
  only_clears (play_station_announcement Trigger a b c d).
Proof. unfold play_station_announcement. parts. Qed.

Lemma only_clears_play_promo file : only_clears (play_promo Trigger file).
Proof. unfold play_promo. parts. Qed.

Lemma only_clears_play_safety language : only_clears (play_safety Trigger language).
Proof. unfold play_safety. parts. Qed.

Lemma only_clears_schedule_item k i item :
  only_clears (schedule_item Trigger CronTrigger k i item).
Proof. unfold schedule_item. parts. Qed.

Lemma only_clears_schedule_kind cron_data k :
  only_clears (schedule_kind Trigger CronTrigger cron_data k).
Proof. unfold schedule_kind. parts. Qed.

Lemma only_clears_update_scheduler :
  only_clears (update_scheduler Trigger CronTrigger).
Proof. unfold update_scheduler. parts. Qed.





End WithLibrary.
End MarkerFacts.

(** ** Text: substrings, splitting, joining and stripping *)

Module TextFacts.
Import CronFacts DebArmMore.

Lemma append_assoc s1 s2 s3 : (s1 +:+ s2) +:+ s3 = s1 +:+ (s2 +:+ s3).
Proof.
  induction s1 as [|a s1 IH]; [done|].
  change ((String a s1 +:+ s2) +:+ s3) with (String a ((s1 +:+ s2) +:+ s3)).
  by rewrite IH.
Qed.

Lemma rev_app_append s1 s2 acc :
  String.rev_app (s1 +:+ s2) acc = String.rev_app s2 (String.rev_app s1 acc).
Proof.
  revert acc. induction s1 as [|a s1 IH]; intros acc; [done|].
  change (String a s1 +:+ s2) with (String a (s1 +:+ s2)). simpl. apply IH.
Qed.

(** *** Prefixes and substrings across a separator *)

Lemma prefix_of_sep m A c B :
  contains c m = false ->
  prefix_of m (A +:+ String c B) = prefix_of m A.
Proof.
  revert A. induction m as [|a m IH]; intros A Hc; [by destruct A|].
  simpl in Hc. apply orb_false_iff in Hc as [Ha Hm].
  destruct A as [|b A].
  - change ("" +:+ String c B) with (String c B). simpl. by rewrite Ha.
  - change (String b A +:+ String c B) with (String b (A +:+ String c B)).
    simpl. by rewrite IH.
Qed.

Lemma substring_of_cons m a s :
  substring_of m (String a s) = prefix_of m (String a s) || substring_of m s.
Proof. reflexivity. Qed.

Lemma substring_of_empty m : substring_of m "" = prefix_of m "".
Proof. simpl. apply orb_false_r. Qed.

Lemma substring_of_sep m A c B :
  contains c m = false ->
  substring_of m (A +:+ String c B) = substring_of m A || substring_of m B.
Proof.
  intros Hc. induction A as [|a A IH].
  - change ("" +:+ String c B) with (String c B).
    rewrite substring_of_cons, substring_of_empty.
    by rewrite <- (prefix_of_sep m "" c B Hc).
  - change (String a A +:+ String c B) with (String a (A +:+ String c B)).
    rewrite !substring_of_cons, IH.
    change (String a (A +:+ String c B)) with (String a A +:+ String c B).
    rewrite prefix_of_sep by done. by rewrite orb_assoc.
Qed.

Lemma substring_of_join m sep ls :
  contains sep m = false -> prefix_of m "" = false ->
  substring_of m (join (String sep "") ls) = true ->
  exists l, l ∈ ls /\ substring_of m l = true.
Proof.
  intros Hsep Hne. induction ls as [|x ls IH].
  - simpl. by rewrite Hne.
  - destruct ls as [|y ls].
    + intros Hx. exists x. split; [apply list_elem_of_here|done].
    + change (join (String sep "") (x :: y :: ls))
        with (x +:+ String sep (join (String sep "") (y :: ls))).
      rewrite substring_of_sep by done.
      intros [Hx|Hrest]%orb_true_iff.
      * exists x. split; [apply list_elem_of_here|done].
      * destruct (IH Hrest) as (l & Hl & Hm).
        exists l. split; [by apply list_elem_of_further|done].
Qed.

Lemma substring_of_lstrip m s :
  substring_of m (lstrip s) = true -> substring_of m s = true.
Proof.
  induction s as [|a s IH]; [done|].
  simpl lstrip. destruct (isspace a); [|done].
  intros Hm. rewrite substring_of_cons, IH by done. apply orb_true_r.
Qed.

(** A piece of a split is a part of the text. *)
Lemma substring_of_piece m sep cur s p :
  contains sep m = false ->
  p ∈ split_on_go sep cur s ->
  substring_of m p = true -> substring_of m (cur +:+ s) = true.
Proof.
  intros Hsep. revert cur. induction s as [|a s IH]; intros cur; simpl.
  - intros ->%list_elem_of_singleton. by rewrite append_empty_r.
  - destruct (ascii_eqb a sep) eqn:Ha.
    + apply bool_decide_eq_true in Ha as ->.
      rewrite elem_of_cons. intros [->|Hp] Hm.
      * rewrite substring_of_sep by done. by rewrite Hm.
      * rewrite substring_of_sep by done.
        pose proof (IH "" Hp Hm) as Hs. change ("" +:+ s) with s in Hs.
        rewrite Hs. apply orb_true_r.
    + intros Hp Hm. rewrite <- snoc_append. by apply IH.
Qed.

(** *** Splitting and joining *)

Lemma split_on_go_sep sep cur A B :
  split_on_go sep cur (A +:+ String sep B)
  = split_on_go sep cur A ++ split_on_go sep "" B.
Proof.
  revert cur. induction A as [|a A IH]; intros cur.
  - change ("" +:+ String sep B) with (String sep B). simpl.
    unfold ascii_eqb. by rewrite bool_decide_eq_true_2.
  - change (String a A +:+ String sep B) with (String a (A +:+ String sep B)).
    simpl. destruct (ascii_eqb a sep); [|apply IH].
    by rewrite IH.
Qed.

Lemma split_on_sep sep A B :
  split_on sep (A +:+ String sep B) = split_on sep A ++ split_on sep B.
Proof. apply split_on_go_sep. Qed.

Lemma join_split_on_go sep cur s :
  join (String sep "") (split_on_go sep cur s) = cur +:+ s.
Proof.
  revert cur. induction s as [|a s IH]; intros cur; simpl.
  - by rewrite append_empty_r.
  - destruct (ascii_eqb a sep) eqn:Ha.
    + apply bool_decide_eq_true in Ha as ->.
      pose proof (IH "") as Hrest.
      destruct (split_on_go sep "" s) as [|y ys] eqn:Hsplit.
      * destruct s; simpl in Hsplit; [done|].
        by destruct (ascii_eqb _ _).
      * change (join (String sep "") (cur :: y :: ys))
          with (cur +:+ String sep "" +:+ join (String sep "") (y :: ys)).
        by rewrite Hrest.
    + rewrite IH. apply snoc_append.
Qed.

(** ['\n'.join(s.split('\n'))] is [s]. *)
Lemma join_split_on sep s : join (String sep "") (split_on sep s) = s.
Proof. apply join_split_on_go. Qed.

Lemma split_on_join_lines sep l :
  l <> [] ->
  Forall (fun x => contains sep x = false) l ->
  split_on sep (join (String sep "") l) = l.
Proof.
  intros Hne Hall. induction Hall as [|x l Hx Hl IH]; [done|].
  destruct l as [|y l]; [by apply split_on_absent|].
  change (join (String sep "") (x :: y :: l))
    with (x +:+ String sep (join (String sep "") (y :: l))).
  rewrite split_on_sep, split_on_absent by done.
  simpl. f_equal. by apply IH.
Qed.

(** *** Stripping *)

Lemma lstrip_append A B : lstrip A <> "" -> lstrip (A +:+ B) = lstrip A +:+ B.
Proof.
  induction A as [|a A IH]; [done|].
  change (String a A +:+ B) with (String a (A +:+ B)). simpl.
  destruct (isspace a); [apply IH|done].
Qed.

Lemma strip_lstrip_empty A : lstrip A = "" -> strip A = "".
Proof. intros HA. unfold strip. by rewrite HA. Qed.

(** Stripping on the right takes a final line feed after a character
    that is not a blank, and no more. *)
Lemma rstrip_line_feed s c :
  isspace c = false ->
  rstrip (s +:+ String c (String nl "")) = s +:+ String c "".
Proof.
  intros Hc. unfold rstrip, String.rev. rewrite rev_app_append.
  simpl String.rev_app at 2. simpl lstrip. rewrite Hc.
  change (String.rev_app (String c (String.rev_app s "")) "")
    with (String.rev_app (String.rev_app s "") (String c "")).
  by rewrite rev_app_rev_app.
Qed.

Lemma contains_app c s1 s2 :
  contains c (s1 +:+ s2) = contains c s1 || contains c s2.
Proof.
  induction s1 as [|a s1 IH]; [done|].
  change (String a s1 +:+ s2) with (String a (s1 +:+ s2)).
  simpl. by rewrite IH, orb_assoc.
Qed.

Lemma contains_join c sep l :
  contains c sep = false ->
  Forall (fun x => contains c x = false) l ->
  contains c (join sep l) = false.
Proof.
  intros Hsep. induction 1 as [|x l Hx Hl IH]; [done|].
  destruct l as [|y l]; [done|].
  change (join sep (x :: y :: l)) with (x +:+ sep +:+ join sep (y :: l)).
  by rewrite !contains_app, Hx, Hsep, IH.
Qed.

End TextFacts.

(** ** The crontab of the Raspberry Pi variant *)

Module CrontabFacts.
Import DebArm DebArmMore.

Lemma substring_of_app_r m s1 s2 :
  substring_of m s2 = true -> substring_of m (s1 +:+ s2) = true.
Proof.
  intros Hm. induction s1 as [|a s1 IH]; [done|].
  change (prefix_of m (String a (s1 +:+ s2)) || substring_of m (s1 +:+ s2) = true).
  rewrite IH. apply orb_true_r.
Qed.

Lemma filtered_lines_fold_app ls st :
  exists kept,
    filtered_lines (fold_left filter_line ls st) = filtered_lines st ++ kept
    /\ sublist kept ls
    /\ Forall (fun l => substring_of "# TARR Annunciator" l = false
                        /\ substring_of "tarr-announcer.log" l = false) kept.
Proof.
  revert st. induction ls as [|line ls IH]; intros st.
  { exists []. by rewrite app_nil_r. }
  cbn [fold_left].
  destruct (IH (filter_line st line)) as (kept & -> & Hsub & Hall).
  unfold filter_line.
  destruct (substring_of "# TARR Annunciator" line) eqn:Hhead.
  { exists kept. split; [done|]. split; [by apply sublist_cons|done]. }
  destruct (skip_next st && _).
  { exists kept. split; [done|]. split; [by apply sublist_cons|done]. }
  cbv zeta.
  destruct (negb _ && negb (substring_of "tarr-announcer.log" line)) eqn:Hkeep.
  - exists (line :: kept). cbn [filtered_lines]. rewrite <- app_assoc.
    split; [done|]. split; [by apply sublist_skip|].
    apply Forall_cons. split; [|done].
    apply andb_true_iff in Hkeep as [_ Hlog%negb_true_iff]. done.
  - exists kept. split; [done|]. split; [by apply sublist_cons|done].
Qed.

Lemma filter_crontab_kept lines :
  Forall (fun l => substring_of "# TARR Annunciator" l = false
                   /\ substring_of "tarr-announcer.log" l = false)
    (filter_crontab lines).
Proof.
  unfold filter_crontab.
  by destruct (filtered_lines_fold_app lines
                 {| skip_next := false; filtered_lines := [] |})
    as (kept & -> & Hsub & Hall).
Qed.

Lemma filter_crontab_sublist lines : sublist (filter_crontab lines) lines.
Proof.
  unfold filter_crontab.
  by destruct (filtered_lines_fold_app lines
                 {| skip_next := false; filtered_lines := [] |})
    as (kept & -> & Hsub & Hall).
Qed.

(** X12. The loop that filters the old crontab only drops lines: what
    it keeps is a sublist of the lines it read, in their order, and no
    kept line contains the header text or the name of the log file. *)
Theorem filter_crontab_keeps lines :
  sublist (filter_crontab lines) lines
  /\ Forall (fun l => substring_of "# TARR Annunciator" l = false
                      /\ substring_of "tarr-announcer.log" l = false)
       (filter_crontab lines).
Proof.
  unfold filter_crontab.
  destruct (filtered_lines_fold_app lines
              {| skip_next := false; filtered_lines := [] |})
    as (kept & -> & Hsub & Hall).
  done.
Qed.

Lemma fold_filter_line_clean ls st :
  skip_next st = false ->
  Forall (fun l => substring_of "# TARR Annunciator" l = false
                   /\ substring_of "tarr-announcer.log" l = false) ls ->
  fold_left filter_line ls st
  = {| skip_next := false; filtered_lines := filtered_lines st ++ ls |}.
Proof.
  revert st. induction ls as [|line ls IH]; intros [skip kept] Hskip Hall.
  { simpl in *. subst skip. by rewrite app_nil_r. }
  apply Forall_cons in Hall as [[Hhead Hlog] Hall]. simpl in Hskip. subst skip.
  cbn [fold_left]. unfold filter_line at 2. rewrite Hhead, Hlog. cbn.
  rewrite IH by done. cbn. by rewrite <- app_assoc.
Qed.

(** X13. Running the filter on its own output changes nothing, and a
    crontab in which no line has the header text or the name of the log
    file is kept whole. *)
Theorem filter_crontab_idempotent lines :
  filter_crontab (filter_crontab lines) = filter_crontab lines
  /\ (Forall (fun l => substring_of "# TARR Annunciator" l = false
                       /\ substring_of "tarr-announcer.log" l = false) lines ->
      filter_crontab lines = lines).
Proof.
  assert (forall ls,
            Forall (fun l => substring_of "# TARR Annunciator" l = false
                             /\ substring_of "tarr-announcer.log" l = false) ls ->
            filter_crontab ls = ls) as Hclean.
  { intros ls Hls. unfold filter_crontab.
    by rewrite fold_filter_line_clean. }
  split; [|apply Hclean].
  apply Hclean, filter_crontab_kept.
Qed.

Lemma fold_filter_line_logged es st :
  Forall (fun l => substring_of "tarr-announcer.log" l = true) es ->
  filtered_lines (fold_left filter_line es st) = filtered_lines st.
Proof.
  revert st. induction es as [|e es IH]; intros st Hall; [done|].
  apply Forall_cons in Hall as [Hlog Hall]. cbn [fold_left].
  rewrite IH by done. unfold filter_line. rewrite Hlog, andb_false_r.
  destruct (substring_of "# TARR Annunciator" e); [done|].
  by destruct (skip_next st && _).
Qed.

Lemma tarr_jobs_app l1 l2 : tarr_jobs (l1 ++ l2) = tarr_jobs l1 ++ tarr_jobs l2.
Proof. unfold tarr_jobs. by rewrite filter_app, fmap_app. Qed.

Lemma tarr_jobs_clean ls :
  Forall (fun l => substring_of "# TARR Annunciator" l = false
                   /\ substring_of "tarr-announcer.log" l = false) ls ->
  tarr_jobs ls = [].
Proof.
  unfold tarr_jobs. induction 1 as [|l ls [_ Hlog] _ IH]; [done|].
  rewrite filter_cons, Hlog. done.
Qed.

Section Install.

Variable BASE_DIR : string.
Variable script_path : string.

(** Every command ends with the redirection to the log file. *)
Lemma command_redirected k item cmd :
  command BASE_DIR script_path k item = Return cmd ->
  exists q, cmd = q +:+ log_redirect.
Proof.
  unfold command, mbind, outcome_bind, bind.
  destruct k;
    repeat match goal with
           | |- context [py_getitem ?o ?key] => destruct (py_getitem o key)
           end; try done; intros [= <-];
    rewrite <- ?TextFacts.append_assoc; eauto.
Qed.

Lemma crontab_item_block k i item st st' :
  crontab_item BASE_DIR script_path k i item st = Return st' ->
  exists new,
    cron_entries st' = cron_entries st ++ new
    /\ Forall (fun l => exists q, l = q +:+ log_redirect) new.
Proof.
  unfold crontab_item. unfold mbind at 1, outcome_bind at 1, bind at 1.
  destruct (py_get item "enabled" JNull) as [en|]; [|done].
  destruct (truthy en).
  2:{ intros [= <-]. exists []. by rewrite app_nil_r. }
  unfold mbind, outcome_bind, bind.
  destruct (py_getitem item "cron") as [cron_expr|].
  2:{ intros [= <-]. exists []. by rewrite app_nil_r. }
  destruct (command BASE_DIR script_path k item) as [cmd|] eqn:Hcmd.
  2:{ intros [= <-]. exists []. by rewrite app_nil_r. }
  apply command_redirected in Hcmd as [q ->].
  assert (Forall (fun l => exists q, l = q +:+ log_redirect)
            [py_str cron_expr +:+ " " +:+ q +:+ log_redirect]) as Hnew.
  { repeat constructor. exists (py_str cron_expr +:+ " " +:+ q).
    by rewrite !TextFacts.append_assoc. }
  destruct (py_getitem item (default "" (head (arg_keys k))));
    intros [= <-]; eexists; split; try reflexivity; done.
Qed.

Lemma crontab_loop_block k i items st st' :
  crontab_loop BASE_DIR script_path k i items st = Return st' ->
  exists new,
    cron_entries st' = cron_entries st ++ new
    /\ Forall (fun l => exists q, l = q +:+ log_redirect) new.
Proof.
  revert i st. induction items as [|item items IH]; intros i st; simpl.
  { intros [= <-]. exists []. by rewrite app_nil_r. }
  unfold mbind, outcome_bind, bind.
  destruct (crontab_item BASE_DIR script_path k i item st) as [st1|] eqn:Hitem;
    [|done].
  intros (new2 & -> & Hnew2)%IH.
  apply crontab_item_block in Hitem as (new1 & -> & Hnew1).
  exists (new1 ++ new2). rewrite <- app_assoc. split; [done|].
  by apply Forall_app.
Qed.

Lemma crontab_kind_block cron_data k st st' :
  crontab_kind BASE_DIR script_path cron_data k st = Return st' ->
  exists new,
    cron_entries st' = cron_entries st ++ new
    /\ Forall (fun l => exists q, l = q +:+ log_redirect) new.
Proof.
  unfold crontab_kind, mbind, outcome_bind, bind.
  destruct (py_get cron_data (list_key k) (JArr [])) as [l|]; [|done].
  destruct (py_iter l) as [items|]; [|done].
  apply crontab_loop_block.
Qed.

(** The lines built from any schedule file: the header, then lines
    that end with the redirection to the log file. *)
Lemma update_crontab_entries_block cron_data ct :
  update_crontab_entries BASE_DIR script_path cron_data = Return ct ->
  exists new,
    cron_entries ct = header :: new
    /\ Forall (fun l => exists q, l = q +:+ log_redirect) new.
Proof.
  unfold update_crontab_entries, mbind, outcome_bind, bind.
  destruct (crontab_kind _ _ cron_data station _) as [st1|] eqn:H1; [|done].
  destruct (crontab_kind _ _ cron_data promo _) as [st2|] eqn:H2; [|done].
  intros (new3 & -> & Hnew3)%crontab_kind_block.
  apply crontab_kind_block in H2 as (new2 & -> & Hnew2).
  apply crontab_kind_block in H1 as (new1 & -> & Hnew1).
  exists (new1 ++ new2 ++ new3). cbn [cron_entries]. unfold header.
  rewrite <- !app_assoc. split; [done|].
  by rewrite !Forall_app.
Qed.

Lemma redirected_logged new :
  Forall (fun l => exists q, l = q +:+ log_redirect) new ->
  Forall (fun l => substring_of "tarr-announcer.log" l = true) new.
Proof.
  intros Hnew. eapply Forall_impl; [exact Hnew|].
  intros l [q ->]. by apply substring_of_app_r.
Qed.

(** On a list of lines: over lines that the filter kept, followed by
    the lines built from a schedule file, the filter gives back the
    lines kept. *)
Lemma filter_crontab_block kept new :
  Forall (fun l => substring_of "# TARR Annunciator" l = false
                   /\ substring_of "tarr-announcer.log" l = false) kept ->
  Forall (fun l => substring_of "tarr-announcer.log" l = true) new ->
  filter_crontab (kept ++ header :: new) = kept.
Proof.
  intros Hkept Hnew.
  unfold filter_crontab. rewrite fold_left_app.
  rewrite (fold_filter_line_clean kept) by done.
  cbn [fold_left filtered_lines app].
  rewrite fold_filter_line_logged by done.
  unfold filter_line.
  by replace (substring_of "# TARR Annunciator" header) with true by reflexivity.
Qed.

Lemma tarr_jobs_block kept new :
  Forall (fun l => substring_of "# TARR Annunciator" l = false
                   /\ substring_of "tarr-announcer.log" l = false) kept ->
  tarr_jobs (kept ++ header :: new) = tarr_jobs new.
Proof.
  intros Hkept. rewrite tarr_jobs_app, tarr_jobs_clean by done. reflexivity.
Qed.

End Install.

(** X16. What follows a header line is lost with it: a blank line or a
    comment that comes directly after a line with the header text is
    dropped, whoever wrote it. *)
Theorem comment_after_header_is_dropped pre h c rest :
  substring_of "# TARR Annunciator" h = true ->
  String.eqb (strip c) "" || startswith c "#" = true ->
  filter_crontab (pre ++ h :: c :: rest) = filter_crontab (pre ++ h :: rest).
Proof.
  intros Hh Hc. unfold filter_crontab. rewrite !fold_left_app.
  cbn [fold_left]. do 2 f_equal.
  unfold filter_line at 2 4. rewrite Hh.
  unfold filter_line. cbn [skip_next filtered_lines]. rewrite Hc.
  by destruct (substring_of "# TARR Annunciator" c).
Qed.

End CrontabFacts.

(** ** The crontab as text: one update after another *)

Module CrontabTextFacts.
Import CronFacts TextFacts DebArm DebArmMore CrontabFacts.

Lemma join_ends_not_blank (ls : list string) :
  ls <> [] ->
  Forall (fun l => exists p c, l = p +:+ String c "" /\ isspace c = false) ls ->
  exists p c, join (String nl "") ls = p +:+ String c "" /\ isspace c = false.
Proof.
  intros Hne Hall. induction Hall as [|x ls Hx Hls IH]; [done|].
  destruct ls as [|y ls]; [done|].
  destruct IH as (p & c & Hp & Hc); [done|].
  exists (x +:+ String nl p), c. split; [|done].
  change (join (String nl "") (x :: y :: ls))
    with (x +:+ String nl (join (String nl "") (y :: ls))).
  rewrite Hp.
  change (String nl (p +:+ String c "")) with (String nl p +:+ String c "").
  by rewrite append_assoc.
Qed.

Lemma redirected_ends_not_blank new :
  Forall (fun l => exists q, l = q +:+ log_redirect) new ->
  Forall (fun l => exists p c, l = p +:+ String c "" /\ isspace c = false) new.
Proof.
  intros Hnew. eapply Forall_impl; [exact Hnew|].
  intros l [q ->].
  exists (q +:+ " >> /var/log/tarr-announcer.log 2>&"), "1"%char.
  split; [|done]. by rewrite append_assoc.
Qed.

(** The lines that the next reading of the table finds in the text
    that an update wrote: lines of the user's part, none of which has
    the header text or the name of the log file, and then the lines
    built, one by one. The user's part is the one written, without the
    blanks at its start. *)
Lemma lines_of_crontab_text kept new :
  Forall (fun l => substring_of "# TARR Annunciator" l = false
                   /\ substring_of "tarr-announcer.log" l = false) kept ->
  Forall (fun l => exists q, l = q +:+ log_redirect) new ->
  Forall (fun l => contains nl l = false) new ->
  exists kept',
    lines_of (crontab_text kept (header :: new)) = kept' ++ header :: new
    /\ Forall (fun l => substring_of "# TARR Annunciator" l = false
                        /\ substring_of "tarr-announcer.log" l = false) kept'
    /\ join (String nl "") kept'
       = if String.eqb (strip (join (String nl "") kept)) "" then ""
         else lstrip (join (String nl "") kept).
Proof.
  intros Hkept Hnew Hnl.
  assert (Forall (fun l => contains nl l = false) (header :: new)) as Hnl'
    by (by constructor).
  assert (exists p c, join (String nl "") (header :: new) = p +:+ String c ""
                      /\ isspace c = false) as (p & c & Hp & Hc).
  { apply join_ends_not_blank; [done|]. constructor.
    - by exists "# TARR Annunciator scheduled announcement", "s"%char.
    - by apply redirected_ends_not_blank. }
  assert (exists rest, join (String nl "") (header :: new) = String "#" rest)
    as [rest Hrest].
  { destruct new; eexists; reflexivity. }
  unfold lines_of, crontab_text. cbv zeta.
  destruct (String.eqb (strip (join (String nl "") kept)) "") eqn:Hblank.
  - exists []. split; [|done].
    change ("" +:+ join (String nl "") (header :: new) +:+ String nl "")
      with (join (String nl "") (header :: new) +:+ String nl "").
    unfold strip.
    replace (lstrip (join (String nl "") (header :: new) +:+ String nl ""))
      with (join (String nl "") (header :: new) +:+ String nl "")
      by (by rewrite Hrest).
    rewrite Hp, append_assoc.
    change (String c "" +:+ String nl "") with (String c (String nl "")).
    rewrite rstrip_line_feed by done. rewrite <- Hp.
    by rewrite split_on_join_lines.
  - apply String.eqb_neq in Hblank.
    assert (lstrip (join (String nl "") kept) <> "") as Hfirst.
    { intros Hempty. by apply Hblank, strip_lstrip_empty. }
    exists (split_on nl (lstrip (join (String nl "") kept))).
    split; [|split].
    + unfold strip. rewrite !append_assoc.
      rewrite lstrip_append by done.
      change (String nl "" +:+ join (String nl "") (header :: new) +:+ String nl "")
        with (String nl (join (String nl "") (header :: new) +:+ String nl "")).
      rewrite Hp, append_assoc.
      change (String c "" +:+ String nl "") with (String c (String nl "")).
      change (lstrip (join (String nl "") kept)
              +:+ String nl (p +:+ String c (String nl "")))
        with (lstrip (join (String nl "") kept)
              +:+ (String nl p +:+ String c (String nl ""))).
      rewrite <- append_assoc.
      rewrite rstrip_line_feed by done.
      rewrite append_assoc.
      change (String nl p +:+ String c "") with (String nl (p +:+ String c "")).
      rewrite <- Hp, split_on_sep. f_equal. by apply split_on_join_lines.
    + apply Forall_forall. intros l Hl.
      assert (forall m, contains nl m = false -> prefix_of m "" = false ->
                Forall (fun l => substring_of m l = false) kept ->
                substring_of m l = false) as Hfree.
      { intros m Hm Hne Hall.
        destruct (substring_of m l) eqn:Hsub; [|done].
        apply (substring_of_piece m nl "" _ l Hm Hl) in Hsub.
        change ("" +:+ lstrip (join (String nl "") kept))
          with (lstrip (join (String nl "") kept)) in Hsub.
        apply substring_of_lstrip in Hsub.
        apply substring_of_join in Hsub as (k & Hk & Hsub); [|done..].
        rewrite Forall_forall in Hall. by rewrite (Hall k Hk) in Hsub. }
      split; apply Hfree; try done.
      * eapply Forall_impl; [exact Hkept|]. by intros ? [? _].
      * eapply Forall_impl; [exact Hkept|]. by intros ? [_ ?].
    + apply join_split_on.
Qed.

(** [get_cron_status] on a text that an update wrote. *)
Lemma get_cron_status_crontab_text kept new :
  Forall (fun l => substring_of "# TARR Annunciator" l = false
                   /\ substring_of "tarr-announcer.log" l = false) kept ->
  Forall (fun l => exists q, l = q +:+ log_redirect) new ->
  Forall (fun l => contains nl l = false) new ->
  get_cron_status (Return (0, crontab_text kept (header :: new)))
  = {| active := true; error := None;
       jobs := strip <$> filter (fun l => negb (startswith (strip l) "#")) new;
       count := length (filter (fun l => negb (startswith (strip l) "#")) new) |}.
Proof.
  intros Hkept Hnew Hnl.
  unfold get_cron_status. cbn [Z.eqb]. cbv zeta.
  destruct (lines_of_crontab_text kept new) as (kept' & -> & Hkept' & _);
    [done..|].
  rewrite tarr_jobs_block by done.
  assert (tarr_jobs new
          = strip <$> filter (fun l => negb (startswith (strip l) "#")) new) as ->.
  { unfold tarr_jobs. f_equal. apply redirected_logged in Hnew.
    clear -Hnew. induction Hnew as [|l new Hl _ IH]; [done|].
    rewrite !filter_cons, Hl, IH. done. }
  by rewrite length_fmap.
Qed.

(** *** Line ends in the output of [crontab -l] *)

Lemma translate_newlines_go_clean after_cr s :
  contains cr (translate_newlines_go after_cr s) = false.
Proof.
  revert after_cr. induction s as [|a s IH]; intros after_cr; [done|].
  cbn [translate_newlines_go].
  destruct (ascii_eqb a cr) eqn:Ha.
  - cbn [contains]. by rewrite IH.
  - destruct (after_cr && ascii_eqb a nl); [apply IH|].
    cbn [contains]. by rewrite Ha, IH.
Qed.

(** What is read has no carriage return in it. *)
Lemma translate_newlines_clean s : contains cr (translate_newlines s) = false.
Proof. apply translate_newlines_go_clean. Qed.

(** A text without a carriage return is read as it is. *)
Lemma translate_newlines_same s :
  contains cr s = false -> translate_newlines s = s.
Proof.
  unfold translate_newlines. induction s as [|a s IH]; [done|].
  cbn [contains translate_newlines_go].
  intros [-> Hs]%orb_false_iff. cbn [andb]. by rewrite IH.
Qed.

Lemma lines_of_clean c s :
  contains c s = false -> Forall (fun l => contains c l = false) (lines_of s).
Proof.
  intros Hs. apply Forall_forall. intros l Hl.
  rewrite contains_any_char.
  apply (split_on_chars _ nl (strip s)); [|done].
  rewrite <- contains_any_char. by apply contains_strip.
Qed.

Lemma crontab_text_clean c kept entries :
  ascii_eqb nl c = false ->
  Forall (fun l => contains c l = false) kept ->
  Forall (fun l => contains c l = false) entries ->
  contains c (crontab_text kept entries) = false.
Proof.
  intros Hc Hkept Hentries. unfold crontab_text. cbv zeta.
  assert (contains c (String nl "") = false) as Hnl
    by (cbn [contains]; by rewrite Hc).
  rewrite !contains_app, Hnl, (contains_join c _ entries) by done.
  destruct (String.eqb _ ""); [done|].
  by rewrite contains_app, Hnl, contains_join.
Qed.

(** The lines kept from a table that was read have no carriage return
    in them. *)
Lemma filter_crontab_read_clean table :
  Forall (fun l => contains cr l = false)
    (filter_crontab (lines_of (translate_newlines table))).
Proof.
  pose proof (lines_of_clean cr _ (translate_newlines_clean table)) as Hall.
  rewrite Forall_forall in Hall |- *. intros l Hl. apply Hall.
  by apply (sublist_subseteq _ _ (filter_crontab_sublist _)).
Qed.

Lemma one_line_spec l :
  one_line l = true <-> contains nl l = false /\ contains cr l = false.
Proof.
  unfold one_line. rewrite andb_true_iff, !negb_true_iff. done.
Qed.

Lemma one_line_split ls :
  Forall (fun l => one_line l = true) ls ->
  Forall (fun l => contains nl l = false) ls
  /\ Forall (fun l => contains cr l = false) ls.
Proof.
  intros H. split; (eapply Forall_impl; [exact H|]);
    by intros l [? ?]%one_line_spec.
Qed.

Section Install.

Variable BASE_DIR : string.
Variable script_path : string.

(** X14. The block that [update_crontab] writes is taken out again by
    the next update, as long as no line built from the schedule file
    has a line end in it (the cron text and the argument values are
    copied into the line unchecked, so one of them can have a line
    feed, or a carriage return, which the reading of the table turns
    into a line feed). [table] is the table installed before, [old] what
    [crontab -l] gives for it, [text] what the update writes and
    installs. From [text] the next update keeps the user's part of the
    old table, without the blanks at its start, and nothing of the
    block. *)
Theorem written_block_is_filtered_out cron_data ct (table : string) :
  update_crontab_entries BASE_DIR script_path cron_data = Return ct ->
  Forall (fun l => one_line l = true) (cron_entries ct) ->
  let old := translate_newlines table in
  let existing_cron := join (String nl "") (filter_crontab (lines_of old)) in
  let text := crontab_text (filter_crontab (lines_of old)) (cron_entries ct) in
  join (String nl "") (filter_crontab (lines_of (translate_newlines text)))
  = if String.eqb (strip existing_cron) "" then "" else lstrip existing_cron.
Proof.
  intros (new & Hct & Hnew)%update_crontab_entries_block
    [Hnl Hcr]%one_line_split old existing_cron text.
  subst old existing_cron text.
  rewrite translate_newlines_same
    by (apply crontab_text_clean; [done|apply filter_crontab_read_clean|done]).
  rewrite Hct in *.
  apply Forall_cons in Hnl as [_ Hnl].
  destruct (lines_of_crontab_text
              (filter_crontab (lines_of (translate_newlines table))) new)
    as (kept' & -> & Hkept' & <-); [apply filter_crontab_kept|done..|].
  by rewrite filter_crontab_block by (done || by apply redirected_logged).
Qed.

(** X15. [get_cron_status] on the table that an update wrote, as long
    as no built line has a line end in it: the jobs it lists are those
    it finds among the built lines after the header, which are the
    built lines that do not begin with "#", stripped; so their number is
    at most the number of built lines. No line of the user's part is
    listed. *)
Theorem status_counts_the_written_block cron_data ct (table : string) :
  update_crontab_entries BASE_DIR script_path cron_data = Return ct ->
  Forall (fun l => one_line l = true) (cron_entries ct) ->
  let old := translate_newlines table in
  let text := crontab_text (filter_crontab (lines_of old)) (cron_entries ct) in
  let built := tail (cron_entries ct) in
  get_cron_status (Return (0, translate_newlines text))
  = {| active := true; error := None;
       jobs := strip <$> filter (fun l => negb (startswith (strip l) "#")) built;
       count := length (filter (fun l => negb (startswith (strip l) "#")) built) |}
  /\ (length (filter (fun l => negb (startswith (strip l) "#")) built)
      <= length built)%nat.
Proof.
  intros (new & Hct & Hnew)%update_crontab_entries_block
    [Hnl Hcr]%one_line_split old text built.
  subst old text built.
  rewrite translate_newlines_same
    by (apply crontab_text_clean; [done|apply filter_crontab_read_clean|done]).
  rewrite Hct in *. cbn [tail].
  apply Forall_cons in Hnl as [_ Hnl].
  split; [|apply length_filter].
  apply get_cron_status_crontab_text; [apply filter_crontab_kept|done..].
Qed.

End Install.

End CrontabTextFacts.

(** ** Disabled entries on both variants *)

Module DisabledFacts.
Import CronFacts TextFacts DebArm DebArmMore CrontabFacts CrontabTextFacts.

Section Both.

Context {Trigger : Type}.
Variable CronTrigger :
  string -> string -> option string -> option string -> option string ->
  outcome Trigger.
Variable Time : Type.
Variable fires : Trigger -> Time -> bool.
Variable BASE_DIR : string.
Variable script_path : string.
Variable accepts : string -> bool.

#[local] Abbreviation built := (built BASE_DIR script_path).
#[local] Abbreviation api_schedule_post :=
  (api_schedule_post BASE_DIR script_path accepts).

Lemma built_redirected d :
  Forall (fun l => exists q, l = q +:+ log_redirect) (built d).
Proof.
  destruct (DebArmFacts.update_crontab_entries_document BASE_DIR script_path d)
    as [out Hdoc].
  destruct (update_crontab_entries_block _ _ _ _ Hdoc) as (new & Hentries & Hnew).
  cbn [cron_entries] in Hentries. by injection Hentries as <-.
Qed.

Lemma length_lines_for {k} (es : list (ScheduleEntry k)) :
  length (lines_for BASE_DIR script_path es)
  = length (filter (fun e => enabled e = true) es).
Proof. unfold lines_for. apply length_fmap. Qed.

(** A POST of a document on a disk that takes the write: the schedule
    file is written, the table is built and handed to [crontab], and
    the answer counts what [crontab -l] then shows. *)
Lemma api_schedule_post_document d (h : Host) :
  DebArmMore.disk_state h = Writable ->
  api_schedule_post (Win64.schedule_request d) h
  = let h1 :=
      DebArmMore.with_files
        (<[Win64.cron_path := Json (document_json d)]> (DebArmMore.files h)) h in
    let h2 := install accepts (header :: built d) h1 in
    (Return (Win64.RUpdated (count (get_cron_status (crontab_l h2)))), h2).
Proof.
  intros Hdisk. unfold DebArmMore.api_schedule_post, Win64.schedule_request.
  change (truthy (JObj [("schedule", document_json d)])) with true.
  change (py_in "schedule" (JObj [("schedule", document_json d)]))
    with (Return (A:=bool) true).
  change (py_getitem (JObj [("schedule", document_json d)]) "schedule")
    with (Return (A:=json) (document_json d)).
  unfold mbind, outcome_bind, bind. cbn [negb].
  unfold save_json.
  change (table_get JSON_FILES "cron") with (Return (A:=string) Win64.cron_path).
  rewrite Hdisk. unfold update_crontab.
  change (table_get JSON_FILES "cron") with (Return (A:=string) Win64.cron_path).
  cbn [DebArmMore.files DebArmMore.with_files]. rewrite lookup_insert_eq.
  cbn [json_load].
  destruct (DebArmFacts.update_crontab_entries_document BASE_DIR script_path d)
    as [out ->].
  reflexivity.
Qed.

Lemma install_succeeds entries (h : Host) :
  crontab_runs h = true ->
  accepts (crontab_text (kept h) entries) = true ->
  install accepts entries h = with_crontab (Some (crontab_text (kept h) entries)) h.
Proof.
  intros Hruns Hacc. unfold install, crontab_l, kept in *. rewrite Hruns.
  destruct (crontab h) as [table|]; cbn [Z.eqb]; by rewrite Hacc.
Qed.

Lemma install_fails entries (h : Host) :
  crontab_runs h = false \/ accepts (crontab_text (kept h) entries) = false ->
  install accepts entries h = h.
Proof.
  unfold install, crontab_l, kept.
  destruct (crontab_runs h); [|done].
  intros [|Hacc]; [done|].
  destruct (crontab h) as [table|]; cbn [Z.eqb] in *; by rewrite Hacc.
Qed.

Lemma kept_read_clean (h : Host) :
  Forall (fun l => contains cr l = false) (kept h).
Proof.
  unfold kept. destruct (crontab h); [apply filter_crontab_read_clean|constructor].
Qed.

(** What [crontab -l] gives for a table that an update wrote. *)
Lemma crontab_l_installed new (h : Host) :
  crontab_runs h = true ->
  Forall (fun l => contains cr l = false) new ->
  crontab_l (with_crontab (Some (crontab_text (kept h) (header :: new))) h)
  = Return (0, crontab_text (kept h) (header :: new)).
Proof.
  intros Hruns Hnew. unfold crontab_l.
  cbn [crontab_runs crontab with_crontab]. rewrite Hruns.
  rewrite translate_newlines_same; [done|].
  apply crontab_text_clean; [done|apply kept_read_clean|by constructor].
Qed.

Lemma kept_clean (h : Host) :
  Forall (fun l => substring_of "# TARR Annunciator" l = false
                   /\ substring_of "tarr-announcer.log" l = false) (kept h).
Proof.
  unfold kept. destruct (crontab h); [apply filter_crontab_kept|constructor].
Qed.

(** C6 (as amended). An entry with enabled=false on both variants.

    On Windows, applying the document registers no job under the id of
    the entry, no tick finds such a job due, the count returned is the
    number of enabled entries that yield a trigger, and a document
    whose only entry is disabled gives active_jobs = 0.

    On the Raspberry Pi, the lines built for the table are one for each
    enabled entry, so none for the disabled one, and none at all for a
    document whose only entry is disabled. When the [crontab] command
    runs and takes the new table, the table is the lines kept from the
    old one followed by the header and the built lines, and as long as
    no built line has a line end in it (a line feed, or a carriage
    return, which the reading of the table turns into a line feed) the
    count returned is the
    number of built lines that do not begin with "#"; for a document
    whose only entry is disabled it is 0. When the command cannot be
    run or refuses the new table, the old table stays as it is, the
    lines in it stay live, and the answer is still a success, with the
    count of the old table. *)
Theorem disabled_entry_on_both_variants d k i (e : ScheduleEntry k)
    (w : Win64.World Trigger) (h : Host) :
  entries d k !! i = Some e ->
  enabled e = false ->
  Win64.disk_state w = Writable ->
  DebArmMore.disk_state h = Writable ->
  let r := Win64.api_schedule Trigger CronTrigger Win64.POST
             (Win64.schedule_request d) w in
  let r1 := Win64.api_schedule Trigger CronTrigger Win64.POST
              (Win64.schedule_request (Win64.single_entry e)) w in
  let a := api_schedule_post (Win64.schedule_request d) h in
  let a1 := api_schedule_post (Win64.schedule_request (Win64.single_entry e)) h in
  let text d := crontab_text (kept h) (header :: built d) in
  let live l := negb (startswith (strip l) "#") in
  (* Windows *)
  ((Win64.make_id k i ∉ (Win64.job_id <$> Win64.jobs r.2))
   /\ (forall now,
         Win64.make_id k i
         ∉ (Win64.job_id <$> Win64.due Trigger Time fires now r.2))
   /\ r.1 = Return (Win64.RUpdated (Win64.count_active Trigger CronTrigger d))
   /\ r1.1 = Return (Win64.RUpdated 0))
  (* Raspberry Pi: the lines built *)
  /\ (length (built d)
      = length (filter (fun e => enabled e = true) (entries d station))
        + length (filter (fun e => enabled e = true) (entries d promo))
        + length (filter (fun e => enabled e = true) (entries d safety)))%nat
  /\ built (Win64.single_entry e) = []
  (* Raspberry Pi: the table is installed *)
  /\ (crontab_runs h = true -> accepts (text d) = true ->
      crontab a.2 = Some (text d)
      /\ (Forall (fun l => one_line l = true) (built d) ->
          a.1 = Return (Win64.RUpdated (length (filter live (built d))))))
  /\ (crontab_runs h = true -> accepts (text (Win64.single_entry e)) = true ->
      crontab a1.2 = Some (text (Win64.single_entry e))
      /\ a1.1 = Return (Win64.RUpdated 0))
  (* Raspberry Pi: the table is not installed *)
  /\ (crontab_runs h = false \/ accepts (text d) = false ->
      crontab a.2 = crontab h
      /\ a.1 = Return (Win64.RUpdated (count (get_cron_status (crontab_l h))))).
Proof.
  intros He Hen Hw Hh r r1 a a1 text live. subst r r1 a a1 text live.
  assert (built (Win64.single_entry e) = []) as Hsingle.
  { unfold DebArmMore.built, lines_for. clear He.
    destruct k;
      cbn [Win64.single_entry entries station_announcements promo_announcements
             safety_announcements];
      rewrite ?filter_cons, ?filter_nil, Hen; done. }
  split; [|split; [|split; [|split; [|split]]]].
  - pose proof (SynchronizerFacts.disabled_entry_is_never_live CronTrigger Time fires
                  d w k i e Hw He Hen) as H.
    cbv zeta in H. destruct H as (H1 & H2 & H3 & _ & H5). done.
  - unfold DebArmMore.built. rewrite !length_app, !length_lines_for. lia.
  - done.
  - intros Hruns Hacc. rewrite (api_schedule_post_document d h Hh). cbv zeta.
    cbn [fst snd].
    rewrite install_succeeds by done.
    split; [done|]. intros [Hnl Hcr]%one_line_split.
    rewrite crontab_l_installed by (exact Hruns || done).
    change (kept (DebArmMore.with_files _ h)) with (kept h).
    rewrite get_cron_status_crontab_text
      by (done || apply kept_clean || apply built_redirected).
    done.
  - intros Hruns Hacc. rewrite (api_schedule_post_document _ h Hh). cbv zeta.
    cbn [fst snd].
    rewrite install_succeeds by done.
    split; [done|].
    rewrite crontab_l_installed by (exact Hruns || (rewrite Hsingle; constructor)).
    change (kept (DebArmMore.with_files _ h)) with (kept h).
    rewrite get_cron_status_crontab_text
      by (apply kept_clean || apply built_redirected || (rewrite Hsingle; constructor)).
    by rewrite Hsingle.
  - intros Hfail. rewrite (api_schedule_post_document d h Hh). cbv zeta.
    cbn [fst snd]. rewrite install_fails by done. done.
Qed.

End Both.

End DisabledFacts.

(** ** The checker of the Raspberry Pi variant on numbers

    Numbers are written as decimal numerals without leading zeros
    ([pretty]); [int] refuses a numeral of more than [max_str_digits]
    digits, so the length of the numeral is part of every verdict. *)

Module ValidatorFacts.
Import ValidateCron CronFacts TextFacts.

(** *** Decimal numerals *)

Lemma digit_of_pretty_N_char d :
  (d < 10)%N -> digit_of (pretty_N_char d) = Some (Z.of_N d).
Proof.
  intros Hd.
  assert (d = 0 ∨ d = 1 ∨ d = 2 ∨ d = 3 ∨ d = 4 ∨ d = 5 ∨ d = 6 ∨ d = 7
          ∨ d = 8 ∨ d = 9)%N as Hcases by lia.
  destruct Hcases as [->|[->|[->|[->|[->|[->|[->|[->|[->| ->]]]]]]]]]; reflexivity.
Qed.

Lemma int_digits_pretty_N_go x :
  (0 < x)%N ->
  exists k, forall acc after_digit s,
    int_digits acc after_digit (pretty_N_go x s)
    = int_digits (acc * 10 ^ Z.of_nat k + Z.of_N x) true s.
Proof.
  induction (N.lt_wf_0 x) as [x _ IH]. intros Hx.
  assert (x `div` 10 < x)%N as Hlt by (by apply N.div_lt).
  pose proof (N.div_mod x 10 ltac:(done)) as Hdm.
  pose proof (N.mod_lt x 10 ltac:(done)) as Hmod.
  destruct (decide (x `div` 10 = 0)%N) as [Hzero|Hpos].
  - exists 1%nat. intros acc after_digit s.
    rewrite pretty_N_go_step, Hzero, pretty_N_go_0 by done.
    cbn [int_digits]. rewrite digit_of_pretty_N_char by done.
    f_equal. lia.
  - destruct (IH (x `div` 10)%N Hlt ltac:(lia)) as [k Hk].
    exists (S k). intros acc after_digit s.
    rewrite pretty_N_go_step, Hk by done.
    cbn [int_digits]. rewrite digit_of_pretty_N_char by done.
    f_equal. rewrite Nat2Z.inj_succ, Z.pow_succ_r by lia. lia.
Qed.

Lemma int_digits_pretty (n : N) : int_digits 0 false (pretty n) = Some (Z.of_N n).
Proof.
  unfold pretty, pretty_N. destruct (decide (n = 0%N)) as [->|Hn]; [done|].
  destruct (int_digits_pretty_N_go n ltac:(lia)) as [k ->]. simpl. f_equal.
Qed.

Lemma any_char_pretty_N_go P x s :
  (forall d, P (pretty_N_char d) = false) ->
  any_char P (pretty_N_go x s) = any_char P s.
Proof.
  intros HP. revert s. induction (N.lt_wf_0 x) as [x _ IH]. intros s.
  destruct (decide (x = 0%N)) as [->|Hx]; [by rewrite pretty_N_go_0|].
  rewrite pretty_N_go_step by lia.
  rewrite IH by (apply N.div_lt; lia). simpl. by rewrite HP.
Qed.

(** A numeral has digits only. *)
Lemma any_char_pretty P (n : N) :
  (forall d, P (pretty_N_char d) = false) -> any_char P (pretty n) = false.
Proof.
  intros HP. unfold pretty, pretty_N. destruct (decide (n = 0%N)).
  - change (P (pretty_N_char 0) || false = false). by rewrite HP.
  - by rewrite any_char_pretty_N_go.
Qed.

Lemma pretty_N_char_cases (P : ascii -> bool) :
  P "0"%char = false -> P "1"%char = false -> P "2"%char = false ->
  P "3"%char = false -> P "4"%char = false -> P "5"%char = false ->
  P "6"%char = false -> P "7"%char = false -> P "8"%char = false ->
  P "9"%char = false ->
  forall d, P (pretty_N_char d) = false.
Proof.
  intros. unfold pretty_N_char. by repeat case_match.
Qed.

Lemma contains_pretty c (n : N) :
  Ascii.is_nat c = None -> contains c (pretty n) = false.
Proof.
  intros Hc. rewrite contains_any_char. apply any_char_pretty.
  apply (pretty_N_char_cases (fun a => ascii_eqb a c));
    unfold ascii_eqb; apply bool_decide_eq_false; intros <-; discriminate Hc.
Qed.

Lemma isspace_pretty (n : N) : any_char isspace (pretty n) = false.
Proof. apply any_char_pretty. by apply pretty_N_char_cases. Qed.

(** *** [int] on text without blanks and signs *)

Lemma int_lstrip_no_blank s : any_char int_blank s = false -> int_lstrip s = s.
Proof.
  destruct s as [|a s]; [done|]. simpl.
  intros [Ha _]%orb_false_iff. by rewrite Ha.
Qed.

Lemma int_strip_no_blank s : any_char int_blank s = false -> int_strip s = s.
Proof.
  intros Hs. unfold int_strip. rewrite (int_lstrip_no_blank s) by done.
  rewrite int_lstrip_no_blank by (by rewrite any_char_rev).
  apply rev_rev.
Qed.

Lemma int_blank_pretty (n : N) : any_char int_blank (pretty n) = false.
Proof. apply any_char_pretty. by apply pretty_N_char_cases. Qed.

Lemma count_digits_all s :
  any_char (fun c => match digit_of c with Some _ => false | None => true end) s
  = false ->
  count_digits s = String.length s.
Proof.
  induction s as [|c s IH]; [done|]. simpl.
  destruct (digit_of c); [|done]. intros Hs. by rewrite IH.
Qed.

Lemma count_digits_pretty (n : N) : count_digits (pretty n) = String.length (pretty n).
Proof.
  apply count_digits_all, any_char_pretty.
  by apply (pretty_N_char_cases
              (fun c => match digit_of c with Some _ => false | None => true end)).
Qed.

Lemma int_unsigned s :
  any_char int_blank s = false ->
  contains "+" s = false -> contains "-" s = false ->
  int s = match int_digits 0 false s with
          | Some z =>
              if (max_str_digits <? count_digits s)%nat then Raise ValueError
              else Return z
          | None => Raise ValueError
          end.
Proof.
  intros Hblank Hplus Hminus. unfold int. rewrite int_strip_no_blank by done.
  destruct s as [|c r]; [done|].
  simpl in Hplus, Hminus.
  apply orb_false_iff in Hplus as [Hplus _].
  apply orb_false_iff in Hminus as [Hminus _].
  destruct c as [[] [] [] [] [] [] [] []]; try done.
Qed.

(** [int] on a numeral: the number, unless the numeral is too long. *)
Lemma int_pretty (n : N) :
  int (pretty n)
  = if (String.length (pretty n) <=? max_str_digits)%nat
    then Return (Z.of_N n) else Raise ValueError.
Proof.
  rewrite int_unsigned, int_digits_pretty, count_digits_pretty;
    [|apply int_blank_pretty|by apply contains_pretty..].
  rewrite Nat.ltb_antisym.
  by destruct (String.length (pretty n) <=? max_str_digits)%nat.
Qed.

Lemma int_plus_pretty (n : N) :
  int ("+" +:+ pretty n)
  = if (String.length (pretty n) <=? max_str_digits)%nat
    then Return (Z.of_N n) else Raise ValueError.
Proof.
  unfold int. rewrite int_strip_no_blank.
  - change ("+" +:+ pretty n) with (String "+" (pretty n)).
    cbv beta iota. rewrite int_digits_pretty.
    change (count_digits (String "+" (pretty n))) with (count_digits (pretty n)).
    rewrite count_digits_pretty, Nat.ltb_antisym.
    by destruct (String.length (pretty n) <=? max_str_digits)%nat.
  - change ("+" +:+ pretty n) with (String "+" (pretty n)).
    simpl. apply int_blank_pretty.
Qed.

Lemma eqb_star_no_star s : contains "*" s = false -> String.eqb s "*" = false.
Proof.
  intros Hs. apply String.eqb_neq. intros ->. done.
Qed.

Lemma split_on_go_app sep cur s1 s2 :
  contains sep s1 = false ->
  split_on_go sep cur (s1 +:+ String sep s2)
  = (cur +:+ s1) :: split_on_go sep "" s2.
Proof.
  revert cur. induction s1 as [|a s1 IH]; intros cur.
  - intros _. change ("" +:+ String sep s2) with (String sep s2).
    cbn [split_on_go]. unfold ascii_eqb. rewrite bool_decide_eq_true_2 by done.
    by rewrite append_empty_r.
  - intros [Ha Hs]%orb_false_iff.
    change (String a s1 +:+ String sep s2) with (String a (s1 +:+ String sep s2)).
    cbn [split_on_go]. rewrite Ha, IH by done. by rewrite snoc_append.
Qed.

(** [(a + sep + b).split(sep)] when [sep] is in neither part. *)
Lemma split_on_two sep s1 s2 :
  contains sep s1 = false -> contains sep s2 = false ->
  split_on sep (s1 +:+ String sep s2) = [s1; s2].
Proof.
  intros H1 H2. unfold split_on. rewrite split_on_go_app by done.
  by rewrite split_on_go_absent by done.
Qed.

(** X17. A decimal numeral is accepted exactly when the number is
    within the bounds of the field and the numeral has no more digits
    than [int] takes, and a plus sign in front of it makes no
    difference. *)
Theorem number_is_accepted_within_bounds (n : N) min_val max_val :
  validate_field (pretty n) min_val max_val
  = Return ((min_val <=? Z.of_N n) && (Z.of_N n <=? max_val)
            && (String.length (pretty n) <=? max_str_digits)%nat)
  /\ validate_field ("+" +:+ pretty n) min_val max_val
     = Return ((min_val <=? Z.of_N n) && (Z.of_N n <=? max_val)
               && (String.length (pretty n) <=? max_str_digits)%nat).
Proof.
  unfold validate_field, recursion_limit. rewrite !validate_field_rec_unfold.
  change ("+" +:+ pretty n) with (String "+" (pretty n)).
  cbn [contains]. unfold ascii_eqb at 1 2 3.
  rewrite !bool_decide_eq_false_2 by done. cbn [orb].
  rewrite !contains_pretty by done.
  rewrite eqb_star_no_star by (by apply contains_pretty).
  rewrite (eqb_star_no_star (String "+" (pretty n)))
    by (simpl; by apply contains_pretty).
  change (String "+" (pretty n)) with ("+" +:+ pretty n).
  rewrite int_pretty, int_plus_pretty.
  destruct (String.length (pretty n) <=? max_str_digits)%nat; simpl;
    by rewrite ?andb_true_r, ?andb_false_r.
Qed.

Lemma pretty_N_go_app x s : pretty_N_go x s = pretty_N_go x "" +:+ s.
Proof.
  revert s. induction (N.lt_wf_0 x) as [x _ IH]. intros s.
  destruct (decide (x = 0%N)) as [->|Hx]; [by rewrite !pretty_N_go_0|].
  rewrite !(pretty_N_go_step x) by lia.
  rewrite (IH (x `div` 10)%N) by (apply N.div_lt; lia).
  rewrite (IH (x `div` 10)%N ltac:(apply N.div_lt; lia) (String _ "")).
  by rewrite append_assoc.
Qed.

(** Digits followed by a character that is neither a digit nor an
    underscore are not an integer literal. *)
Lemma int_digits_pretty_then c (n : N) rest :
  Ascii.is_nat c = None -> c <> "_"%char ->
  int_digits 0 false (pretty n +:+ String c rest) = None.
Proof.
  intros Hc Hunder.
  assert (forall acc, int_digits acc true (String c rest) = None) as Hstop.
  { intros acc. cbn [int_digits]. unfold digit_of. rewrite Hc. cbn.
    unfold ascii_eqb. by rewrite bool_decide_eq_false_2. }
  unfold pretty, pretty_N. destruct (decide (n = 0%N)) as [->|Hn].
  - change ("0" +:+ String c rest) with (String "0" (String c rest)).
    cbn [int_digits]. apply Hstop.
  - rewrite <- pretty_N_go_app.
    destruct (int_digits_pretty_N_go n ltac:(lia)) as [k ->]. apply Hstop.
Qed.

Lemma pretty_first (n : N) :
  exists c r, pretty n = String c r /\ c <> "+"%char /\ c <> "-"%char.
Proof.
  pose proof (int_digits_pretty n) as Hint.
  pose proof (contains_pretty "+" n eq_refl) as Hplus.
  pose proof (contains_pretty "-" n eq_refl) as Hminus.
  destruct (pretty n) as [|c r]; [done|].
  exists c, r. split; [done|].
  simpl in Hplus, Hminus.
  apply orb_false_iff in Hplus as [Hplus%bool_decide_eq_false _].
  apply orb_false_iff in Hminus as [Hminus%bool_decide_eq_false _].
  done.
Qed.

Lemma any_char_app P s1 s2 :
  any_char P (s1 +:+ s2) = any_char P s1 || any_char P s2.
Proof.
  induction s1 as [|a s1 IH]; [done|].
  change (String a s1 +:+ s2) with (String a (s1 +:+ s2)).
  simpl. by rewrite IH, orb_assoc.
Qed.

(** A range is not an integer literal. *)
Lemma int_range_raises (a b : N) :
  int (pretty a +:+ "-" +:+ pretty b) = Raise ValueError.
Proof.
  unfold int. rewrite int_strip_no_blank.
  2:{ rewrite any_char_app, int_blank_pretty.
      change ("-" +:+ pretty b) with (String "-" (pretty b)).
      simpl. apply int_blank_pretty. }
  pose proof (int_digits_pretty_then "-" a (pretty b) eq_refl ltac:(done)) as Hno.
  change ("-" +:+ pretty b) with (String "-" (pretty b)).
  destruct (pretty_first a) as (c & r & Hc & Hplus & Hminus).
  rewrite Hc in *. change (String c r +:+ ?s) with (String c (r +:+ s)) in *.
  destruct c as [[] [] [] [] [] [] [] []];
    try (by destruct Hplus); try (by destruct Hminus); by rewrite Hno.
Qed.

Lemma validate_field_rec_number depth (n : N) min_val max_val :
  validate_field_rec (S depth) (pretty n) min_val max_val
  = Return ((min_val <=? Z.of_N n) && (Z.of_N n <=? max_val)
            && (String.length (pretty n) <=? max_str_digits)%nat).
Proof.
  rewrite validate_field_rec_unfold.
  rewrite !contains_pretty by done.
  rewrite eqb_star_no_star by (by apply contains_pretty).
  rewrite int_pretty.
  destruct (String.length (pretty n) <=? max_str_digits)%nat; simpl;
    by rewrite ?andb_true_r, ?andb_false_r.
Qed.

(** X18. A range of two decimal numerals is accepted exactly when the
    first is at least the lower bound, the second at most the upper
    bound, the first is not above the second, and neither numeral has
    more digits than [int] takes. *)
Theorem range_is_accepted_in_order (a b : N) min_val max_val :
  validate_field (pretty a +:+ "-" +:+ pretty b) min_val max_val
  = Return ((min_val <=? Z.of_N a) && (Z.of_N a <=? Z.of_N b)
            && (Z.of_N b <=? max_val)
            && (String.length (pretty a) <=? max_str_digits)%nat
            && (String.length (pretty b) <=? max_str_digits)%nat).
Proof.
  unfold validate_field, recursion_limit. rewrite validate_field_rec_unfold.
  change ("-" +:+ pretty b) with (String "-" (pretty b)).
  rewrite eqb_star_no_star
    by (rewrite contains_app; simpl; by rewrite !contains_pretty).
  rewrite !contains_app. cbn [contains]. rewrite !contains_pretty by done.
  unfold ascii_eqb. rewrite bool_decide_eq_false_2 by done.
  rewrite bool_decide_eq_true_2 by done. cbn [orb].
  rewrite split_on_two by (by apply contains_pretty).
  rewrite !int_pretty.
  destruct (String.length (pretty a) <=? max_str_digits)%nat,
    (String.length (pretty b) <=? max_str_digits)%nat; simpl;
    by rewrite ?andb_true_r, ?andb_false_r.
Qed.

(** X19. Steps. After a star the step must be positive and its numeral
    must have no more digits than [int] takes; it is not compared with
    the bounds of the field. After a number the number must also be
    within the bounds. A range with a step, as in "0-30/5", is always
    rejected, because the text before the slash is read as one
    number. *)
Theorem step_is_accepted (a b s : N) min_val max_val :
  validate_field ("*/" +:+ pretty s) min_val max_val
  = Return ((min_val <=? max_val) && (0 <? Z.of_N s)
            && (String.length (pretty s) <=? max_str_digits)%nat)
  /\ validate_field (pretty b +:+ "/" +:+ pretty s) min_val max_val
     = Return ((min_val <=? Z.of_N b) && (Z.of_N b <=? max_val)
               && (0 <? Z.of_N s)
               && (String.length (pretty b) <=? max_str_digits)%nat
               && (String.length (pretty s) <=? max_str_digits)%nat)
  /\ validate_field (pretty a +:+ "-" +:+ pretty b +:+ "/" +:+ pretty s)
       min_val max_val
     = Return false.
Proof.
  unfold validate_field, recursion_limit. rewrite !validate_field_rec_unfold.
  split; [|split].
  - change ("*/" +:+ pretty s) with ("*" +:+ String "/" (pretty s)).
    rewrite split_on_two by (done || by apply contains_pretty).
    change ("*" +:+ String "/" (pretty s)) with (String "*" (String "/" (pretty s))).
    cbn [String.eqb Ascii.eqb Bool.eqb contains]. unfold ascii_eqb.
    rewrite (bool_decide_eq_true_2 ("/"%char = "/"%char)) by done.
    rewrite orb_true_r. rewrite int_pretty.
    destruct (String.length (pretty s) <=? max_str_digits)%nat; simpl;
      by rewrite ?Z.leb_refl, ?andb_true_r, ?andb_false_r.
  - change ("/" +:+ pretty s) with (String "/" (pretty s)).
    rewrite eqb_star_no_star
      by (rewrite contains_app; simpl; by rewrite !contains_pretty).
    rewrite contains_app. cbn [contains]. unfold ascii_eqb.
    rewrite (bool_decide_eq_true_2 ("/"%char = "/"%char)) by done.
    rewrite orb_true_r.
    rewrite split_on_two by (by apply contains_pretty).
    rewrite eqb_star_no_star by (by apply contains_pretty).
    rewrite !int_pretty.
    destruct (String.length (pretty b) <=? max_str_digits)%nat,
      (String.length (pretty s) <=? max_str_digits)%nat; simpl;
      by rewrite ?andb_true_r, ?andb_false_r.
  - change (pretty a +:+ "-" +:+ pretty b +:+ "/" +:+ pretty s)
      with (pretty a +:+ String "-" (pretty b +:+ String "/" (pretty s))).
    rewrite eqb_star_no_star
      by (rewrite !contains_app; simpl; rewrite contains_app; simpl;
          by rewrite !contains_pretty).
    rewrite contains_app. cbn [contains]. rewrite contains_app. cbn [contains].
    unfold ascii_eqb.
    rewrite (bool_decide_eq_true_2 ("/"%char = "/"%char)) by done.
    rewrite !orb_true_r.
    replace (pretty a +:+ String "-" (pretty b +:+ String "/" (pretty s)))
      with ((pretty a +:+ "-" +:+ pretty b) +:+ String "/" (pretty s)).
    2:{ by rewrite append_assoc. }
    rewrite split_on_two.
    + rewrite eqb_star_no_star.
      * by rewrite int_range_raises.
      * rewrite contains_app. change ("-" +:+ pretty b) with (String "-" (pretty b)).
        simpl. by rewrite !contains_pretty.
    + rewrite contains_app. change ("-" +:+ pretty b) with (String "-" (pretty b)).
      simpl. by rewrite !contains_pretty.
    + by apply contains_pretty.
Qed.

(** *** Lists of numbers *)

(** [sep.join(l).split(sep)] gives [l] back when no element has [sep]
    in it. *)
Lemma split_on_join sep l :
  l <> [] ->
  Forall (fun x => contains sep x = false) l ->
  split_on sep (join (String sep "") l) = l.
Proof.
  intros Hne Hall. induction Hall as [|x l Hx Hl IH]; [done|].
  destruct l as [|y l]; [by apply split_on_absent|].
  change (join (String sep "") (x :: y :: l))
    with (x +:+ String sep (join (String sep "") (y :: l))).
  unfold split_on. rewrite split_on_go_app by done.
  f_equal. by apply IH.
Qed.

Lemma all_numbers depth (ns : list N) min_val max_val :
  all (fun v => validate_field_rec (S depth) (strip v) min_val max_val)
    (pretty <$> ns)
  = Return (forallb (fun n => (min_val <=? Z.of_N n) && (Z.of_N n <=? max_val)
                               && (String.length (pretty n) <=? max_str_digits)%nat)
              ns).
Proof.
  induction ns as [|n ns IH]; [done|].
  cbn [fmap list_fmap all forallb].
  rewrite strip_no_blank by apply isspace_pretty.
  rewrite validate_field_rec_number.
  destruct ((min_val <=? Z.of_N n) && (Z.of_N n <=? max_val)
            && (String.length (pretty n) <=? max_str_digits)%nat); [|done].
  apply IH.
Qed.

(** X20. A comma list of decimal numerals is accepted exactly when
    every number is within the bounds of the field and no numeral has
    more digits than [int] takes. *)
Theorem list_of_numbers_is_accepted (ns : list N) min_val max_val :
  ns <> [] ->
  validate_field (join "," (pretty <$> ns)) min_val max_val
  = Return (forallb (fun n => (min_val <=? Z.of_N n) && (Z.of_N n <=? max_val)
                               && (String.length (pretty n) <=? max_str_digits)%nat)
              ns).
Proof.
  intros Hne. unfold validate_field, recursion_limit.
  destruct ns as [|n [|m ns]]; [done|..].
  { cbn [fmap list_fmap join forallb].
    by rewrite validate_field_rec_number, andb_true_r. }
  assert (forall c, Ascii.is_nat c = None -> c <> ","%char ->
            contains c (join "," (pretty <$> n :: m :: ns)) = false) as Hnone.
  { intros c Hc Hcomma. apply contains_join.
    - simpl. unfold ascii_eqb. by rewrite bool_decide_eq_false_2.
    - apply Forall_fmap, Forall_forall. intros x _. by apply contains_pretty. }
  rewrite validate_field_rec_unfold.
  rewrite eqb_star_no_star by (by apply Hnone).
  rewrite !Hnone by done.
  rewrite split_on_join;
    [|done|apply Forall_fmap, Forall_forall; intros x _; by apply contains_pretty].
  replace (contains "," (join "," (pretty <$> n :: m :: ns))) with true.
  - apply all_numbers.
  - change (join "," (pretty <$> n :: m :: ns))
      with (pretty n +:+ String "," (join "," (pretty <$> m :: ns))).
    rewrite contains_app. cbn [contains]. unfold ascii_eqb.
    rewrite (bool_decide_eq_true_2 (","%char = ","%char)) by done.
    by rewrite orb_true_r.
Qed.

(** *** When the checker raises *)

Lemma length_split_on_go sep cur s : (1 <= length (split_on_go sep cur s))%nat.
Proof.
  revert cur. induction s as [|a s IH]; intros cur; simpl; [lia|].
  destruct (ascii_eqb a sep); simpl; [lia|apply IH].
Qed.

Lemma length_split_on_go_present sep cur s :
  contains sep s = true -> (2 <= length (split_on_go sep cur s))%nat.
Proof.
  revert cur. induction s as [|a s IH]; intros cur; simpl; [done|].
  destruct (ascii_eqb a sep); simpl.
  - intros _. pose proof (length_split_on_go sep "" s). lia.
  - apply IH.
Qed.

Lemma all_raises {A} (f : A -> outcome bool) l e :
  all f l = Raise e -> exists x, x ∈ l /\ f x = Raise e.
Proof.
  induction l as [|x l IH]; simpl; [done|].
  destruct (f x) as [[|]|e'] eqn:Hx; try done.
  - intros (y & Hy & Hfy)%IH. exists y. split; [by apply list_elem_of_further|done].
  - intros [= ->]. exists x. split; [apply list_elem_of_here|done].
Qed.

Lemma step_branch_returns base step min_val max_val :
  exists b,
    except_ValueError
      (base_int ← (if String.eqb base "*" then Return min_val else int base);
       step_int ← int step;
       Return ((min_val <=? base_int) && (base_int <=? max_val)
               && (0 <? step_int)))
    = Return b.
Proof.
  apply except_ValueError_total. intros e.
  destruct (String.eqb base "*"); simpl.
  - destruct (int step) eqn:Hs; simpl; [done|].
    intros [= <-]. by apply int_raises in Hs.
  - destruct (int base) eqn:Hb; simpl.
    + destruct (int step) eqn:Hs; simpl; [done|].
      intros [= <-]. by apply int_raises in Hs.
    + intros [= <-]. by apply int_raises in Hb.
Qed.

Lemma range_branch_returns value min_val max_val :
  exists b,
    except_ValueError
      match split_on "-" value with
      | [start; end_] =>
          start_int ← int start;
          end_int ← int end_;
          Return ((min_val <=? start_int) && (start_int <=? end_int)
                  && (end_int <=? max_val))
      | _ => Raise ValueError
      end
    = Return b.
Proof.
  apply except_ValueError_total. intros e.
  destruct (split_on "-" value) as [|start [|end_ [|]]];
    try (by intros [= <-]).
  destruct (int start) eqn:Hs; simpl.
  - destruct (int end_) eqn:He; simpl; [done|].
    intros [= <-]. by apply int_raises in He.
  - intros [= <-]. by apply int_raises in Hs.
Qed.

Lemma number_branch_returns value min_val max_val :
  exists b,
    except_ValueError
      (val ← int value; Return ((min_val <=? val) && (val <=? max_val)))
    = Return b.
Proof.
  apply except_ValueError_total. intros e.
  destruct (int value) eqn:Hv; simpl; [done|].
  intros [= <-]. by apply int_raises in Hv.
Qed.

(** A value without a slash does not make a frame raise, whatever its
    depth, as long as a frame is left. *)
Lemma validate_field_rec_no_slash value min_val max_val e :
  contains "/" value = false -> contains "," value = false ->
  validate_field_rec 1 value min_val max_val <> Raise e.
Proof.
  intros Hslash Hcomma. rewrite validate_field_rec_unfold, Hslash, Hcomma.
  destruct (String.eqb value "*"); [done|].
  destruct (contains "-" value).
  - destruct (range_branch_returns value min_val max_val) as [b ->]. done.
  - destruct (number_branch_returns value min_val max_val) as [b ->]. done.
Qed.

Lemma validate_field_raises value min_val max_val e :
  validate_field value min_val max_val = Raise e ->
  e = ValueError /\ (3 <= length (split_on "/" value))%nat.
Proof.
  rewrite (proj1 (validate_field_terminates value min_val max_val)).
  rewrite validate_field_rec_unfold.
  destruct (String.eqb value "*"); [done|].
  destruct (contains "/" value) eqn:Hslash.
  { pose proof (length_split_on_go_present "/" "" value Hslash) as Hlen.
    unfold split_on.
    destruct (split_on_go "/" "" value) as [|base [|step [|third rest]]];
      simpl in Hlen; try lia.
    - destruct (step_branch_returns base step min_val max_val) as [b ->]. done.
    - intros [= <-]. split; [done|]. simpl. lia. }
  destruct (contains "-" value).
  { destruct (range_branch_returns value min_val max_val) as [b ->]. done. }
  destruct (contains "," value).
  { intros (p & Hp & Hraise)%all_raises.
    exfalso. revert Hraise. apply validate_field_rec_no_slash.
    - apply contains_strip. rewrite contains_any_char.
      apply (split_on_chars _ "," value); [|done].
      by rewrite <- contains_any_char.
    - by apply contains_strip, (split_on_pieces _ value). }
  destruct (number_branch_returns value min_val max_val) as [b ->]. done.
Qed.

(** X21. A field makes the checker raise exactly when it has two or
    more slashes, and the exception is then a [ValueError]: the step
    branch unpacks the pieces around the slash into two names outside
    its [try]. In every other case the test of the field returns. *)
Theorem field_raises_on_two_slashes value min_val max_val e :
  validate_field value min_val max_val = Raise e
  <-> e = ValueError /\ (3 <= length (split_on "/" value))%nat.
Proof.
  split; [apply validate_field_raises|].
  intros [-> Hlen].
  rewrite (proj1 (validate_field_terminates value min_val max_val)).
  rewrite validate_field_rec_unfold.
  destruct (String.eqb value "*") eqn:Hstar.
  { apply String.eqb_eq in Hstar as ->. simpl in Hlen. lia. }
  destruct (contains "/" value) eqn:Hslash.
  - destruct (split_on "/" value) as [|base [|step [|third rest]]];
      simpl in Hlen; try lia; done.
  - rewrite split_on_absent in Hlen by done. simpl in Hlen. lia.
Qed.

Lemma string_exception_needs_two_slashes cron_expr e :
  (validate_cron_expression cron_expr).2 = MsgException e ->
  e = ValueError
  /\ exists f, f ∈ split_ws cron_expr /\ (3 <= length (split_on "/" f))%nat.
Proof.
  unfold validate_cron_expression.
  destruct (split_ws cron_expr) as [|mi [|ho [|da [|mo [|dw [|]]]]]]; try done.
  cbn [length Nat.eqb negb]. unfold check_fields.
  assert (forall f min_val max_val e',
            f ∈ [mi; ho; da; mo; dw] ->
            validate_field f min_val max_val = Raise e' ->
            MsgException e' = MsgException e ->
            e = ValueError
            /\ exists f, f ∈ [mi; ho; da; mo; dw]
                         /\ (3 <= length (split_on "/" f))%nat) as Hfield.
  { intros f min_val max_val e' Hf Hraise [= <-].
    apply validate_field_raises in Hraise as [-> Hlen]. eauto. }
  unfold mbind, outcome_bind, bind.
  destruct (validate_field mi 0 59) as [[|]|] eqn:Hmi; cbn [negb snd]; try done.
  2:{ apply (Hfield mi 0 59); [repeat constructor|done]. }
  destruct (validate_field ho 0 23) as [[|]|] eqn:Hho; cbn [negb snd]; try done.
  2:{ apply (Hfield ho 0 23); [repeat constructor|done]. }
  destruct (validate_field da 1 31) as [[|]|] eqn:Hda; cbn [negb snd]; try done.
  2:{ apply (Hfield da 1 31); [repeat constructor|done]. }
  destruct (validate_field mo 1 12) as [[|]|] eqn:Hmo; cbn [negb snd]; try done.
  2:{ apply (Hfield mo 1 12); [repeat constructor|done]. }
  destruct (validate_field dw 0 7) as [[|]|] eqn:Hdw; cbn [negb snd]; try done.
  apply (Hfield dw 0 7); [repeat constructor|done].
Qed.

(** X22. The message "Invalid cron expression: ..." of
    [validate_cron_expression] has two causes only. A value that is not
    a string, as the checker gets it from an item whose "cron" member is
    null, a number, a list or an object, always gives it, through the
    [AttributeError] of [cron_expr.split()]. A string gives it only
    through a [ValueError], from a field with two or more slashes;
    neither a wrong number, a missing part nor the depth of the
    recursion leads to it. *)
Theorem exception_message_has_two_causes (cron_expr : json) :
  ((forall s, cron_expr <> JStr s) ->
   CheckCron.validate_cron_expression cron_expr
   = (false, MsgException AttributeError))
  /\ (forall e,
        (CheckCron.validate_cron_expression cron_expr).2 = MsgException e ->
        (e = AttributeError /\ forall s, cron_expr <> JStr s)
        \/ (e = ValueError
            /\ exists s f, cron_expr = JStr s /\ f ∈ split_ws s
                           /\ (3 <= length (split_on "/" f))%nat)).
Proof.
  split.
  - intros Hno. destruct cron_expr as [| | |s| |]; try reflexivity.
    by destruct (Hno s).
  - intros e. destruct cron_expr as [| | |s| |];
      try (intros [= <-]; left; split; [done|]; intros s; discriminate).
    intros (-> & f & Hf & Hlen)%string_exception_needs_two_slashes.
    right. split; [done|]. by exists s, f.
Qed.

End ValidatorFacts.

(** ** The first version *)

Module LegacyMoreFacts.
Import Legacy LegacyMore.

Lemma dict_get_is_Some {V} k (kv : list (string * V)) :
  is_Some (dict_get k kv) <-> k ∈ kv.*1.
Proof.
  induction kv as [|[k' v] kv IH]; simpl.
  - split; [by intros [? ?]|by intros ?%elem_of_nil].
  - rewrite elem_of_cons. destruct (String.eqb k' k) eqn:Hk.
    + apply String.eqb_eq in Hk as ->. split; [by left|by eexists].
    + apply String.eqb_neq in Hk. rewrite IH. split; [by right|].
      by intros [->|?].
Qed.

Section Pydub.

Variable AudioSegment : Type.
Variable empty : AudioSegment.
Variable add : AudioSegment -> AudioSegment -> AudioSegment.
Variable from_mp3 : string -> outcome AudioSegment.
Variable play : AudioSegment -> outcome unit.

Lemma combine_lines combined out mp3_files :
  combine AudioSegment add from_mp3 combined out mp3_files
  = (fold_left add (loaded AudioSegment from_mp3 mp3_files) combined,
     out ++ not_loaded AudioSegment from_mp3 mp3_files).
Proof.
  revert combined out. induction mp3_files as [|f rest IH]; intros; simpl.
  - by rewrite app_nil_r.
  - destruct (from_mp3 f); rewrite IH; [done|]. by rewrite <- app_assoc.
Qed.

(** X23. The station announcement of the first version: the loop
    never fails, whatever the four values and whatever loads; it prints
    one line for each clip that does not load, in the order chime,
    train, direction, destination, track, and then calls [play] once
    with the clips that load, added up in that order. The call of
    [play] is outside the [try], so the function ends as that call
    ends: it raises exactly when [play] raises. *)
Theorem legacy_station_announcement_plays_what_loads
    (train_number direction destination track_number : json) :
  let mp3_files :=
    [ "static/mp3/chime.mp3";
      path_join "static/mp3/train/" (py_str train_number +:+ ".mp3");
      path_join "static/mp3/direction/" (py_str direction +:+ ".mp3");
      path_join "static/mp3/destination/" (py_str destination +:+ ".mp3");
      path_join "static/mp3/track/" (py_str track_number +:+ ".mp3") ] in
  let combined_audio := fold_left add (loaded AudioSegment from_mp3 mp3_files) empty in
  Legacy.play_station_announcement AudioSegment empty add from_mp3 play
    train_number direction destination track_number
  = ((Printed AudioSegment <$> not_loaded AudioSegment from_mp3 mp3_files)
     ++ [PlayCalled AudioSegment combined_audio],
     play combined_audio).
Proof.
  intros mp3_files combined_audio. subst mp3_files combined_audio.
  unfold Legacy.play_station_announcement.
  change (table_get Legacy.MP3_PATHS "train") with (Return (A:=string) "static/mp3/train/").
  change (table_get Legacy.MP3_PATHS "direction")
    with (Return (A:=string) "static/mp3/direction/").
  change (table_get Legacy.MP3_PATHS "destination")
    with (Return (A:=string) "static/mp3/destination/").
  change (table_get Legacy.MP3_PATHS "track") with (Return (A:=string) "static/mp3/track/").
  unfold mbind, outcome_bind, bind. cbv beta iota zeta.
  by rewrite combine_lines.
Qed.

(** X24. The safety route of the first version looks the language up
    in the whole path table, so the answer depends on that alone: the
    names of the five clip directories pass as languages just as the
    four languages do, the answer is the same whether or not the clip
    could be loaded or played, and the marker of the running
    announcement is cleared in every case. *)
Theorem legacy_safety_answer_ignores_playback language current :
  let '(answer, current', events) :=
    play_safety_announcement AudioSegment from_mp3 play (Some language) current in
  (answer = SafetyPlayed language
   <-> language ∈ ["train"; "direction"; "destination"; "track"; "promo";
                   "english"; "spanish"; "portuguese"; "russian"])
  /\ (answer = InvalidLanguage
      <-> language ∉ ["train"; "direction"; "destination"; "track"; "promo";
                      "english"; "spanish"; "portuguese"; "russian"])
  /\ (answer = InvalidLanguage -> events = [])
  /\ current' = None
  /\ forall audio, Play audio ∈ events ->
       exists path, dict_get language LegacyMore.MP3_PATHS = Some path
                    /\ from_mp3 path = Return audio.
Proof.
  unfold play_safety_announcement.
  pose proof (dict_get_is_Some language LegacyMore.MP3_PATHS) as Hkeys.
  change (LegacyMore.MP3_PATHS.*1)
    with ["train"; "direction"; "destination"; "track"; "promo";
          "english"; "spanish"; "portuguese"; "russian"] in Hkeys.
  destruct (dict_get language LegacyMore.MP3_PATHS) as [path|].
  - split; [|split; [|split; [|split]]]; try done.
    + split; [intros _; apply Hkeys; by eexists|done].
    + split; [done|]. intros Hno. destruct Hno. apply Hkeys. by eexists.
    + intros audio. unfold play_audio.
      destruct (from_mp3 path) as [a|e] eqn:Hload.
      * rewrite elem_of_cons. intros [[= ->]|Hin]; [by exists path|].
        destruct (play a); [by apply elem_of_nil in Hin|].
        by apply list_elem_of_singleton in Hin.
      * by intros ?%list_elem_of_singleton.
  - split; [|split; [|split; [|split]]]; try done.
    + split; [done|]. intros Hin%Hkeys. by destruct Hin.
    + split; [|done]. intros _ Hin%Hkeys. by destruct Hin.
    + by intros audio ?%elem_of_nil.
Qed.

End Pydub.
End LegacyMoreFacts.

(** ** The further statements on concrete scenarios *)

Module MoreExamples.
Import Win64 Win64More Reference ReferenceMore.

(** Scenario C written by [save_json] and read back by [load_json]: the
    document has three members, none of them called "cron", and comes
    back whole. *)
Lemma scenario_C_saved_and_loaded :
  (load_json Trigger "cron"
     (save_json Trigger "cron" (document_json scenario_C) initial).2).1
  = Return (document_json scenario_C).
Proof.
  exact (proj1 (proj2 (proj2
           (Win64MoreFacts.save_then_load "cron" cron_path
              (document_json scenario_C) initial eq_refl eq_refl)))
           (document_members scenario_C) eq_refl eq_refl
           ltac:(discriminate)).
Defined.

(** Scenario C posted and then read with GET. *)
Lemma scenario_C_posted_and_read :
  (api_schedule Trigger CronTrigger GET JNull
     (api_schedule Trigger CronTrigger POST (schedule_request scenario_C) initial).2).1
  = Return (RSchedule (document_json scenario_C)).
Proof.
  exact (f_equal fst
           (Win64MoreFacts.get_after_post CronTrigger scenario_C initial eq_refl)).
Defined.

(** A POST whose body is [null]. *)
Lemma post_of_null :
  api_schedule Trigger CronTrigger POST JNull initial
  = (Return (RError ErrScheduleRequired 400), initial).
Proof.
  exact (Win64MoreFacts.post_without_schedule CronTrigger JNull initial
           (or_introl eq_refl)).
Defined.

(** A POST whose schedule is a list: the file now holds the list and
    the answer is status 500. *)
Lemma post_of_a_list :
  let r := api_schedule Trigger CronTrigger POST
             (JObj [("schedule", JArr [])]) (holding scenario_C Writable) in
  r.1 = Return (RError (ErrUpdateFailed AttributeError) 500)
  /\ files r.2 !! cron_path = Some (Json (JArr []))
  /\ jobs r.2 = [].
Proof.
  pose proof (Win64MoreFacts.post_of_a_non_object CronTrigger
                [("schedule", JArr [])] (JArr []) (holding scenario_C Writable)
                eq_refl eq_refl ltac:(intros members; discriminate)) as H.
  cbv zeta. rewrite H. repeat split.
Defined.

(** The announcement of train 1, from the command line, through the API
    and as a scheduled job. *)
Lemma train_1_three_ways :
  handle_cli Trigger (fun w => (Return tt, w)) (fun w => (Return tt, w))
    station_args initial
  = (Return [], (run_job Trigger station_job initial).2)
  /\ (api_station_announcement Trigger (JObj station_members) initial).2
     = (run_job Trigger station_job initial).2.
Proof.
  destruct (HandlersFacts.station_entry_points_agree
              (fun w => (Return tt, w)) (fun w => (Return tt, w))
              station_args station_members station_job initial
              "1" "westbound" "goodwin_station" "1"
              ltac:(discriminate) ltac:(discriminate) ltac:(discriminate)
              ltac:(discriminate) eq_refl eq_refl eq_refl eq_refl eq_refl eq_refl
              eq_refl eq_refl eq_refl eq_refl eq_refl eq_refl)
    as (Hcli & Hapi & Hjob).
  rewrite Hcli, Hapi, Hjob. split; reflexivity.
Defined.

(** The promo that the promo file lists is played through the API. *)
Lemma listed_promo_is_played :
  api_promo_announcement Trigger (JObj [("file", JStr "promo_english.mp3")]) configured
  = (Return (Answer (RTriggered promo [JStr "promo_english.mp3"])),
     with_trace [StartThread (TPlayAudio "static/mp3/promo/promo_english.mp3")]
       configured).
Proof.
  exact (HandlersFacts.api_promo_announcement_checks_the_list
           [("file", JStr "promo_english.mp3")] "promo_english.mp3"
           [ JObj [("id", JStr "promo_english.mp3"); ("name", JStr "Promo")] ]
           ["promo_english.mp3"] configured eq_refl eq_refl eq_refl
           ltac:(discriminate)).
Defined.

(** A language that the safety file does not list is refused. *)
Lemma unlisted_language_is_refused :
  api_safety_announcement Trigger (JObj [("language", JStr "german")]) configured
  = (Return (NotAvailable safety (JStr "german") ["english"; "spanish"]), configured).
Proof.
  exact (HandlersFacts.api_safety_announcement_checks_the_list
           [("language", JStr "german")] "german"
           [ JObj [("id", JStr "english"); ("name", JStr "English")];
             JObj [("id", JStr "spanish"); ("name", JStr "Spanish")] ]
           ["english"; "spanish"] configured eq_refl eq_refl eq_refl
           ltac:(discriminate)).
Defined.

(** Scenario B on both variants, with a [crontab] command that takes
    the new table: the count is 0 on both, and the table written holds
    the header alone. *)
Lemma scenario_B_on_both_variants :
  let a := DebArmMore.api_schedule_post "/opt/tarr" "/opt/tarr/app.py" (fun _ => true)
             (schedule_request scenario_B) host_with_entry_A in
  (api_schedule Trigger CronTrigger POST (schedule_request scenario_B) initial).1
  = Return (RUpdated 0)
  /\ a.1 = Return (RUpdated 0)
  /\ DebArmMore.crontab a.2
     = Some (DebArmMore.crontab_text [] [DebArm.header]).
Proof.
  pose proof (DisabledFacts.disabled_entry_on_both_variants CronTrigger unit fires
                "/opt/tarr" "/opt/tarr/app.py" (fun _ => true)
                scenario_B station 0 (entry_A "0 8 * * 1-5" false)
                initial host_with_entry_A eq_refl eq_refl eq_refl eq_refl) as H.
  cbv zeta in H.
  destruct H as ((_ & _ & _ & Hwin) & _ & _ & _ & Hone & _).
  destruct (Hone eq_refl eq_refl) as [Htable Hcount].
  cbv zeta. split; [exact Hwin|]. split; [exact Hcount|exact Htable].
Defined.

(** The same request when the [crontab] command refuses the new table:
    the schedule file holds the document with the entry disabled, the
    table still has the line of the entry, and the answer is a success
    that counts it. *)
Lemma stale_line_stays_live :
  let a := DebArmMore.api_schedule_post "/opt/tarr" "/opt/tarr/app.py" (fun _ => false)
             (schedule_request scenario_B) host_with_entry_A in
  a.1 = Return (RUpdated 1)
  /\ DebArmMore.files a.2 !! cron_path = Some (Json (document_json scenario_B))
  /\ DebArmMore.crontab a.2 = Some table_with_entry_A
  /\ DebArmMore.jobs (DebArmMore.get_cron_status (DebArmMore.crontab_l a.2))
     = [ "0 8 * * 1-5 cd /opt/tarr && python3 /opt/tarr/app.py --station --train '1' --direction 'westbound' --destination 'goodwin_station' --track '1' >> /var/log/tarr-announcer.log 2>&1" ].
Proof. vm_compute. repeat split. Qed.

(** The table written over [table_before] for one promo entry, read by
    the next update: the two lines of the user are kept, the block and
    the comment that followed the old header are not. *)
Lemma next_update_removes_the_block :
  let old := DebArmMore.translate_newlines table_before in
  let text :=
    DebArmMore.crontab_text (DebArmMore.filter_crontab (DebArmMore.lines_of old))
      (DebArm.cron_entries promo_block) in
  join (String DebArmMore.nl "")
    (DebArmMore.filter_crontab
       (DebArmMore.lines_of (DebArmMore.translate_newlines text)))
  = join (String DebArmMore.nl "") ["MAILTO=root"; "0 3 * * * /usr/bin/backup"].
Proof.
  exact (eq_trans
           (CrontabTextFacts.written_block_is_filtered_out
              "/opt/tarr" "/opt/tarr/app.py"
              (document_json (single_entry (promo_entry "*/15 * * * *")))
              promo_block table_before eq_refl ltac:(repeat constructor))
           eq_refl).
Defined.

(** The status of that table lists the one job of the block. *)
Lemma status_of_the_block :
  let old := DebArmMore.translate_newlines table_before in
  let text :=
    DebArmMore.crontab_text (DebArmMore.filter_crontab (DebArmMore.lines_of old))
      (DebArm.cron_entries promo_block) in
  DebArmMore.count
    (DebArmMore.get_cron_status (Return (0, DebArmMore.translate_newlines text)))
  = 1%nat.
Proof.
  exact (f_equal DebArmMore.count
           (proj1 (CrontabTextFacts.status_counts_the_written_block
                     "/opt/tarr" "/opt/tarr/app.py"
                     (document_json (single_entry (promo_entry "*/15 * * * *")))
                     promo_block table_before eq_refl ltac:(repeat constructor)))).
Defined.

(** A carriage return in a cron text: the line built for the entry is
    read back as two lines, the next update keeps the first of them as
    a line of the user, and the status counts the second. *)
Lemma carriage_return_leaves_a_line_behind :
  let cron_text := "*/15 * * * *" +:+ String DebArmMore.cr "30 * * * *" in
  let text :=
    DebArmMore.crontab_text []
      (DebArm.header
       :: DebArmMore.built "/opt/tarr" "/opt/tarr/app.py"
            (single_entry (promo_entry cron_text))) in
  DebArmMore.filter_crontab
    (DebArmMore.lines_of (DebArmMore.translate_newlines text))
  = ["*/15 * * * *"]
  /\ DebArmMore.jobs
       (DebArmMore.get_cron_status (Return (0, DebArmMore.translate_newlines text)))
     = ["30 * * * * cd /opt/tarr && python3 /opt/tarr/app.py --promo --file 'promo_english.mp3' >> /var/log/tarr-announcer.log 2>&1"].
Proof. vm_compute. done. Qed.

(** The comment "# nightly jobs" of [crontab_before] is lost. *)
Lemma nightly_comment_is_lost :
  DebArmMore.filter_crontab crontab_before
  = ["MAILTO=root"; "0 3 * * * /usr/bin/backup"].
Proof.
  exact (eq_trans
           (CrontabFacts.comment_after_header_is_dropped ["MAILTO=root"]
              "# TARR Annunciator scheduled announcements" "# nightly jobs"
              ["0 3 * * * /usr/bin/backup"] eq_refl eq_refl)
           eq_refl).
Defined.

(** Every quarter of an hour. *)
Lemma quarters_are_accepted :
  ValidateCron.validate_field "0,15,30,45" 0 59 = Return true.
Proof.
  exact (ValidatorFacts.list_of_numbers_is_accepted [0; 15; 30; 45]%N 0 59
           ltac:(discriminate)).
Defined.

(** A "cron" member that is null. *)
Lemma null_cron_gives_the_message :
  CheckCron.validate_cron_expression JNull
  = (false, ValidateCron.MsgException AttributeError).
Proof.
  exact (proj1 (ValidatorFacts.exception_message_has_two_causes JNull)
           ltac:(intros s; discriminate)).
Defined.


(** Each of them starts its thread; the two web forms assign the marker
    first, the other four do not. *)
Lemma six_threads_two_assignments :
  let evs := trace (Marker.after Trigger CronTrigger announcements configured) in
  Marker.started evs
  = [ TPlaySequence station_clips; TPlaySequence station_clips;
      TPlayAudio "static/mp3/safety/safety_english.mp3";
      TPlayAudio "static/mp3/safety/safety_spanish.mp3";
      TPlaySequence station_clips;
      TPlayAudio "static/mp3/safety/safety_english.mp3" ]
  /\ List.filter (fun ev => match ev with
                       | AssignCurrentAnnouncement _ | StartThread _ => true
                       | _ => false
                       end) evs
     = [ StartThread (TPlaySequence station_clips);
         StartThread (TPlaySequence station_clips);
         StartThread (TPlayAudio "static/mp3/safety/safety_english.mp3");
         StartThread (TPlayAudio "static/mp3/safety/safety_spanish.mp3");
         AssignCurrentAnnouncement None;
         StartThread (TPlaySequence station_clips);
         AssignCurrentAnnouncement None;
         StartThread (TPlayAudio "static/mp3/safety/safety_english.mp3") ].
Proof. vm_compute. done. Qed.

End MoreExamples.
